(** * ScreenCapture-v2: the capture / preview / record loop of [main.py]

    A shallow embedding of [src/main.py] and the properties its
    specification states about it.

    - Python floats are IEEE binary64: they are Rocq's primitive floats, so
      [measured_fps * 0.9 + (1.0 / dt) * 0.1] is computed bit for bit.
    - Python exceptions are the [Raise] results of an error monad.
    - The collaborators (mss, OpenCV's windows and video writer, the clock,
      the keyboard) are not part of the program: what they answer is an input
      of the model ([Env], [Tick]) and what the program asks of them is
      recorded as a trace of [event]s.
    - The locals of [main] that the loop mutates ([recording], [last_time],
      [frame_count], [measured_fps]) are the record [Locals], threaded through
      the loop body by a state, trace and exception monad. *)

From Stdlib Require Import ZArith Floats QArith Qminmax Ascii String.
From stdpp Require Import base tactics option list strings pretty gmap.

#[local] Set Warnings "-inexact-float".

#[local] Open Scope string_scope.
#[local] Open Scope list_scope.
#[local] Open Scope Z_scope.

(** ** Python values and exceptions *)
Module Py.

Inductive exn : Type :=
| KeyboardInterrupt
| ZeroDivisionError
| OverflowError
| ValueError
| TypeError
| IndexError
| OtherException (name : string).

Inductive result (A : Type) : Type :=
| Ok (a : A)
| Raise (e : exn).
Arguments Ok {A} a.
Arguments Raise {A} e.

Definition bind {A B} (r : result A) (k : A -> result B) : result B :=
  match r with
  | Ok a => k a
  | Raise e => Raise e
  end.

(** [x / y] on floats: Python raises where IEEE would answer an infinity or
    a NaN for a zero divisor ([-0.0 == 0.0] holds, so both zeros raise). *)
Definition truediv (x y : float) : result float :=
  if (y =? 0)%float then Raise ZeroDivisionError else Ok (x / y)%float.

(** [int(x)] on a float: truncation toward zero; [OverflowError] on an
    infinity, [ValueError] on a NaN.  A finite float is [(-1)^s * m * 2^e]. *)
Definition int (x : float) : result Z :=
  match Prim2SF x with
  | S754_zero _ => Ok 0
  | S754_infinity _ => Raise OverflowError
  | S754_nan => Raise ValueError
  | S754_finite s m e =>
      let a := Z.shiftl (Z.pos m) e in
      Ok (if s then - a else a)
  end.

(** [max(1, x)] with [x] a float: [max] keeps its first argument unless a
    later one compares strictly greater, so a NaN gives 1.  The integer 1
    is the float 1.0 in the division that follows. *)
Definition max1 (x : float) : float :=
  if (1 <? x)%float then x else 1%float.

(** A float that is neither an infinity nor a NaN. *)
Definition finite (x : spec_float) : bool :=
  match x with
  | S754_zero _ | S754_finite _ _ _ => true
  | S754_infinity _ | S754_nan => false
  end.

(** The exact rational value of a float that has one. *)
Definition to_Q (x : float) : option Q :=
  match Prim2SF x with
  | S754_zero _ => Some 0%Q
  | S754_finite s m e =>
      let a := (inject_Z (Z.pos m) * Qpower 2 e)%Q in
      Some (if s then - a else a)%Q
  | _ => None
  end.

End Py.

Notation "x <- r ;; k" := (Py.bind r (fun x => k))
  (at level 100, r at next level, right associativity, only parsing).

(** ** RateEstimator: line 117 of [main] *)
Module RateEstimator.
Import Py.

(** [measured_fps = 0.0] (line 83). *)
Definition initial : float := 0%float.

Section Update.
(** The division operator is a parameter, so that a statement can say
    that a branch does not use it. *)
Variable div : float -> float -> result float.

(** [measured_fps * 0.9 + (1.0 / dt) * 0.1 if dt > 0 else measured_fps]:
    the conditional expression binds weakest. *)
Definition update_with (measured_fps dt : float) : result float :=
  if (0 <? dt)%float then
    q <- div 1%float dt ;;
    Ok (measured_fps * 0.9 + q * 0.1)%float
  else Ok measured_fps.
End Update.

Definition update : float -> float -> result float := update_with truediv.

End RateEstimator.

(** ** Pacing: the argument of [cv2.waitKey] on line 119 *)
Module Pacing.
Import Py.

(** [max(1, int(1000 / max(1, args.fps)))] *)
Definition wait_ms (fps : float) : result Z :=
  q <- truediv 1000%float (max1 fps) ;;
  n <- int q ;;
  Ok (Z.max 1 n).

(** The wait as the specification words it, over the rationals:
    [max(1ms, 1000ms / max(1, target_fps))]. *)
Definition spec_wait_ms (target_fps : Q) : Q :=
  Qmax 1 (1000 / Qmax 1 target_fps).

End Pacing.

(** ** [os.path.splitext] and [str.lower], as [select_codec_by_ext] uses them *)
Module OsPath.

(** [p.rfind(c)]: the highest index at which [c] occurs, -1 when it does
    not. *)
Fixpoint rfind_from (c : ascii) (p : list ascii) (i found : Z) : Z :=
  match p with
  | [] => found
  | x :: p' => rfind_from c p' (i + 1) (if Ascii.eqb x c then i else found)
  end.

Definition rfind (c : ascii) (p : list ascii) : Z := rfind_from c p 0 (-1).

(** The [while] loop of [genericpath._splitext]: is there a character other
    than a dot between the last separator and the last dot? *)
Fixpoint has_non_dot (l : list ascii) : bool :=
  match l with
  | [] => false
  | c :: l' => if Ascii.eqb c "." then has_non_dot l' else true
  end.

(** [posixpath.splitext]: the separator is "/", the extension starts at the
    last dot of the last component, leading dots of that component apart. *)
Definition splitext (p : string) : string * string :=
  let l := list_ascii_of_string p in
  let sepIndex := rfind "/" l in
  let dotIndex := rfind "." l in
  if (sepIndex <? dotIndex)%Z then
    let between := take (Z.to_nat (dotIndex - (sepIndex + 1)))
                        (drop (Z.to_nat (sepIndex + 1)) l) in
    if has_non_dot between then
      (string_of_list_ascii (take (Z.to_nat dotIndex) l),
       string_of_list_ascii (drop (Z.to_nat dotIndex) l))
    else (p, "")
  else (p, "").

(** [str.lower] on the characters a [string] of this development holds:
    "A".."Z" go to "a".."z". *)
Definition lower_ascii (c : ascii) : ascii :=
  let n := nat_of_ascii c in
  if ((65 <=? n) && (n <=? 90))%nat then ascii_of_nat (n + 32) else c.

Fixpoint lower (s : string) : string :=
  match s with
  | EmptyString => EmptyString
  | String c s' => String (lower_ascii c) (lower s')
  end.

End OsPath.

(** ** Codec selection: [select_codec_by_ext] (lines 36-45) *)
Module Codec.
Import Py.

(** OpenCV's [CV_FOURCC] macro, the body of [cv2.VideoWriter_fourcc]: the
    four characters packed little-endian into a C [int]. *)
Definition wrap32 (x : Z) : Z := (x + 2 ^ 31) mod 2 ^ 32 - 2 ^ 31.

Definition CV_FOURCC (c1 c2 c3 c4 : ascii) : Z :=
  let b (c : ascii) := Z.land (Z.of_nat (nat_of_ascii c)) 255 in
  wrap32 (b c1 + Z.shiftl (b c2) 8 + Z.shiftl (b c3) 16 + Z.shiftl (b c4) 24).

(** [cv2.VideoWriter_fourcc] called on a starred string: the string is
    unpacked into positional arguments, and the function takes exactly
    four. *)
Definition VideoWriter_fourcc (s : string) : result Z :=
  match list_ascii_of_string s with
  | [c1; c2; c3; c4] => Ok (CV_FOURCC c1 c2 c3 c4)
  | _ => Raise TypeError
  end.

Definition mp4v : Z := CV_FOURCC "m" "p" "4" "v".
Definition XVID : Z := CV_FOURCC "X" "V" "I" "D".

(** [if override:] on [None] or a string. *)
Definition truthy (override : option string) : bool :=
  match override with
  | None => false
  | Some s => negb (String.eqb s "")
  end.

Definition select_codec_by_ext (filename : string) (override : option string)
  : result Z :=
  if truthy override then
    VideoWriter_fourcc (default "" override)
  else
    let ext := OsPath.lower (snd (OsPath.splitext filename)) in
    if String.eqb ext ".mp4" || String.eqb ext ".m4v" then
      VideoWriter_fourcc "mp4v"
    else if String.eqb ext ".avi" then
      VideoWriter_fourcc "XVID"
    else
      (* fallback *)
      VideoWriter_fourcc "XVID".

End Codec.

(** ** Snapshot names: [timestamped_name] (lines 47-48) *)
Module Snapshot.

(** What [datetime.now()] answers. *)
Record datetime : Type := {
  year : nat; month : nat; day : nat;
  hour : nat; minute : nat; second : nat;
  microsecond : nat
}.

Definition digit (n : nat) : ascii := ascii_of_nat (48 + n mod 10).

(** A field zero-padded to two ([%m %d %H %M %S]) or four ([%Y]) digits. *)
Definition pad2 (n : nat) : string :=
  String (digit (n / 10)) (String (digit n) EmptyString).

Definition pad4 (n : nat) : string :=
  String (digit (n / 1000)) (String (digit (n / 100)) (pad2 n)).

(** [d.strftime('%Y%m%d_%H%M%S')] *)
Definition strftime (d : datetime) : string :=
  pad4 (year d) +:+ pad2 (month d) +:+ pad2 (day d) +:+ "_"
  +:+ pad2 (hour d) +:+ pad2 (minute d) +:+ pad2 (second d).

Definition timestamped_name (prefix ext : string) (now : datetime) : string :=
  prefix +:+ "_" +:+ strftime now +:+ ext.

(** Two instants of the same second. *)
Definition same_second (d1 d2 : datetime) : Prop :=
  year d1 = year d2 /\ month d1 = month d2 /\ day d1 = day d2
  /\ hour d1 = hour d2 /\ minute d1 = minute d2 /\ second d1 = second d2.

End Snapshot.

(** ** [main] (lines 50-142) *)
Module Main.
Import Py.

(** *** Data *)

(** An mss monitor dictionary, and the capture rectangle built from one. *)
Record Rect : Type := {
  left : Z; top : Z; width : Z; height : Z
}.

(** The namespace [parse_args] returns.  [--region] takes exactly four
    integers ([nargs=4]) and is [None] when absent. *)
Record Args : Type := {
  outfile : string;
  fps : float;
  monitor : Z;
  region : option (Z * Z * Z * Z);
  codec : option string
}.

(** A grabbed image is rows of BGRA pixels; a frame is rows of BGR pixels
    and the text drawn on them so far. *)
Definition Image : Type := list (list (Z * Z * Z * Z)).

Inductive text : Type :=
| Status (recording : bool)       (* "REC ON" / "REC OFF", in its colour *)
| Fps (measured_fps : float)      (* f"FPS: {measured_fps:.1f}" *)
| Help.

Record Frame : Type := {
  bgr : list (list (Z * Z * Z));
  texts : list (text * (Z * Z))
}.

(** [cv2.cvtColor(img, cv2.COLOR_BGRA2BGR)]: the alpha channel is dropped. *)
Definition cvtColor (img : Image) : Frame :=
  {| bgr := map (map (fun px => let '(b, g, r, _) := px in (b, g, r))) img;
     texts := [] |}.

(** [cv2.putText(frame, t, org, ...)] draws in place: the same pixel grid
    with one more text on it. *)
Definition putText (f : Frame) (t : text) (org : Z * Z) : Frame :=
  {| bgr := bgr f; texts := texts f ++ [(t, org)] |}.

(** What the program asks of its collaborators. *)
Inductive event : Type :=
| MssOpen                                   (* mss.mss() *)
| Print (msg : string)
| VideoWriterOpen (path : string) (fourcc : Z) (fps : float) (size : Z * Z)
| NamedWindow
| ResizeWindow (w h : Z)
| Grab (r : Rect)
| Imshow (f : Frame)
| WriterWrite (f : Frame)
| WaitKey (ms : Z)
| Imwrite (name : string) (f : Frame)
| WriterRelease
| DestroyAllWindows
| SctClose.

(** The places of the loop body where an exception can surface: an error
    of a collaborator, or the user's Ctrl-C.  At a call ([At...]) the
    exception is raised in place of what the call does.  Ctrl-C is raised
    between two instructions, so it can also surface once a call has
    returned and before the next statement has run; where that leaves the
    program in a state that no failing call leaves, the place is a site of
    its own: [AfterWrite] (line 110 done, line 111 not), [AfterLastTime]
    (line 116 done, line 117 not), [AfterWaitKey] (line 119 done, the key
    not yet looked at) and [AtBreak] (line 131 done, line 132 not).
    Everywhere else an interrupt between two statements is the failure of
    the next call, of this iteration, of the next one, or after the loop.
    The calls before the [try] are taken to return. *)
Inductive site : Type :=
| AtT0 | AtGrab | AtCvtColor | AtPutText | AtImshow | AtWrite | AfterWrite
| AtNow | AfterLastTime | AtWaitKey | AfterWaitKey | AtPrint | AtImwrite
| AtBreak.

Definition site_eqb (a b : site) : bool :=
  match a, b with
  | AtT0, AtT0 | AtGrab, AtGrab | AtCvtColor, AtCvtColor
  | AtPutText, AtPutText | AtImshow, AtImshow | AtWrite, AtWrite
  | AfterWrite, AfterWrite | AtNow, AtNow | AfterLastTime, AfterLastTime
  | AtWaitKey, AtWaitKey | AfterWaitKey, AfterWaitKey | AtPrint, AtPrint
  | AtImwrite, AtImwrite | AtBreak, AtBreak => true
  | _, _ => false
  end.

(** The calls made once the loop is left: the [print] of the handler (line
    136) and the four calls of [finally] (lines 139-142).  None of them is
    protected: in [finally], one that raises, or is interrupted, ends what
    follows it. *)
Inductive exit_site : Type :=
| AtInterrupted | AtRelease | AtSaved | AtDestroy | AtClose.

(** What the collaborators answer before the loop and after it ... *)
Record Env : Type := {
  monitors : list Rect;       (* sct.monitors *)
  isOpened : bool;            (* writer.isOpened() *)
  time0 : float;              (* time.time() on line 81 *)
  closing : exit_site -> option exn
                              (* the exception a call after the loop raises
                                 in place of its effect, if any *)
}.

(** ... and during one iteration of it.  [fault = Some (s, e)]: [e]
    surfaces at [s], if this iteration reaches it. *)
Record Tick : Type := {
  img : Image;                (* np.array(sct.grab(monitor_rect)) *)
  now : float;                (* time.time() on line 114 *)
  clock : Snapshot.datetime;  (* datetime.now() *)
  key : Z;                    (* what cv2.waitKey returns *)
  fault : option (site * exn)
}.

(** The locals the loop mutates. *)
Record Locals : Type := {
  recording : bool;
  last_time : float;
  frame_count : Z;
  measured_fps : float
}.

Definition set_recording (b : bool) (s : Locals) : Locals :=
  {| recording := b; last_time := last_time s;
     frame_count := frame_count s; measured_fps := measured_fps s |}.
Definition set_last_time (t : float) (s : Locals) : Locals :=
  {| recording := recording s; last_time := t;
     frame_count := frame_count s; measured_fps := measured_fps s |}.
Definition set_frame_count (n : Z) (s : Locals) : Locals :=
  {| recording := recording s; last_time := last_time s;
     frame_count := n; measured_fps := measured_fps s |}.
Definition set_measured_fps (m : float) (s : Locals) : Locals :=
  {| recording := recording s; last_time := last_time s;
     frame_count := frame_count s; measured_fps := m |}.

(** *** The monad of the loop body

    A computation starts from the locals and gives the events it performed,
    each stamped with the locals at the time of the call, the locals it
    ends with, and a value or the exception that stopped it. *)
Definition M (A : Type) : Type :=
  Locals -> list (Locals * event) * Locals * result A.

#[export] Instance M_ret : MRet M := fun A a s => ([], s, Ok a).

#[export] Instance M_bind : MBind M := fun A B k m s =>
  match m s with
  | (evs, s', Ok a) =>
      let '(evs', s'', r) := k a s' in (evs ++ evs', s'', r)
  | (evs, s', Raise e) => (evs, s', Raise e)
  end.

Definition get : M Locals := fun s => ([], s, Ok s).
Definition modify (f : Locals -> Locals) : M unit := fun s => ([], f s, Ok tt).
Definition emit (ev : event) : M unit := fun s => ([(s, ev)], s, Ok tt).
Definition lift {A} (r : result A) : M A := fun s => ([], s, r).

Definition faulty (tk : Tick) (at_ : site) : option exn :=
  match fault tk with
  | Some (s, e) => if site_eqb s at_ then Some e else None
  | None => None
  end.

(** A call with no event of its own (reading a clock, converting,
    drawing) ... *)
Definition guard (tk : Tick) (at_ : site) : M unit :=
  match faulty tk at_ with
  | Some e => lift (Raise e)
  | None => mret tt
  end.

(** ... and a call that is an event. *)
Definition call (tk : Tick) (at_ : site) (ev : event) : M unit :=
  guard tk at_ ;; emit ev.

(** *** Resolving the capture rectangle (lines 55-67)

    [Ok None] is the early [return] after the "Invalid monitor index"
    message; a list index out of range would raise [IndexError]. *)
Definition resolve (args : Args) (monitors : list Rect) : result (option Rect) :=
  match region args with
  | Some (l, t, w, h) =>
      Ok (Some {| left := l; top := t; width := w; height := h |})
  | None =>
      if (monitor args <? 0) || (monitor args >=? Z.of_nat (length monitors))
      then Ok None
      else
        match monitors !! Z.to_nat (monitor args) with
        | Some chosen =>
            Ok (Some {| left := left chosen; top := top chosen;
                        width := width chosen; height := height chosen |})
        | None => Raise IndexError
        end
  end.

(** *** One iteration (lines 92-133) *)

Inductive ctl : Type := Continue | Break.

(** Lines 98-103: the three texts, in the order they are drawn. *)
Definition overlay (st : Locals) (height : Z) (frame : Frame) : Frame :=
  let frame := putText frame (Status (recording st)) (10, 30) in
  let frame := putText frame (Fps (measured_fps st)) (10, 60) in
  putText frame Help (10, height - 10).

(** Lines 120-133: what the key does.  [frame] is the frame of this
    iteration, overlay included. *)
Definition ord (c : ascii) : Z := Z.of_nat (nat_of_ascii c).

Definition dispatch (tk : Tick) (frame : Frame) (key : Z) : M ctl :=
  if key =? ord "r" then
    modify (fun s => set_recording (negb (recording s)) s) ;;
    st ← get ;
    call tk AtPrint
      (Print (if recording st then "Recording started." else "Recording stopped.")) ;;
    mret Continue
  else if key =? ord "s" then
    let name := Snapshot.timestamped_name "screenshot" ".png" (clock tk) in
    call tk AtImwrite (Imwrite name frame) ;;
    call tk AtPrint (Print ("Saved screenshot: " +:+ name)) ;;
    mret Continue
  else if (key =? ord "q") || (key =? 27) then
    call tk AtPrint (Print "Quitting.") ;;
    guard tk AtBreak ;;
    mret Break
  else mret Continue.

Section Body.
Variable args : Args.
Variable monitor_rect : Rect.
(** [writer] is the opened [cv2.VideoWriter] or [None]: all the loop asks
    is whether it is truthy. *)
Variable writer : bool.

Definition body (tk : Tick) : M ctl :=
  guard tk AtT0 ;;
  call tk AtGrab (Grab monitor_rect) ;;
  guard tk AtCvtColor ;;
  let frame := cvtColor (img tk) in
  st ← get ;
  guard tk AtPutText ;;
  let frame := overlay st (height monitor_rect) frame in
  call tk AtImshow (Imshow frame) ;;
  (if recording st && writer then
     call tk AtWrite (WriterWrite frame) ;;
     guard tk AfterWrite ;;
     modify (fun s => set_frame_count (frame_count s + 1) s)
   else mret tt) ;;
  guard tk AtNow ;;
  st ← get ;
  let dt := (now tk - last_time st)%float in
  modify (set_last_time (now tk)) ;;
  guard tk AfterLastTime ;;
  m ← lift (RateEstimator.update (measured_fps st) dt) ;
  modify (set_measured_fps m) ;;
  ms ← lift (Pacing.wait_ms (fps args)) ;
  call tk AtWaitKey (WaitKey ms) ;;
  guard tk AfterWaitKey ;;
  dispatch tk frame (Z.land (key tk) 255).

(** [while True:] over the iterations the environment describes.  [true]:
    the loop was left by [break]; [false]: it is still running when the
    description ends. *)
Fixpoint loop (ticks : list Tick) : M bool :=
  match ticks with
  | [] => mret false
  | tk :: ticks' =>
      c ← body tk ;
      match c with
      | Break => mret true
      | Continue => loop ticks'
      end
  end.
End Body.

(** *** The whole of [main] *)

(** How [main] stopped before the loop, or how the loop was left. *)
Inductive ending : Type :=
| InvalidMonitor            (* the [return] of line 63 *)
| SetupRaised (e : exn)     (* an exception before the [try] *)
| Running                   (* the loop has not ended yet *)
| Quit                      (* [break], then [finally] *)
| Interrupted               (* [except KeyboardInterrupt], then [finally] *)
| Crashed (e : exn).        (* another exception: [finally], with [e] pending *)

Record Run : Type := {
  setup : list event;
  iterations : list (Locals * event);
  teardown : list event;
  locals : option Locals;
  exit : ending
}.

Definition trace (r : Run) : list event :=
  setup r ++ map snd (iterations r) ++ teardown r.

(** Lines 80-83. *)
Definition initial (env : Env) : Locals :=
  {| recording := false; last_time := time0 env;
     frame_count := 0; measured_fps := RateEstimator.initial |}.

(** Lines 137-142: the calls of [finally], in order, each with its site. *)
Definition finally (args : Args) (writer : bool) : list (exit_site * event) :=
  (if writer
   then [(AtRelease, WriterRelease);
         (AtSaved, Print ("Saved video to " +:+ outfile args))]
   else [])
  ++ [(AtDestroy, DestroyAllWindows); (AtClose, SctClose)].

(** Unprotected calls in sequence: the calls made until one raises. *)
Fixpoint until_raise (raises : exit_site -> option exn)
    (calls : list (exit_site * event)) : list event :=
  match calls with
  | [] => []
  | (s, ev) :: calls' =>
      match raises s with
      | Some _ => []
      | None => ev :: until_raise raises calls'
      end
  end.

Definition rect_msg (r : Rect) : string :=
  "Capture rectangle: left=" +:+ pretty (left r) +:+ " top=" +:+ pretty (top r)
  +:+ " w=" +:+ pretty (width r) +:+ " h=" +:+ pretty (height r).

Definition invalid_msg (args : Args) (monitors : list Rect) : string :=
  "Invalid monitor index " +:+ pretty (monitor args) +:+ ". Available: 0.."
  +:+ pretty (Z.of_nat (length monitors) - 1).

Definition warning_msg : string :=
  "Warning: VideoWriter could not be opened. Check codec/filename. Will still show preview and allow screenshots.".

(** Lines 135-142, when the loop was left with [r]: the calls made, and
    how the loop was left.  [finally] runs whether or not the [print] of
    the handler raised. *)
Definition after_loop (args : Args) (env : Env) (writer : bool) (r : result bool)
    : list event * ending :=
  let '(handled, e) :=
    match r with
    | Ok _ => ([], Quit)
    | Raise KeyboardInterrupt =>
        (until_raise (closing env) [(AtInterrupted, Print "Interrupted by user.")],
         Interrupted)
    | Raise e => ([], Crashed e)
    end in
  (handled ++ until_raise (closing env) (finally args writer), e).

(** Lines 74-142, once the rectangle and the codec are known; [pre] is
    what [main] has done so far.  When the iterations the environment
    describes are used up the loop is still running, and nothing follows. *)
Definition session (args : Args) (env : Env) (pre : list event)
    (rect : Rect) (fourcc : Z) (ticks : list Tick) : Run :=
  let writer := isOpened env in
  let evs :=
    pre
    ++ [VideoWriterOpen (outfile args) fourcc (fps args) (width rect, height rect)]
    ++ (if writer then [] else [Print warning_msg])
    ++ [NamedWindow;
        ResizeWindow (Z.min 1280 (width rect)) (Z.min 720 (height rect))] in
  let '(its, st, r) := loop args rect writer ticks (initial env) in
  let after :=
    match r with
    | Ok false => ([], Running)
    | _ => after_loop args env writer r
    end in
  {| setup := evs; iterations := its; teardown := after.1;
     locals := Some st; exit := after.2 |}.

Definition stop (evs : list event) (e : ending) : Run :=
  {| setup := evs; iterations := []; teardown := []; locals := None; exit := e |}.

Definition main (args : Args) (env : Env) (ticks : list Tick) : Run :=
  match resolve args (monitors env) with
  | Raise e => stop [MssOpen] (SetupRaised e)
  | Ok None => stop [MssOpen; Print (invalid_msg args (monitors env))] InvalidMonitor
  | Ok (Some rect) =>
      let pre := [MssOpen; Print (rect_msg rect)] in
      match Codec.select_codec_by_ext (outfile args) (codec args) with
      | Raise e => stop pre (SetupRaised e)
      | Ok fourcc => session args env pre rect fourcc ticks
      end
  end.

(** *** Observations on runs *)

(** What an event of the loop may be, given the locals it is stamped
    with. *)
Definition loop_event_ok (rect : Rect) (writer : bool) (p : Locals * event) : Prop :=
  match p.2 with
  | Grab r => r = rect
  | WriterWrite _ => recording p.1 = true /\ writer = true
  | Imshow _ | WaitKey _ | Print _ | Imwrite _ _ => True
  | _ => False
  end.

Definition is_write (e : event) : bool :=
  match e with WriterWrite _ => true | _ => false end.

Definition is_imshow (e : event) : bool :=
  match e with Imshow _ => true | _ => false end.

Definition is_grab (e : event) : bool :=
  match e with Grab _ => true | _ => false end.

Definition is_release (e : event) : bool :=
  match e with WriterRelease => true | _ => false end.

Definition is_destroy (e : event) : bool :=
  match e with DestroyAllWindows => true | _ => false end.

Definition is_close (e : event) : bool :=
  match e with SctClose => true | _ => false end.

(** The calls that acquire what a later call gives back: the capture
    handle ([sct.close]), the video writer ([release]) and the window
    ([destroyAllWindows]). *)
Definition acquires (e : event) : bool :=
  match e with
  | MssOpen | VideoWriterOpen _ _ _ _ | NamedWindow => true
  | _ => false
  end.

Definition count (p : event -> bool) (evs : list event) : nat :=
  length (List.filter p evs).

(** Every call of [finally] returns. *)
Definition finally_returns (env : Env) : Prop :=
  forall x, x <> AtInterrupted -> closing env x = None.

(** An iteration in which no exception surfaces between a write and its
    increment. *)
Definition write_counted (tk : Tick) : bool :=
  match fault tk with
  | Some (AfterWrite, _) => false
  | _ => true
  end.

(** Every event is stamped with a counter equal to [n] plus the number of
    writes before it. *)
Fixpoint counted_from (n : Z) (evs : list (Locals * event)) : Prop :=
  match evs with
  | [] => True
  | (st, e) :: evs' =>
      frame_count st = n /\ counted_from (if is_write e then n + 1 else n) evs'
  end.

(** The image files on disk: [cv2.imwrite] creates the file or replaces
    its content. *)
Definition store (fs : gmap string Frame) (e : event) : gmap string Frame :=
  match e with
  | Imwrite name f => <[name := f]> fs
  | _ => fs
  end.

Definition terminated (e : ending) : bool :=
  match e with
  | Quit | Interrupted | Crashed _ => true
  | InvalidMonitor | SetupRaised _ | Running => false
  end.

End Main.

(** ** Sample inputs *)
Module Sample.
Import Main.

(** The defaults of [parse_args]. *)
Definition args : Args :=
  {| outfile := "capture.mp4"; fps := 20; monitor := 1;
     region := None; codec := None |}.

Definition displays : list Rect :=
  [ {| left := 0; top := 0; width := 3840; height := 1080 |};
    {| left := 0; top := 0; width := 1920; height := 1080 |};
    {| left := 1920; top := 0; width := 1920; height := 1080 |} ].

Definition env (opened : bool) : Env :=
  {| monitors := displays; isOpened := opened; time0 := 100;
     closing := fun _ => None |}.

(** The same, when the user presses Ctrl-C while the writer is released. *)
Definition env_interrupted_release (opened : bool) : Env :=
  {| monitors := displays; isOpened := opened; time0 := 100;
     closing := fun s =>
       match s with AtRelease => Some Py.KeyboardInterrupt | _ => None end |}.

(** The same, with a standard output that is closed: every [print] after
    the loop raises. *)
Definition env_broken_pipe (opened : bool) : Env :=
  {| monitors := displays; isOpened := opened; time0 := 100;
     closing := fun s =>
       match s with
       | AtInterrupted | AtSaved => Some (Py.OtherException "BrokenPipeError")
       | _ => None
       end |}.

Definition at_ (y mo d h mi s us : nat) : Snapshot.datetime :=
  {| Snapshot.year := y; Snapshot.month := mo; Snapshot.day := d;
     Snapshot.hour := h; Snapshot.minute := mi; Snapshot.second := s;
     Snapshot.microsecond := us |}.

(** One iteration: a one-pixel image, the clock at [t], the key [k]. *)
Definition tick (t : float) (k : Z) (f : option (site * Py.exn)) : Tick :=
  {| img := [[(10, 20, 30, 255)]]; now := t;
     clock := at_ 2024 3 9 7 5 59 123; key := k; fault := f |}.

(** Toggle recording, then four iterations with no key. *)
Definition record5 : list Tick :=
  [ tick 100.05 (ord "r") None; tick 100.1 (-1) None; tick 100.15 (-1) None;
    tick 100.2 (-1) None; tick 100.25 (-1) None ].

(** Record one frame, take a snapshot, then quit / be interrupted / fail
    in the grab. *)
Definition until_quit : list Tick :=
  [ tick 100.05 (ord "r") None; tick 100.1 (ord "s") None;
    tick 100.15 (ord "q") None; tick 100.2 (-1) None ].

Definition until_interrupt : list Tick :=
  [ tick 100.05 (ord "r") None; tick 100.1 (ord "s") None;
    tick 100.15 (-1) (Some (AtWaitKey, Py.KeyboardInterrupt)) ].

(** Recording is toggled on; in the next iteration Ctrl-C surfaces once
    the frame is written. *)
Definition interrupted_after_write : list Tick :=
  [ tick 100.05 (ord "r") None;
    tick 100.1 (-1) (Some (AfterWrite, Py.KeyboardInterrupt)) ].

(** The quit key, with a standard output that has just been closed. *)
Definition broken_pipe_on_quit : list Tick :=
  [ tick 100.05 (ord "q") (Some (AtPrint, Py.OtherException "BrokenPipeError")) ].

Definition until_crash : list Tick :=
  [ tick 100.05 (ord "r") None; tick 100.1 (ord "s") None;
    tick 100.15 (-1) (Some (AtGrab, Py.OtherException "ScreenShotError")) ].

End Sample.

(** ** Further observations on iterations and runs *)
Module Observe.
Import Main.

Definition is_imwrite (e : event) : bool :=
  match e with Imwrite _ _ => true | _ => false end.

Definition is_waitkey (e : event) : bool :=
  match e with WaitKey _ => true | _ => false end.

Definition prints (msg : string) (e : event) : bool :=
  match e with Print m => String.eqb m msg | _ => false end.

(** The key of an iteration as the loop looks at it: [key & 0xFF]. *)
Definition masked (tk : Tick) : Z := Z.land (key tk) 255.

Definition is_toggle (tk : Tick) : bool := masked tk =? ord "r".

Definition is_quit (tk : Tick) : bool :=
  (masked tk =? ord "q") || (masked tk =? 27).

(** An iteration in which nothing raises and the key does not quit. *)
Definition calm (tk : Tick) : bool :=
  match fault tk with
  | None => negb (is_quit tk)
  | Some _ => false
  end.

(** The texts lines 98-103 draw, for given locals and capture height. *)
Definition overlay_texts (st : Locals) (h : Z) : list (text * (Z * Z)) :=
  [(Status (recording st), (10, 30)); (Fps (measured_fps st), (10, 60));
   (Help, (10, h - 10))].

(** A frame handed to the preview or to the writer carries the overlay of
    the locals at that time. *)
Definition shows_state (h : Z) (p : Locals * event) : Prop :=
  match p.2 with
  | Imshow f | WriterWrite f => texts f = overlay_texts p.1 h
  | _ => True
  end.

(** The sites every iteration reaches, whatever the locals and the key. *)
Definition always_reached (s : site) : bool :=
  match s with
  | AtT0 | AtGrab | AtCvtColor | AtPutText | AtImshow | AtNow | AfterLastTime
  | AtWaitKey | AfterWaitKey => true
  | AtWrite | AfterWrite | AtPrint | AtImwrite | AtBreak => false
  end.

Definition is_snapshot (tk : Tick) : bool := masked tk =? ord "s".

(** [main] gets as far as the video writer: the rectangle resolves to
    [rect] and the codec to [fourcc]. *)
Definition enters (args : Args) (env : Env) (rect : Rect) (fourcc : Z) : Prop :=
  resolve args (monitors env) = Py.Ok (Some rect)
  /\ Codec.select_codec_by_ext (outfile args) (codec args) = Py.Ok fourcc.

Definition interrupted_msg : string := "Interrupted by user.".

(** The call at [x], after the loop, returns. *)
Definition returns (env : Env) (x : exit_site) : bool :=
  if closing env x is Some _ then false else true.

Definition saved_msg (args : Args) : string := "Saved video to " +:+ outfile args.

(** How the loop is left on an exception. *)
Definition ending_of (e : Py.exn) : ending :=
  match e with
  | Py.KeyboardInterrupt => Interrupted
  | _ => Crashed e
  end.

Definition interrupts (e : Py.exn) : bool :=
  match e with Py.KeyboardInterrupt => true | _ => false end.

(** What the loop may print. *)
Definition loop_message (m : string) : Prop :=
  m = "Recording started." \/ m = "Recording stopped." \/ m = "Quitting."
  \/ exists name, m = "Saved screenshot: " +:+ name.

Definition loop_prints_ok (p : Locals * event) : Prop :=
  match p.2 with
  | Print m => loop_message m
  | _ => True
  end.

(** A float that is a number and is not below zero: what [0 <= x] says in
    Python. *)
Definition sane (x : float) : bool := (0 <=? x)%float.

Definition SFnonneg (x : spec_float) : bool :=
  match x with
  | S754_zero _ => true
  | S754_infinity s | S754_finite s _ _ => negb s
  | S754_nan => false
  end.

(** The rate an event is stamped with. *)
Definition rate_ok (p : Locals * event) : Prop :=
  sane (measured_fps p.1) = true.


(** The three things [main] acquires and has to give back: the capture
    handle, the video writer and the preview window. *)
Inductive resource : Type := Capture | Writer | Window.

Definition acquire (res : resource) (e : event) : bool :=
  match res, e with
  | Capture, MssOpen | Writer, VideoWriterOpen _ _ _ _ | Window, NamedWindow => true
  | _, _ => false
  end.

Definition use (res : resource) (e : event) : bool :=
  match res, e with
  | Capture, Grab _ | Writer, WriterWrite _
  | Window, ResizeWindow _ _ | Window, Imshow _ => true
  | _, _ => false
  end.

Definition release (res : resource) (e : event) : bool :=
  match res, e with
  | Capture, SctClose | Writer, WriterRelease | Window, DestroyAllWindows => true
  | _, _ => false
  end.

(** Whether [res] is held after [evs], if it was ([held]) before. *)
Fixpoint after (res : resource) (held : bool) (evs : list event) : bool :=
  match evs with
  | [] => held
  | e :: evs' =>
      after res (if acquire res e then true
                 else if release res e then false else held) evs'
  end.

(** [res] is acquired only when it is not held, and used and released only
    when it is. *)
Fixpoint disciplined (res : resource) (held : bool) (evs : list event) : bool :=
  match evs with
  | [] => true
  | e :: evs' =>
      if acquire res e then negb held && disciplined res true evs'
      else if release res e then held && disciplined res false evs'
      else if use res e then held && disciplined res held evs'
      else disciplined res held evs'
  end.

(** The size a video writer was opened with, and the size of a grab. *)
Definition opened_size (e : event) : option (Z * Z) :=
  match e with VideoWriterOpen _ _ _ size => Some size | _ => None end.

Definition grabbed_size (e : event) : option (Z * Z) :=
  match e with Grab r => Some (width r, height r) | _ => None end.

Definition started_msg : string := "Recording started.".
Definition stopped_msg : string := "Recording stopped.".

(** An iteration in which [print] does not raise. *)
Definition print_ok (tk : Tick) : bool :=
  match fault tk with
  | Some (AtPrint, _) => false
  | _ => true
  end.

(** 1 if [b], else 0. *)
Definition bit (b : bool) : nat := if b then 1%nat else 0%nat.

End Observe.

(** ** The shape of a file name *)
Module PathShape.

(** The characters of [s] are all other than [c]. *)
Definition lacks (c : ascii) (s : string) : Prop :=
  ~ In c (list_ascii_of_string s).

(** A string of dots only, the empty one included. *)
Definition only_dots (s : string) : Prop :=
  OsPath.has_non_dot (list_ascii_of_string s) = false.

(** Nothing, or a path up to and including a separator. *)
Definition directory (s : string) : Prop :=
  s = "" \/ exists d, s = d +:+ "/".

End PathShape.

(** ** The ranges of the fields of a Python [datetime] *)
Module Calendar.
Import Snapshot.

Definition wellformed (d : datetime) : Prop :=
  1 <= Z.of_nat (year d) <= 9999
  /\ (1 <= month d <= 12 /\ 1 <= day d <= 31
      /\ hour d <= 23 /\ minute d <= 59 /\ second d <= 59)%nat.

End Calendar.

(** * Properties *)

(** ** Binary64 facts the arithmetic of the loop relies on *)
Section FloatFacts.

Lemma digits2_pos_size (p : positive) : digits2_pos p = Pos.size p.
Proof. induction p; simpl; congruence. Qed.

Lemma Zdigits2_gt (m : Z) : 0 <= m -> m < 2 ^ Zdigits2 m /\ 0 <= Zdigits2 m.
Proof.
  destruct m as [|p|p]; simpl; intros H; try lia.
  rewrite digits2_pos_size. split; [|lia].
  pose proof (Pos.size_gt p) as G.
  assert (Z.pos (2 ^ Pos.size p) = 2 ^ Z.pos (Pos.size p))
    by (rewrite Pos2Z.inj_pow; reflexivity).
  lia.
Qed.

Lemma Zdigits2_le (m k : Z) : 0 <= k -> 0 <= m < 2 ^ k -> Zdigits2 m <= k.
Proof.
  destruct m as [|p|p]; simpl; intros Hk [H0 H]; try lia.
  rewrite digits2_pos_size.
  pose proof (Pos.size_le p) as G.
  destruct (Z_le_gt_dec (Z.pos (Pos.size p)) k) as [|Hgt]; [assumption|exfalso].
  assert (2 ^ k <= 2 ^ (Z.pos (Pos.size p) - 1)) by (apply Z.pow_le_mono_r; lia).
  assert (2 * 2 ^ (Z.pos (Pos.size p) - 1) = 2 ^ Z.pos (Pos.size p)).
  { rewrite <- Z.pow_succ_r by lia. f_equal. lia. }
  assert (Z.pos (2 ^ Pos.size p) = 2 ^ Z.pos (Pos.size p))
    by (rewrite Pos2Z.inj_pow; reflexivity).
  lia.
Qed.

Lemma shr_1_m (mrs : shr_record) :
  0 <= shr_m mrs -> shr_m (shr_1 mrs) = Z.div2 (shr_m mrs).
Proof.
  destruct mrs as [m r s]. simpl.
  destruct m as [|[p|p|]|p]; simpl; intros; try reflexivity; lia.
Qed.

Lemma iter_shr_1_m (n : positive) : forall mrs, 0 <= shr_m mrs ->
  shr_m (SpecFloat.iter_pos shr_1 n mrs) = Z.shiftr (shr_m mrs) (Z.pos n).
Proof.
  induction n as [n IH|n IH|]; intros mrs H; simpl SpecFloat.iter_pos.
  - assert (H1 : 0 <= shr_m (shr_1 mrs))
      by (rewrite shr_1_m by assumption; rewrite Z.div2_nonneg; assumption).
    rewrite IH.
    2:{ rewrite IH by assumption. apply Z.shiftr_nonneg. assumption. }
    rewrite IH by assumption. rewrite shr_1_m by assumption.
    rewrite Z.div2_spec, !Z.shiftr_shiftr by lia. f_equal. lia.
  - rewrite IH.
    2:{ rewrite IH by assumption. apply Z.shiftr_nonneg. assumption. }
    rewrite IH by assumption. rewrite Z.shiftr_shiftr by lia. f_equal. lia.
  - rewrite shr_1_m by assumption. apply Z.div2_spec.
Qed.

(** Shifting to the format's exponent leaves at most 53 bits. *)
Lemma shr_fexp_bound (m e : Z) (l : location) : 0 <= m ->
  let '(mrs, e') := shr_fexp 53 1024 m e l in
  0 <= shr_m mrs < 2 ^ 53 /\ e' = Z.max e (fexp 53 1024 (Zdigits2 m + e)).
Proof.
  intros Hm. unfold shr_fexp, shr.
  pose proof (Zdigits2_gt m Hm) as [Hd Hd0].
  assert (Hrec : shr_m (shr_record_of_loc m l) = m) by (destruct l as [|[]]; reflexivity).
  destruct (fexp 53 1024 (Zdigits2 m + e) - e) as [|n|n] eqn:En.
  - rewrite Hrec. unfold fexp, SpecFloat.emin in *. split; [|lia]. split; [lia|].
    eapply Z.lt_le_trans; [exact Hd|]. apply Z.pow_le_mono_r; lia.
  - rewrite iter_shr_1_m by (rewrite Hrec; assumption). rewrite Hrec.
    split; [|lia]. split; [apply Z.shiftr_nonneg; assumption|].
    rewrite Z.shiftr_div_pow2 by lia.
    apply Z.div_lt_upper_bound; [apply Z.pow_pos_nonneg; lia|].
    rewrite <- Z.pow_add_r by lia.
    eapply Z.lt_le_trans; [exact Hd|]. apply Z.pow_le_mono_r; [lia|].
    unfold fexp, SpecFloat.emin in En. lia.
  - rewrite Hrec. unfold fexp, SpecFloat.emin in *. split; [|lia]. split; [lia|].
    eapply Z.lt_le_trans; [exact Hd|]. apply Z.pow_le_mono_r; lia.
Qed.

Lemma round_nearest_even_bound (m : Z) (l : location) :
  0 <= m -> m <= round_nearest_even m l <= m + 1.
Proof.
  intros. unfold round_nearest_even.
  destruct l as [|[]]; try lia. destruct (Z.even m); lia.
Qed.

(** Rounding a non-negative mantissa whose exponent is far from the top of
    the range gives a zero or a finite number, never an infinity. *)
Lemma binary_round_aux_finite (sx : bool) (mx ex : Z) (lx : location) :
  0 <= mx -> ex <= 969 -> Zdigits2 mx + ex <= 1022 ->
  Py.finite (binary_round_aux 53 1024 sx mx ex lx) = true.
Proof.
  intros Hm He Hd. unfold binary_round_aux.
  pose proof (shr_fexp_bound mx ex lx Hm) as B1.
  destruct (shr_fexp 53 1024 mx ex lx) as [mrs' e'].
  destruct B1 as [Hm' He'].
  pose proof (round_nearest_even_bound (shr_m mrs') (loc_of_shr_record mrs') (proj1 Hm'))
    as Hr.
  set (m2 := round_nearest_even (shr_m mrs') (loc_of_shr_record mrs')) in *.
  assert (Hm2 : 0 <= m2) by lia.
  pose proof (shr_fexp_bound m2 e' loc_Exact Hm2) as B2.
  destruct (shr_fexp 53 1024 m2 e' loc_Exact) as [mrs'' e''].
  destruct B2 as [Hm'' He''].
  assert (Hd2 : Zdigits2 m2 <= 54)
    by (apply Zdigits2_le; [lia|]; change (2 ^ 54) with (2 * 2 ^ 53); lia).
  destruct (shr_m mrs'') as [|p|p]; [reflexivity| |lia].
  assert (e'' <= 1024 - 53) by (unfold fexp, SpecFloat.emin in *; lia).
  destruct (Z.leb_spec e'' (1024 - 53)); [reflexivity|lia].
Qed.

(** 1000.0 divided by a finite float of exponent at least -52, which every
    float above 1.0 has. *)
Lemma SFdiv_1000_finite (s2 : bool) (m2 : positive) (e2 : Z) :
  -52 <= e2 ->
  Py.finite (SFdiv 53 1024 (S754_finite false 8796093022208000 (-43))
               (S754_finite s2 m2 e2)) = true.
Proof.
  intros He. unfold SFdiv, SFdiv_core_binary.
  change (Zdigits2 (Z.pos 8796093022208000)) with 53.
  set (e' := Z.min _ _).
  set (m' := match -43 - e2 - e' with 0 => _ | Z.pos _ => _ | Z.neg _ => _ end).
  assert (Hs : 0 <= -43 - e2 - e') by (subst e'; lia).
  assert (Hm' : 0 <= m' < 2 ^ (53 + (-43 - e2 - e'))).
  { subst m'. destruct (-43 - e2 - e') as [|p|p] eqn:Es;
      [split; [lia|reflexivity] | | lia].
    rewrite Z.shiftl_mul_pow2 by lia. rewrite Z.pow_add_r by lia.
    assert (0 < 2 ^ Z.pos p) by (apply Z.pow_pos_nonneg; lia).
    split; [lia|]. apply Z.mul_lt_mono_pos_r; [assumption|reflexivity]. }
  pose proof (Z.div_eucl_eq m' (Z.pos m2) ltac:(lia)) as Hq.
  pose proof (Z.mod_pos_bound m' (Z.pos m2) ltac:(lia)) as Hr.
  unfold Z.modulo in Hr.
  change IntDef.Z.div_eucl with Z.div_eucl.
  destruct (Z.div_eucl m' (Z.pos m2)) as [q r].
  assert (Hq0 : 0 <= q <= m') by nia.
  apply binary_round_aux_finite; [lia | subst e'; lia |].
  assert (Zdigits2 q <= 53 + (-43 - e2 - e')) by (apply Zdigits2_le; lia).
  lia.
Qed.

(** Shifting to the format's exponent, exactly. *)
Lemma shr_fexp_shift (m e : Z) (l : location) : 0 <= m ->
  let '(mrs, e') := shr_fexp 53 1024 m e l in
  e' = Z.max e (fexp 53 1024 (Zdigits2 m + e))
  /\ shr_m mrs = Z.shiftr m (e' - e).
Proof.
  intros Hm. unfold shr_fexp, shr.
  assert (Hrec : shr_m (shr_record_of_loc m l) = m) by (destruct l as [|[]]; reflexivity).
  destruct (fexp 53 1024 (Zdigits2 m + e) - e) as [|n|n] eqn:En.
  - rewrite Hrec. split; [lia|]. replace (e - e)%Z with 0%Z by lia. reflexivity.
  - rewrite iter_shr_1_m by (rewrite Hrec; assumption). rewrite Hrec.
    split; [lia|]. f_equal. lia.
  - rewrite Hrec. split; [lia|]. replace (e - e)%Z with 0%Z by lia. reflexivity.
Qed.

Lemma shiftr_ge_pow2 (m a n : Z) :
  0 <= n <= a -> 2 ^ a <= m -> 2 ^ (a - n) <= Z.shiftr m n.
Proof.
  intros Hn Hm. rewrite Z.shiftr_div_pow2 by lia.
  apply Z.div_le_lower_bound; [apply Z.pow_pos_nonneg; lia|].
  rewrite <- Z.pow_add_r by lia. replace (n + (a - n)) with a by lia. exact Hm.
Qed.

(** Rounding a mantissa of at most 54 bits whose value is at least [2 ^ J]
    gives a finite float whose value is at least [2 ^ J]. *)
Lemma binary_round_aux_ge (J : Z) (sx : bool) (mx ex : Z) (lx : location) :
  0 <= J <= 900 -> ex + 2 <= J ->
  2 ^ (J - ex) <= mx < 2 ^ 54 ->
  exists m e, binary_round_aux 53 1024 sx mx ex lx = S754_finite sx m e
    /\ e <= J /\ 2 ^ (J - e) <= Z.pos m.
Proof.
  intros HJ Hex [Hlo Hhi]. unfold binary_round_aux.
  assert (Hm : 0 <= mx) by (pose proof (Z.pow_nonneg 2 (J - ex)); lia).
  pose proof (shr_fexp_shift mx ex lx Hm) as B1.
  pose proof (shr_fexp_bound mx ex lx Hm) as B1'.
  destruct (shr_fexp 53 1024 mx ex lx) as [mrs' e'].
  destruct B1 as [He' Hm'], B1' as [Hm'b _].
  assert (Hd : Zdigits2 mx <= 54) by (apply Zdigits2_le; lia).
  assert (He'J : ex <= e' <= J - 1) by (unfold fexp, SpecFloat.emin in *; lia).
  assert (Hlo' : 2 ^ (J - e') <= shr_m mrs').
  { rewrite Hm'. replace (J - e') with ((J - ex) - (e' - ex)) by lia.
    apply shiftr_ge_pow2; [lia|exact Hlo]. }
  pose proof (round_nearest_even_bound (shr_m mrs') (loc_of_shr_record mrs') (proj1 Hm'b))
    as Hr.
  set (m2 := round_nearest_even (shr_m mrs') (loc_of_shr_record mrs')) in *.
  assert (Hm2 : 0 <= m2) by lia.
  pose proof (shr_fexp_shift m2 e' loc_Exact Hm2) as B2.
  destruct (shr_fexp 53 1024 m2 e' loc_Exact) as [mrs'' e''].
  destruct B2 as [He'' Hm''].
  assert (Hd2 : Zdigits2 m2 <= 54)
    by (apply Zdigits2_le; [lia|]; change (2 ^ 54) with (2 * 2 ^ 53); lia).
  assert (He''J : e' <= e'' <= J) by (unfold fexp, SpecFloat.emin in *; lia).
  assert (Hlo'' : 2 ^ (J - e'') <= shr_m mrs'').
  { rewrite Hm''. replace (J - e'') with ((J - e') - (e'' - e')) by lia.
    apply shiftr_ge_pow2; [lia|lia]. }
  assert (0 < 2 ^ (J - e'')) by (apply Z.pow_pos_nonneg; lia).
  destruct (shr_m mrs'') as [|p|p]; [lia| |lia].
  destruct (Z.leb_spec e'' (1024 - 53)); [|lia].
  exists p, e''. split; [reflexivity|]. split; [lia|exact Hlo''].
Qed.

(** 1000.0 divided by a float in (1, 1000] is at least 1.0. *)
Lemma SFdiv_1000_ge_1 (m2 : positive) (e2 : Z) :
  -52 <= e2 <= -43 ->
  2 ^ 52 <= Z.pos m2 < 2 ^ 53 ->
  Z.pos m2 <= 8796093022208000 * 2 ^ (-43 - e2) ->
  exists m e,
    SFdiv 53 1024 (S754_finite false 8796093022208000 (-43)) (S754_finite false m2 e2)
    = S754_finite false m e
    /\ e <= 0 /\ 2 ^ (- e) <= Z.pos m.
Proof.
  intros He Hm2 Hle. unfold SFdiv, SFdiv_core_binary.
  change (Zdigits2 (Z.pos 8796093022208000)) with 53.
  assert (Hd2 : Zdigits2 (Z.pos m2) = 53).
  { apply Z.le_antisymm; [apply Zdigits2_le; lia|].
    destruct (Zdigits2_gt (Z.pos m2) ltac:(lia)) as [Hgt H0].
    destruct (Z_le_gt_dec 53 (Zdigits2 (Z.pos m2))) as [|Hlt]; [assumption|exfalso].
    assert (2 ^ Zdigits2 (Z.pos m2) <= 2 ^ 52) by (apply Z.pow_le_mono_r; lia).
    lia. }
  rewrite Hd2.
  replace (Z.min (fexp 53 1024 (53 + -43 - (53 + e2))) (-43 - e2)) with (-96 - e2)
    by (unfold fexp, SpecFloat.emin; lia).
  replace (-43 - e2 - (-96 - e2)) with 53 by lia.
  pose proof (Z.div_eucl_eq (Z.shiftl 8796093022208000 53) (Z.pos m2) ltac:(lia)) as Hq.
  pose proof (Z.mod_pos_bound (Z.shiftl 8796093022208000 53) (Z.pos m2) ltac:(lia)) as Hr.
  unfold Z.modulo in Hr.
  change IntDef.Z.div_eucl with Z.div_eucl.
  destruct (Z.div_eucl (Z.shiftl 8796093022208000 53) (Z.pos m2)) as [q r].
  change (Z.shiftl 8796093022208000 53) with (8796093022208000 * 2 ^ 53) in Hq.
  set (k := -43 - e2) in *.
  assert (Hk : 0 <= k <= 9) by (subst k; lia).
  assert (Hpk : 0 < 2 ^ k) by (apply Z.pow_pos_nonneg; lia).
  assert (Hsplit : 2 ^ 53 = 2 ^ k * 2 ^ (53 - k))
    by (rewrite <- Z.pow_add_r by lia; f_equal; lia).
  assert (Hp : 0 < 2 ^ (53 - k)) by (apply Z.pow_pos_nonneg; lia).
  (* q is at least 2^(53-k): otherwise m2 * q + r < m2 * 2^(53-k) <= m1 * 2^53 *)
  assert (Hqlo : 2 ^ (53 - k) <= q).
  { destruct (Z_le_gt_dec (2 ^ (53 - k)) q) as [|Hlt]; [assumption|exfalso].
    assert (Z.pos m2 * (q + 1) <= Z.pos m2 * 2 ^ (53 - k)) by (apply Z.mul_le_mono_nonneg_l; lia).
    assert (Z.pos m2 * 2 ^ (53 - k) <= 8796093022208000 * 2 ^ k * 2 ^ (53 - k))
      by (apply Z.mul_le_mono_nonneg_r; lia).
    nia. }
  assert (Hqhi : q < 2 ^ 54).
  { destruct (Z_lt_ge_dec q (2 ^ 54)) as [|Hge]; [assumption|exfalso].
    assert (2 ^ 52 * 2 ^ 54 <= Z.pos m2 * q) by (apply Z.mul_le_mono_nonneg; lia).
    change (2 ^ 52 * 2 ^ 54) with 81129638414606681695789005144064 in *.
    change (2 ^ 53) with 9007199254740992 in *. lia. }
  destruct (binary_round_aux_ge 0 (xorb false false) q (-96 - e2) (new_location (Z.pos m2) r))
    as (m & e & Hres & He0 & Hm0); [lia|lia| |].
  - split; [|exact Hqhi]. replace (0 - (-96 - e2)) with (53 - k) by (subst k; lia). exact Hqlo.
  - exists m, e. rewrite Hres. split; [reflexivity|]. split; [exact He0|exact Hm0].
Qed.

Lemma canonical_53_bits (m : positive) (e : Z) :
  -1074 < e -> canonical_mantissa 53 1024 m e = true ->
  2 ^ 52 <= Z.pos m < 2 ^ 53.
Proof.
  unfold canonical_mantissa, fexp, SpecFloat.emin. intros He Hc.
  apply Z.eqb_eq in Hc.
  assert (Hd : Z.pos (digits2_pos m) = 53) by lia.
  destruct (Zdigits2_gt (Z.pos m) ltac:(lia)) as [Hgt _].
  cbn [Zdigits2] in Hgt. rewrite Hd in Hgt.
  split; [|exact Hgt].
  rewrite digits2_pos_size in Hd.
  pose proof (Pos.size_le m) as Hle.
  assert (Hp : Z.pos (2 ^ Pos.size m) = 2 ^ Z.pos (Pos.size m))
    by (rewrite Pos2Z.inj_pow; reflexivity).
  rewrite Hd in Hp.
  assert (H2 : 2 ^ 53 = 2 * 2 ^ 52) by reflexivity.
  assert (Hle' : Z.pos (2 ^ Pos.size m) <= Z.pos m~0) by exact Hle.
  rewrite Hp, H2 in Hle'. change (Z.pos m~0) with (2 * Z.pos m) in Hle'. clear - Hle'.
  generalize dependent (2 ^ 52). intros P HP. lia.
Qed.

Lemma compare_1_1000 (m : positive) (e : Z) :
  match
    match (-52 ?= e) with
    | Eq => (4503599627370496 ?= m)%positive
    | Lt => Lt
    | Gt => Gt
    end
  with Lt => true | _ => false end = true ->
  match
    match (e ?= -43) with
    | Eq => (m ?= 8796093022208000)%positive
    | Lt => Lt
    | Gt => Gt
    end
  with Gt => false | _ => true end = true ->
  -52 <= e /\ (e < -43 \/ e = -43 /\ Z.pos m <= 8796093022208000).
Proof.
  intros H1 H2.
  destruct (Z.compare_spec (-52) e) as [He|He|He]; try discriminate H1;
    destruct (Z.compare_spec e (-43)) as [Heq|Heq|Heq]; try discriminate H2;
    clear H1; (split; [lia|]); try (left; lia).
  all: right; split; [exact Heq|].
  all: destruct (Pos.compare_spec m 8796093022208000) as [Hm|Hm|Hm];
    try discriminate H2;
    [rewrite Hm; apply Z.le_refl | apply Z.lt_le_incl, Pos2Z.pos_lt_pos, Hm].
Qed.

Lemma below_1000 (m : positive) (e : Z) :
  Z.pos m < 2 ^ 53 ->
  e < -43 \/ e = -43 /\ Z.pos m <= 8796093022208000 ->
  Z.pos m <= 8796093022208000 * 2 ^ (-43 - e).
Proof.
  intros Hm [Hlt|[-> Hlm]].
  - assert (2 ^ 1 <= 2 ^ (-43 - e)) by (apply Z.pow_le_mono_r; lia).
    change (2 ^ 53) with 9007199254740992 in Hm. change (2 ^ 1) with 2 in *. lia.
  - change (2 ^ (-43 - -43)) with 1. lia.
Qed.

#[local] Open Scope float_scope.

Lemma div_1000_finite (x : float) :
  (1 <? x) = true -> Py.finite (Prim2SF (1000 / x)) = true.
Proof.
  rewrite FloatAxioms.ltb_spec, FloatAxioms.div_spec.
  change (Prim2SF 1) with (S754_finite false 4503599627370496 (-52)).
  change (Prim2SF 1000) with (S754_finite false 8796093022208000 (-43)).
  destruct (Prim2SF x) as [s|s| |s m e]; try discriminate.
  - intros _. reflexivity.
  - unfold SFltb, SFcompare. intros H. apply SFdiv_1000_finite.
    destruct s; [discriminate|].
    destruct (Z.compare_spec (-52) e); try lia; discriminate.
Qed.

Lemma int_finite (x : float) :
  Py.finite (Prim2SF x) = true -> exists n, Py.int x = Py.Ok n.
Proof. unfold Py.int. destruct (Prim2SF x); try discriminate; eauto. Qed.

(** [dt > 0] excludes both zeros, so [1.0 / dt] never raises. *)
Lemma pos_not_zero (x : float) : (0 <? x) = true -> (x =? 0) = false.
Proof.
  rewrite FloatAxioms.ltb_spec, FloatAxioms.eqb_spec.
  change (Prim2SF 0) with (S754_zero false).
  destruct (Prim2SF x) as [s|s| |s m e]; cbn; try discriminate;
    destruct s; try discriminate; reflexivity.
Qed.

Lemma le_zero_not_pos (x : float) : (x <=? 0) = true -> (0 <? x) = false.
Proof.
  rewrite FloatAxioms.ltb_spec, FloatAxioms.leb_spec.
  change (Prim2SF 0) with (S754_zero false).
  destruct (Prim2SF x) as [s|s| |s m e]; cbn; try discriminate;
    destruct s; try discriminate; reflexivity.
Qed.

Lemma gt_one_not_zero (x : float) : (1 <? x) = true -> (x =? 0) = false.
Proof.
  rewrite FloatAxioms.ltb_spec, FloatAxioms.eqb_spec.
  change (Prim2SF 1) with (S754_finite false 4503599627370496 (-52)).
  change (Prim2SF 0) with (S754_zero false).
  destruct (Prim2SF x) as [s|s| |s m e]; cbn; try discriminate;
    destruct s; try discriminate; reflexivity.
Qed.



(** A float in (1, 1000]: exponent, mantissa and sign. *)
Lemma between_1_and_1000 (x : float) :
  (1 <? x) = true -> (x <=? 1000) = true ->
  exists m e, Prim2SF x = S754_finite false m e
    /\ (-52 <= e <= -43)%Z
    /\ (2 ^ 52 <= Z.pos m < 2 ^ 53)%Z
    /\ (Z.pos m <= 8796093022208000 * 2 ^ (-43 - e))%Z.
Proof.
  rewrite FloatAxioms.ltb_spec, FloatAxioms.leb_spec.
  pose proof (Prim2SF_valid x) as Hv.
  change (Prim2SF 1) with (S754_finite false 4503599627370496 (-52)).
  change (Prim2SF 1000) with (S754_finite false 8796093022208000 (-43)).
  destruct (Prim2SF x) as [s|s| |s m e]; try discriminate.
  - destruct s; discriminate.
  - unfold SFltb, SFleb, SFcompare. destruct s; [discriminate|].
    assert (Hcc : forall a b, PosDef.Pos.compare_cont Eq a b = Pos.compare a b)
      by reflexivity.
    rewrite !Hcc. clear Hcc.
    intros H1 H2. exists m, e. split; [reflexivity|].
    unfold SpecFloat.valid_binary, bounded in Hv. apply andb_true_iff in Hv as [Hc _].
    destruct (compare_1_1000 m e H1 H2) as [Hlo Hhi]. clear H1 H2.
    assert (He : (-52 <= e <= -43)%Z) by lia.
    pose proof (canonical_53_bits m e ltac:(lia) Hc) as Hm.
    split; [exact He|]. split; [exact Hm|].
    apply below_1000; [apply Hm|exact Hhi].
Qed.

(** For a frame rate in (1, 1000] the truncated quotient is at least 1. *)
Lemma int_div_1000_ge_1 (x : float) :
  (1 <? x) = true -> (x <=? 1000) = true ->
  exists t, Py.int (1000 / x) = Py.Ok t /\ (1 <= t)%Z.
Proof.
  intros H1 H2.
  destruct (between_1_and_1000 x H1 H2) as (m & e & Hx & He & Hm & Hle).
  unfold Py.int. rewrite FloatAxioms.div_spec, Hx.
  change (Prim2SF 1000) with (S754_finite false 8796093022208000 (-43)).
  unfold SF64div, prec, emax.
  destruct (SFdiv_1000_ge_1 m e He Hm Hle) as (m' & e' & -> & He' & Hm').
  eexists. split; [reflexivity|].
  replace e' with (- - e')%Z by lia.
  rewrite Z.shiftl_opp_r, Z.shiftr_div_pow2 by lia.
  apply Z.div_le_lower_bound; [apply Z.pow_pos_nonneg; lia|lia].
Qed.

End FloatFacts.

(** ** RateEstimator *)
Section RateEstimatorFacts.
Import Py.
#[local] Open Scope float_scope.

(** The update is total: no [ZeroDivisionError] for any estimate and any
    elapsed time, NaN included. *)
Lemma update_total (estimate dt : float) :
  exists r, RateEstimator.update estimate dt = Ok r.
Proof.
  unfold RateEstimator.update, RateEstimator.update_with, truediv.
  destruct (0 <? dt) eqn:Hdt; [|eauto].
  rewrite (pos_not_zero dt Hdt). simpl. eauto.
Qed.

(** A NaN elapsed time is neither positive nor non-positive; the code
    treats it as the latter. *)
Lemma update_not_pos (estimate dt : float) :
  (0 <? dt) = false -> RateEstimator.update estimate dt = Ok estimate.
Proof. unfold RateEstimator.update, RateEstimator.update_with. intros ->. reflexivity. Qed.

(** C3: the estimate is 0.0 before the first update; for every estimate and
    every elapsed time [dt], if [dt <= 0] the update gives the estimate
    back whatever the division operator would do (no division is
    performed), if [dt > 0] it gives [estimate * 0.9 + (1 / dt) * 0.1], and
    in both cases it raises nothing. *)
Theorem rate_update_law (estimate dt : float) :
  RateEstimator.initial = 0
  /\ ((dt <=? 0) = true ->
      forall div, RateEstimator.update_with div estimate dt = Ok estimate)
  /\ ((0 <? dt) = true ->
      RateEstimator.update estimate dt = Ok (estimate * 0.9 + (1 / dt) * 0.1))
  /\ (exists r, RateEstimator.update estimate dt = Ok r).
Proof.
  split; [reflexivity|]. split; [|split].
  - intros Hle div0. unfold RateEstimator.update_with.
    rewrite (le_zero_not_pos dt Hle). reflexivity.
  - intros Hpos. unfold RateEstimator.update, RateEstimator.update_with, truediv.
    rewrite Hpos, (pos_not_zero dt Hpos). reflexivity.
  - apply update_total.
Qed.

Lemma rate_update_law_witness :
  ((0 <=? 0) = true
   /\ RateEstimator.update_with (fun _ _ => Raise ZeroDivisionError) 7 0 = Ok 7)
  /\ ((0 <? 0.5) = true /\ RateEstimator.update 10 0.5 = Ok (10 * 0.9 + (1 / 0.5) * 0.1)).
Proof.
  split.
  - split; [reflexivity|].
    exact (proj1 (proj2 (rate_update_law 7 0)) eq_refl (fun _ _ => Raise ZeroDivisionError)).
  - split; [reflexivity|].
    exact (proj1 (proj2 (proj2 (rate_update_law 10 0.5))) eq_refl).
Defined.

(** The positive branch divides whatever the size of [dt]: with the
    smallest positive float the quotient, and so the estimate, is infinite. *)
Example update_smallest_dt :
  (0 <? 0x1p-1074) = true /\ RateEstimator.update 7 0x1p-1074 = Ok infinity.
Proof. split; reflexivity. Qed.

Example update_first_frame : RateEstimator.update RateEstimator.initial 0.05 = Ok 2.
Proof. reflexivity. Qed.

End RateEstimatorFacts.

(** ** Pacing *)
Section PacingFacts.
Import Py.
#[local] Open Scope float_scope.

Lemma max1_not_zero (fps : float) : (max1 fps =? 0) = false.
Proof.
  unfold max1. destruct (1 <? fps) eqn:H; [|reflexivity].
  apply gt_one_not_zero, H.
Qed.

Lemma quotient_finite (fps : float) : finite (Prim2SF (1000 / max1 fps)) = true.
Proof.
  unfold max1. destruct (1 <? fps) eqn:H; [|reflexivity].
  apply div_1000_finite, H.
Qed.

(** The wait is computed without error, whatever the frame rate. *)
Lemma wait_ms_total (fps : float) :
  exists t : Z,
    int (1000 / max1 fps) = Ok t /\ Pacing.wait_ms fps = Ok (Z.max 1 t).
Proof.
  destruct (int_finite _ (quotient_finite fps)) as [t Ht].
  exists t. split; [exact Ht|].
  unfold Pacing.wait_ms, truediv. rewrite max1_not_zero. simpl. rewrite Ht. reflexivity.
Qed.

(** C4, as the code has it: for every [target_fps] the wait handed to the
    key poll is the integer [max(1, int(1000 / max(1, target_fps)))], with
    [int] truncating the float quotient toward zero.  It is computed
    without error and is at least 1 ms for every input, NaN and the
    infinities included.  It is [int(1000 / target_fps)] when
    [1 < target_fps <= 1000], [max(1, int(1000 / target_fps))] for a larger
    [target_fps], and 1000 when [target_fps] is not above 1. *)
Theorem wait_ms_law (target_fps : float) :
  exists t : Z,
    int (1000 / max1 target_fps) = Ok t
    /\ Pacing.wait_ms target_fps = Ok (Z.max 1 t)
    /\ (1 <= Z.max 1 t)%Z
    /\ ((1 <? target_fps) = true -> int (1000 / target_fps) = Ok t)
    /\ ((1 <? target_fps) = true -> (target_fps <=? 1000) = true ->
        Pacing.wait_ms target_fps = Ok t)
    /\ ((1 <? target_fps) = false -> t = 1000%Z).
Proof.
  destruct (wait_ms_total target_fps) as (t & Ht & Hw).
  exists t. split; [exact Ht|]. split; [exact Hw|]. split; [lia|]. split; [|split].
  - intros H. unfold max1 in Ht. rewrite H in Ht. exact Ht.
  - intros H1 H2. destruct (int_div_1000_ge_1 target_fps H1 H2) as (t' & Ht' & Hge).
    unfold max1 in Ht. rewrite H1 in Ht. rewrite Ht in Ht'. injection Ht' as <-.
    rewrite Hw. f_equal. lia.
  - intros H. unfold max1 in Ht. rewrite H in Ht.
    vm_compute in Ht. congruence.
Qed.

Lemma wait_ms_law_witness :
  (1 <? 30) = true /\ (30 <=? 1000) = true
  /\ exists t : Z, int (1000 / 30) = Ok t /\ Pacing.wait_ms 30 = Ok t.
Proof.
  split; [reflexivity|]. split; [reflexivity|].
  destruct (wait_ms_law 30) as (t & _ & _ & _ & Hgt & Hin & _).
  exists t. split; [exact (Hgt eq_refl) | exact (Hin eq_refl eq_refl)].
Defined.

(** C4 as the specification words it fails at 30 frames per second: the
    code waits 33 ms, the formula [max(1, 1000 / max(1, 30))] is 100/3. *)
Lemma wait_ms_truncates_at_30 :
  exists q : Q,
    to_Q 30 = Some q /\ (q == 30)%Q
    /\ Pacing.wait_ms 30 = Ok 33%Z
    /\ ~ (inject_Z 33 == Pacing.spec_wait_ms q)%Q.
Proof.
  eexists. split; [vm_compute; reflexivity|].
  split; [reflexivity|]. split; [vm_compute; reflexivity|].
  vm_compute. discriminate.
Qed.

(** [int] truncates toward zero, on either side of it. *)
Example int_truncates :
  int 2.7 = Ok 2%Z /\ int (-2.7) = Ok (-2)%Z /\ int 0.99 = Ok 0%Z
  /\ int (-0) = Ok 0%Z /\ int 1e20 = Ok 100000000000000000000%Z
  /\ int infinity = Raise OverflowError /\ int nan = Raise ValueError.
Proof. vm_compute. repeat split; reflexivity. Qed.

Example wait_ms_20 : Pacing.wait_ms 20 = Ok 50%Z.
Proof. vm_compute. reflexivity. Qed.

(** Above 1000 frames per second the quotient truncates to 0 and the outer
    [max] decides. *)
Example wait_ms_2000 : Pacing.wait_ms 2000 = Ok 1%Z.
Proof. vm_compute. reflexivity. Qed.

Example wait_ms_nan : Pacing.wait_ms nan = Ok 1000%Z.
Proof. vm_compute. reflexivity. Qed.

Example wait_ms_infinity : Pacing.wait_ms infinity = Ok 1%Z.
Proof. vm_compute. reflexivity. Qed.

End PacingFacts.

(** ** Symbolic execution of the loop body *)

Ltac exec :=
  unfold Main.body, Main.dispatch, Main.call, Main.guard, Main.faulty,
    Main.emit, Main.modify, Main.get, Main.lift,
    mbind, Main.M_bind, mret, Main.M_ret;
  change (Main.ord "r") with 114; change (Main.ord "s") with 115;
  change (Main.ord "q") with 113; cbn.

(** One iteration: every fault site, both values of [recording] and of
    [writer], every branch on the key. *)
Ltac exec_body tk st Hm Hw :=
  destruct tk as [img0 now0 clock0 key0 [[[] exn0]|]];
  destruct st as [[] lt0 fc0 mf0];
  match goal with writer : bool |- _ => destruct writer end;
  cbn in Hm; exec; rewrite ?Hm; cbn; rewrite ?Hw; cbn;
  try (destruct (Z.land key0 255 =? 114) eqn:Hr;
       [|destruct (Z.land key0 255 =? 115) eqn:Hs;
         [|destruct ((Z.land key0 255 =? 113) || (Z.land key0 255 =? 27)) eqn:Hq]]);
  cbn.

(** ** The loop body and the loop *)
Section LoopFacts.
Import Py Main.

Lemma count_app (p : event -> bool) (l1 l2 : list event) :
  count p (l1 ++ l2) = (count p l1 + count p l2)%nat.
Proof. unfold count. rewrite List.filter_app, length_app. reflexivity. Qed.

Lemma counted_from_app (evs1 evs2 : list (Locals * event)) : forall n,
  counted_from n (evs1 ++ evs2)
  <-> counted_from n evs1
      /\ counted_from (n + Z.of_nat (count is_write (map snd evs1))) evs2.
Proof.
  induction evs1 as [|[st e] evs1 IH]; intros n; simpl.
  - replace (n + Z.of_nat (count is_write [])) with n by (unfold count; simpl; lia).
    tauto.
  - rewrite IH. unfold count. simpl.
    destruct (is_write e); simpl length.
    + rewrite Nat2Z.inj_succ, <- Z.add_1_l, Z.add_assoc. tauto.
    + tauto.
Qed.

Variable args : Args.
Variable rect : Rect.
Variable writer : bool.

Lemma body_events_ok (tk : Tick) (st : Locals) :
  Forall (loop_event_ok rect writer) (body args rect writer tk st).1.1.
Proof.
  destruct (update_total (measured_fps st) (now tk - last_time st)%float) as [m Hm].
  destruct (wait_ms_total (fps args)) as (t & _ & Hw).
  exec_body tk st Hm Hw.
  all: repeat constructor.
Qed.

(** An iteration adds to the counter the number of frames it wrote, at
    most one, unless an exception surfaces between the write and the
    increment: then it wrote one frame and the counter is as it was. *)
Lemma body_counted (tk : Tick) (st : Locals) :
  let '(evs, st', res) := body args rect writer tk st in
  counted_from (frame_count st) evs
  /\ (count is_write (map snd evs) <= 1)%nat
  /\ (frame_count st' = frame_count st + Z.of_nat (count is_write (map snd evs))
      \/ (frame_count st' = frame_count st
          /\ count is_write (map snd evs) = 1%nat
          /\ write_counted tk = false /\ exists e, res = Raise e)).
Proof.
  destruct (update_total (measured_fps st) (now tk - last_time st)%float) as [m Hm].
  destruct (wait_ms_total (fps args)) as (t & _ & Hw).
  exec_body tk st Hm Hw.
  all: unfold count; cbn; split; [repeat split; lia|]; split; [lia|].
  all: first [left; lia | right; repeat split; eauto].
Qed.

(** The loop, one iteration unfolded. *)
Lemma loop_cons (tk : Tick) (ticks : list Tick) (st : Locals) :
  loop args rect writer (tk :: ticks) st =
  match body args rect writer tk st with
  | (evs, st', Ok Continue) =>
      let '(evs', st'', r) := loop args rect writer ticks st' in
      (evs ++ evs', st'', r)
  | (evs, st', Ok Break) => (evs ++ [], st', Ok true)
  | (evs, st', Raise e) => (evs, st', Raise e)
  end.
Proof.
  simpl loop. unfold mbind at 1, M_bind at 1.
  destruct (body args rect writer tk st) as [[evs st'] [[]|e]]; reflexivity.
Qed.

Lemma loop_events_ok (ticks : list Tick) : forall st,
  Forall (loop_event_ok rect writer) (loop args rect writer ticks st).1.1.
Proof.
  induction ticks as [|tk ticks IH]; intros st; [constructor|].
  rewrite loop_cons. pose proof (body_events_ok tk st) as Hb.
  destruct (body args rect writer tk st) as [[evs st'] [[]|e]]; simpl in *.
  - specialize (IH st').
    destruct (loop args rect writer ticks st') as [[evs' st''] r]. simpl in *.
    apply Forall_app; split; assumption.
  - rewrite app_nil_r. assumption.
  - assumption.
Qed.

(** Over the loop: the counter is the number of frames written, or one
    less when the loop was left by an exception between a write and its
    increment. *)
Lemma loop_counted (ticks : list Tick) : forall st,
  let '(evs, st', res) := loop args rect writer ticks st in
  counted_from (frame_count st) evs
  /\ (frame_count st' = frame_count st + Z.of_nat (count is_write (map snd evs))
      \/ (frame_count st' + 1
            = frame_count st + Z.of_nat (count is_write (map snd evs))
          /\ forallb write_counted ticks = false /\ exists e, res = Raise e)).
Proof.
  induction ticks as [|tk ticks IH]; intros st.
  - cbn. unfold count. cbn. split; [exact I|left; lia].
  - rewrite loop_cons. pose proof (body_counted tk st) as Hb.
    cbn [forallb].
    destruct (body args rect writer tk st) as [[evs st'] [[]|e]].
    + specialize (IH st').
      destruct (loop args rect writer ticks st') as [[evs' st''] r].
      destruct Hb as (Hc & _ & [Hn|(_ & _ & _ & e & He)]); [|discriminate He].
      destruct IH as (Hc' & Hn').
      rewrite counted_from_app, map_app, count_app. rewrite <- Hn.
      split; [split; assumption|].
      destruct Hn' as [Hn'|(Hn' & Hf & He)]; [left; lia|right].
      split; [lia|]. split; [rewrite Hf; apply andb_false_r|exact He].
    + rewrite app_nil_r.
      destruct Hb as (Hc & _ & [Hn|(_ & _ & _ & e & He)]); [|discriminate He].
      split; [exact Hc|left; exact Hn].
    + destruct Hb as (Hc & _ & [Hn|(Hn & Hw & Hf & He)]).
      * split; [exact Hc|left; exact Hn].
      * split; [exact Hc|right]. rewrite Hw, Hf. split; [lia|]. split; [reflexivity|eauto].
Qed.

End LoopFacts.

(** ** Runs of [main] *)
Section MainFacts.
Import Py Main.

(** Unprotected calls: what was called is the beginning of what was to be
    called, and all of it when nothing raises. *)
Lemma until_raise_prefix (raises : exit_site -> option exn)
    (calls : list (exit_site * event)) :
  exists rest, map snd calls = until_raise raises calls ++ rest
    /\ (Forall (fun c => raises c.1 = None) calls -> rest = []).
Proof.
  induction calls as [|[x ev] calls (rest & IH & Hall)]; cbn [until_raise map snd].
  - exists []. split; [reflexivity|]. intros _. reflexivity.
  - destruct (raises x) as [e|] eqn:Hx.
    + eexists. split; [reflexivity|]. intros H. inversion H as [|? ? H1 _]; subst.
      cbn in H1. rewrite H1 in Hx. discriminate Hx.
    + exists rest. rewrite IH. split; [reflexivity|].
      intros H. inversion H; subst. auto.
Qed.

Lemma finally_returns_all (args : Args) (env : Env) (writer : bool) :
  finally_returns env ->
  Forall (fun c => closing env c.1 = None) (finally args writer).
Proof.
  intros H. unfold finally.
  destruct writer; repeat constructor; cbn; apply H; discriminate.
Qed.

Lemma after_loop_calls (args : Args) (env : Env) (writer : bool) (r : result bool) :
  exists msgs cut rest,
    (after_loop args env writer r).1 = msgs ++ cut
    /\ (msgs = [] \/ msgs = [Print "Interrupted by user."])
    /\ map snd (finally args writer) = cut ++ rest
    /\ (finally_returns env -> rest = []).
Proof.
  destruct (until_raise_prefix (closing env) (finally args writer)) as (rest & Hf & Hall0).
  assert (Hall : finally_returns env -> rest = [])
    by (intros H; apply Hall0, finally_returns_all, H).
  unfold after_loop.
  destruct r as [b|e]; [|destruct e]; cbn [fst until_raise];
    try (exists [], (until_raise (closing env) (finally args writer)), rest;
         split; [reflexivity|]; split; [left; reflexivity|]; split; assumption).
  destruct (closing env AtInterrupted).
  - exists [], (until_raise (closing env) (finally args writer)), rest.
    split; [reflexivity|]. split; [left; reflexivity|]. split; assumption.
  - exists [Print "Interrupted by user."],
      (until_raise (closing env) (finally args writer)), rest.
    split; [reflexivity|]. split; [right; reflexivity|]. split; assumption.
Qed.

Variable args : Args.
Variable env : Env.
Variable ticks : list Tick.

(** [main] either stops before the loop, having done nothing but acquire
    the capture handle and print, or is a [session]. *)
Lemma main_cases :
  (exists evs e, main args env ticks = stop evs e
     /\ terminated e = false
     /\ (evs = [MssOpen] \/ exists msg, evs = [MssOpen; Print msg]))
  \/ (exists rect fourcc,
        resolve args (monitors env) = Ok (Some rect)
        /\ main args env ticks
           = session args env [MssOpen; Print (rect_msg rect)] rect fourcc ticks).
Proof.
  unfold main.
  destruct (resolve args (monitors env)) as [[rect|]|e].
  - destruct (Codec.select_codec_by_ext (outfile args) (codec args)) as [fourcc|e].
    + right. eauto.
    + left. eauto 10.
  - left. eauto 10.
  - left. eauto 10.
Qed.

Section Session.
Variable rect : Rect.
Variable fourcc : Z.

Let pre := [MssOpen; Print (rect_msg rect)].
Let s := session args env pre rect fourcc ticks.
Let run := loop args rect (isOpened env) ticks (initial env).

Lemma session_iterations : iterations s = run.1.1.
Proof.
  subst s run. unfold session.
  destruct (loop args rect (isOpened env) ticks (initial env)) as [[its st] r].
  reflexivity.
Qed.

Lemma session_locals : locals s = Some run.1.2.
Proof.
  subst s run. unfold session.
  destruct (loop args rect (isOpened env) ticks (initial env)) as [[its st] r].
  reflexivity.
Qed.

Lemma session_setup :
  count is_write (setup s) = 0%nat /\ count is_release (setup s) = 0%nat
  /\ count is_destroy (setup s) = 0%nat /\ count is_close (setup s) = 0%nat.
Proof.
  subst s run. unfold session.
  destruct (loop args rect (isOpened env) ticks (initial env)) as [[its st] r].
  cbn [setup]. destruct (isOpened env); repeat split; reflexivity.
Qed.

(** What follows the loop: nothing while it runs, the handler and
    [finally] once it is left. *)
Let after :=
  match run.2 with
  | Ok false => ([], Running)
  | r => after_loop args env (isOpened env) r
  end.

Lemma session_after : teardown s = after.1 /\ exit s = after.2.
Proof.
  subst s run after. unfold session.
  destruct (loop args rect (isOpened env) ticks (initial env)) as [[its st] r].
  destruct r as [[]|e]; split; reflexivity.
Qed.

Lemma after_cases :
  (run.2 = Ok false /\ after = ([], Running))
  \/ (run.2 <> Ok false /\ after = after_loop args env (isOpened env) run.2).
Proof.
  subst after. destruct (run.2) as [[]|e]; [right|left|right];
    (split; [discriminate || reflexivity|]); reflexivity.
Qed.

Lemma session_exit :
  exit s = match run.2 with
           | Ok false => Running
           | Ok true => Quit
           | Raise KeyboardInterrupt => Interrupted
           | Raise e => Crashed e
           end.
Proof.
  destruct session_after as (_ & ->). subst after.
  destruct (run.2) as [[]|e]; [| |destruct e]; reflexivity.
Qed.

(** The teardown of a run that ended: the message of the handler, if the
    loop was interrupted and the message could be printed, then the calls
    of [finally] up to the first that raises; all of them if none does. *)
Lemma session_teardown :
  terminated (exit s) = true ->
  exists msgs cut rest,
    teardown s = msgs ++ cut
    /\ (msgs = [] \/ msgs = [Print "Interrupted by user."])
    /\ map snd (finally args (isOpened env)) = cut ++ rest
    /\ (finally_returns env -> rest = []).
Proof.
  destruct session_after as (-> & ->).
  destruct after_cases as [[_ ->]|[_ ->]]; [discriminate|]. intros _.
  apply after_loop_calls.
Qed.

(** What neither the handler nor [finally] does is not done after the
    loop. *)
Lemma session_teardown_0 (p : event -> bool) :
  p (Print "Interrupted by user.") = false ->
  count p (map snd (finally args (isOpened env))) = 0%nat ->
  count p (teardown s) = 0%nat.
Proof.
  intros Hp Hf. destruct session_after as (-> & _).
  destruct after_cases as [[_ ->]|[_ ->]]; [reflexivity|].
  destruct (after_loop_calls args env (isOpened env) run.2)
    as (msgs & cut & rest & -> & Hm & Hc & _).
  rewrite Hc, count_app in Hf. rewrite count_app.
  destruct Hm as [->| ->]; unfold count at 1; cbn [List.filter length];
    rewrite ?Hp; cbn [length]; lia.
Qed.

Lemma session_setup_eq :
  setup s
  = pre
    ++ [VideoWriterOpen (outfile args) fourcc (fps args) (width rect, height rect)]
    ++ (if isOpened env then [] else [Print warning_msg])
    ++ [NamedWindow;
        ResizeWindow (Z.min 1280 (width rect)) (Z.min 720 (height rect))].
Proof.
  subst s run. unfold session.
  destruct (loop args rect (isOpened env) ticks (initial env)) as [[its st] r].
  reflexivity.
Qed.

(** The calls made after the loop, by how the loop was left. *)
Lemma session_teardown_calls :
  teardown s
  = match run.2 with
    | Ok false => []
    | Ok true => until_raise (closing env) (finally args (isOpened env))
    | Raise e =>
        (match e with
         | KeyboardInterrupt =>
             if closing env AtInterrupted is Some _ then []
             else [Print "Interrupted by user."]
         | _ => []
         end)
        ++ until_raise (closing env) (finally args (isOpened env))
    end.
Proof.
  destruct session_after as (-> & _). subst after.
  destruct (run.2) as [[]|e]; [| |destruct e]; unfold after_loop; cbn [until_raise fst];
    try destruct (closing env AtInterrupted); reflexivity.
Qed.

Lemma session_teardown_In (e : event) :
  In e (teardown s) ->
  e = Print "Interrupted by user." \/ In e (map snd (finally args (isOpened env))).
Proof.
  rewrite session_teardown_calls.
  destruct (until_raise_prefix (closing env) (finally args (isOpened env)))
    as (rest & Hc & _).
  assert (Hcut : In e (until_raise (closing env) (finally args (isOpened env))) ->
                 In e (map snd (finally args (isOpened env))))
    by (intros H; rewrite Hc; apply in_or_app; left; exact H).
  destruct (run.2) as [[]|x]; [auto|intros []|].
  intros H. apply in_app_or in H as [H|H]; [|auto].
  destruct x; try destruct (closing env AtInterrupted); cbn in H;
    try contradiction.
  destruct H as [<-|[]]. left. reflexivity.
Qed.

(** What only the loop does is counted in the loop. *)
Lemma session_count_loop (p : event -> bool) :
  p MssOpen = false -> (forall m, p (Print m) = false) ->
  (forall o c f z, p (VideoWriterOpen o c f z) = false) ->
  p NamedWindow = false -> (forall w h, p (ResizeWindow w h) = false) ->
  p WriterRelease = false -> p DestroyAllWindows = false -> p SctClose = false ->
  count p (trace s) = count p (map snd run.1.1).
Proof.
  intros H1 H2 H3 H4 H5 H6 H7 H8. unfold trace.
  rewrite !count_app, session_iterations, session_teardown_0;
    [| apply H2 | unfold count, finally; destruct (isOpened env); cbn;
                  rewrite ?H2, ?H6, ?H7, ?H8; reflexivity].
  assert (Hs : count p (setup s) = 0%nat); [|rewrite Hs; lia].
  subst s run. unfold session.
  destruct (loop args rect (isOpened env) ticks (initial env)) as [[its st] r].
  cbn [setup]. unfold count. destruct (isOpened env); cbn;
    rewrite ?H1, ?H2, ?H3, ?H4, ?H5; reflexivity.
Qed.

Lemma session_iterations_ok :
  Forall (loop_event_ok rect (isOpened env)) (iterations s).
Proof. rewrite session_iterations. apply loop_events_ok. Qed.

End Session.

(** Every event of the loop, in every run. *)
Lemma main_iterations_ok :
  exists rect, Forall (loop_event_ok rect (isOpened env)) (iterations (main args env ticks)).
Proof.
  destruct main_cases as [(evs & e & -> & _) | (rect & fourcc & _ & ->)].
  - exists {| left := 0; top := 0; width := 0; height := 0 |}. constructor.
  - exists rect. apply session_iterations_ok.
Qed.

(** The loop performs none of the calls that [finally] makes. *)
Lemma loop_event_ok_count (p : event -> bool) (rect : Rect) (writer : bool)
    (evs : list (Locals * event)) :
  (forall st e, loop_event_ok rect writer (st, e) -> p e = false) ->
  Forall (loop_event_ok rect writer) evs -> count p (map snd evs) = 0%nat.
Proof.
  intros Hp. induction 1 as [|[st e] evs Hx _ IH]; [reflexivity|].
  unfold count in *. simpl. rewrite (Hp st e Hx). exact IH.
Qed.

End MainFacts.

(** ** Recording and the frame sink *)
Section SinkFacts.
Import Py Main.

(** An iteration in which no call raises shows the frame it grabbed, with
    the overlay, and obeys the toggle key. *)
Lemma body_fault_free (args : Args) (rect : Rect) (writer : bool)
    (tk : Tick) (st : Locals) :
  fault tk = None ->
  let '(evs, st', r) := body args rect writer tk st in
  count is_grab (map snd evs) = 1%nat
  /\ count is_imshow (map snd evs) = 1%nat
  /\ In (st, Imshow (overlay st (height rect) (cvtColor (img tk)))) evs
  /\ (Z.land (key tk) 255 = ord "r" -> recording st' = negb (recording st))
  /\ (exists c, r = Ok c).
Proof.
  intros Hf.
  destruct (update_total (measured_fps st) (now tk - last_time st)%float) as [m Hm].
  destruct (wait_ms_total (fps args)) as (t & _ & Hw).
  exec_body tk st Hm Hw; try discriminate Hf.
  all: repeat split; eauto; try (cbn; tauto).
  all: cbn; intros Hk; rewrite Hk in Hr; discriminate Hr.
Qed.

Lemma loop_fault_free (args : Args) (rect : Rect) (writer : bool)
    (ticks : list Tick) : forall st,
  Forall (fun tk => fault tk = None) ticks ->
  count is_imshow (map snd (loop args rect writer ticks st).1.1)
  = count is_grab (map snd (loop args rect writer ticks st).1.1).
Proof.
  induction ticks as [|tk ticks IH]; intros st Hall; [reflexivity|].
  inversion Hall as [|? ? Hf Hrest]; subst.
  rewrite loop_cons. pose proof (body_fault_free args rect writer tk st Hf) as Hb.
  destruct (body args rect writer tk st) as [[evs st'] [[]|e]];
    destruct Hb as (Hg & Hi & _).
  - specialize (IH st' Hrest).
    destruct (loop args rect writer ticks st') as [[evs' st''] r].
    cbn [fst snd] in *. rewrite map_app, !count_app. lia.
  - cbn [fst snd]. rewrite app_nil_r. lia.
  - cbn [fst snd]. lia.
Qed.

(** C1: in every run, a frame is written to the video writer only by an
    iteration of the loop in which [recording] is on and the writer is
    open, hence never before the loop nor after [release], which only
    [finally] calls.  When the writer could not be opened, no run writes a
    frame; an iteration that raises nothing still shows its frame and
    still flips [recording] on the toggle key, and a run in which nothing
    raises shows every frame it grabs. *)
Theorem write_only_when_recording_and_open
    (args : Args) (env : Env) (ticks : list Tick) :
  let r := main args env ticks in
  (forall st f, In (st, WriterWrite f) (iterations r) ->
     recording st = true /\ isOpened env = true)
  /\ count is_write (setup r) = 0%nat
  /\ count is_write (teardown r) = 0%nat
  /\ count is_release (setup r ++ map snd (iterations r)) = 0%nat
  /\ (isOpened env = false ->
      count is_write (trace r) = 0%nat
      /\ (forall rect tk st, fault tk = None ->
            let '(evs, st', _) := body args rect false tk st in
            In (st, Imshow (overlay st (height rect) (cvtColor (img tk)))) evs
            /\ (Z.land (key tk) 255 = ord "r" -> recording st' = negb (recording st)))
      /\ (Forall (fun tk => fault tk = None) ticks ->
            count is_imshow (trace r) = count is_grab (trace r))).
Proof.
  intros r.
  assert (Hits : exists rect,
             Forall (loop_event_ok rect (isOpened env)) (iterations r))
    by apply main_iterations_ok.
  destruct Hits as [rect0 Hits].
  assert (Hsetup : count is_write (setup r) = 0%nat
                   /\ count is_release (setup r) = 0%nat
                   /\ count is_imshow (setup r) = count is_grab (setup r)).
  { subst r. destruct (main_cases args env ticks)
      as [(evs & e & -> & _ & [->|[msg ->]]) | (rect & fourcc & _ & ->)];
      try (repeat split; reflexivity).
    unfold session.
    destruct (loop args rect (isOpened env) ticks (initial env)) as [[its st] res].
    cbn [setup]. destruct (isOpened env); repeat split; reflexivity. }
  assert (Htd : count is_write (teardown r) = 0%nat
                /\ count is_imshow (teardown r) = count is_grab (teardown r)).
  { subst r. destruct (main_cases args env ticks)
      as [(evs & e & -> & _) | (rect & fourcc & _ & ->)];
      [split; reflexivity|].
    rewrite !(session_teardown_0 args env ticks rect fourcc);
      first [split; reflexivity | reflexivity
            | destruct (isOpened env); reflexivity]. }
  destruct Hsetup as (Hs1 & Hs2 & Hs3), Htd as (Ht1 & Ht2).
  split; [|split; [exact Hs1|split; [exact Ht1|split]]].
  - intros st f Hin. rewrite Forall_forall in Hits.
    exact (Hits _ (proj2 (list_elem_of_In _ _) Hin)).
  - rewrite count_app, Hs2.
    apply (loop_event_ok_count is_release rect0 (isOpened env)); [|exact Hits].
    intros st [] H; try reflexivity; destruct H.
  - intros Hclosed. split; [|split].
    + unfold trace. rewrite !count_app, Hs1, Ht1.
      rewrite (loop_event_ok_count is_write rect0 (isOpened env)); [reflexivity| |exact Hits].
      intros st [] H; try reflexivity. destruct H as [_ H]. congruence.
    + intros rect tk st Hf.
      pose proof (body_fault_free args rect false tk st Hf) as Hb.
      destruct (body args rect false tk st) as [[evs st'] res]. tauto.
    + intros Hall. unfold trace. rewrite !count_app, Hs3, Ht2. f_equal. f_equal.
      subst r. destruct (main_cases args env ticks)
        as [(evs & e & -> & _) | (rect & fourcc & _ & ->)]; [reflexivity|].
      rewrite session_iterations. apply loop_fault_free, Hall.
Qed.

Lemma write_only_when_recording_and_open_witness :
  let r := main Sample.args (Sample.env false) Sample.record5 in
  isOpened (Sample.env false) = false
  /\ Forall (fun tk => fault tk = None) Sample.record5
  /\ count is_write (trace r) = 0%nat
  /\ count is_imshow (trace r) = count is_grab (trace r).
Proof.
  intros r.
  pose proof (write_only_when_recording_and_open
                Sample.args (Sample.env false) Sample.record5) as (_ & _ & _ & _ & H).
  destruct (H eq_refl) as (Hw & _ & Hs).
  split; [reflexivity|]. split; [repeat constructor|].
  split; [exact Hw|]. apply Hs. repeat constructor.
Defined.

(** The scenario of the specification: the writer fails to open, recording
    is toggled on, five iterations run.  Nothing reaches the encoder, the
    preview gets five frames, and [recording] is on at the end. *)
Example unopened_sink_five_iterations :
  let r := main Sample.args (Sample.env false) Sample.record5 in
  count is_write (trace r) = 0%nat
  /\ count is_imshow (trace r) = 5%nat
  /\ (recording <$> locals r) = Some true
  /\ (frame_count <$> locals r) = Some 0
  /\ exit r = Running.
Proof. vm_compute. repeat split; reflexivity. Qed.

(** The same keys with a writer that opened: frames two to five are
    written (the toggle is seen at the end of the first iteration). *)
Example opened_sink_five_iterations :
  let r := main Sample.args (Sample.env true) Sample.record5 in
  count is_write (trace r) = 4%nat
  /\ count is_imshow (trace r) = 5%nat
  /\ (frame_count <$> locals r) = Some 4.
Proof. vm_compute. repeat split; reflexivity. Qed.

End SinkFacts.

(** ** Teardown *)
Section TeardownFacts.
Import Py Main.

Lemma finally_counts (args : Args) (writer : bool) :
  count is_release (map snd (finally args writer)) = (if writer then 1 else 0)%nat
  /\ count is_destroy (map snd (finally args writer)) = 1%nat
  /\ count is_close (map snd (finally args writer)) = 1%nat.
Proof. destruct writer; repeat split; reflexivity. Qed.

Lemma count_app_le (p : event -> bool) (l1 l2 : list event) :
  (count p l1 <= count p (l1 ++ l2))%nat.
Proof. rewrite count_app. lia. Qed.

(** C2: whenever the loop ends, by the quit key, by a [KeyboardInterrupt]
    or by any other exception, the run ends with the calls of [finally] in
    their order, [writer.release()] if the writer had opened, then
    [cv2.destroyAllWindows()] and [sct.close()], as far as they return: a
    call of [finally] that raises ends the teardown there.  So over the
    whole run the writer is released at most once, and never if it had not
    opened, and the windows and the capture handle are torn down at most
    once.  When every call of [finally] returns, the run ends with all of
    them: the writer is released exactly once if it had opened, and the
    windows and the capture handle are torn down exactly once. *)
Theorem teardown_on_every_exit (args : Args) (env : Env) (ticks : list Tick) :
  let r := main args env ticks in
  terminated (exit r) = true ->
  (exists before cut rest,
     trace r = before ++ cut
     /\ map snd (finally args (isOpened env)) = cut ++ rest)
  /\ (count is_release (trace r) <= (if isOpened env then 1 else 0))%nat
  /\ (count is_destroy (trace r) <= 1)%nat
  /\ (count is_close (trace r) <= 1)%nat
  /\ (finally_returns env ->
      (exists before, trace r = before ++ map snd (finally args (isOpened env)))
      /\ count is_release (trace r) = (if isOpened env then 1 else 0)%nat
      /\ count is_destroy (trace r) = 1%nat
      /\ count is_close (trace r) = 1%nat).
Proof.
  intros r Hterm. subst r.
  destruct (main_cases args env ticks)
    as [(evs & e & Hm & He & _) | (rect & fourcc & _ & Hm)];
    rewrite Hm in *; [cbn in Hterm; congruence|].
  set (s := session _ _ _ _ _ _) in *.
  destruct (session_setup args env ticks rect fourcc) as (_ & Hs1 & Hs2 & Hs3).
  destruct (session_teardown args env ticks rect fourcc Hterm)
    as (msgs & cut & rest & Htd & Hmsgs & Hcut & Hall).
  pose proof (session_iterations_ok args env ticks rect fourcc) as Hits.
  fold s in Hs1, Hs2, Hs3, Htd, Hits.
  assert (Hloop : forall p,
             (forall st e, loop_event_ok rect (isOpened env) (st, e) -> p e = false) ->
             count p (map snd (iterations s)) = 0%nat)
    by (intros p Hp; eapply loop_event_ok_count; eauto).
  assert (Hmsg : forall p, (forall m, p (Print m) = false) -> count p msgs = 0%nat)
    by (intros p Hp; destruct Hmsgs as [->| ->]; [reflexivity|];
        unfold count; cbn; rewrite Hp; reflexivity).
  destruct (finally_counts args (isOpened env)) as (Hf1 & Hf2 & Hf3).
  assert (Hcount : forall p,
             (forall st e, loop_event_ok rect (isOpened env) (st, e) -> p e = false) ->
             (forall m, p (Print m) = false) -> count p (setup s) = 0%nat ->
             count p (trace s) = count p cut).
  { intros p Hp1 Hp2 Hp3. unfold trace.
    rewrite Htd, !count_app, Hp3, (Hloop p Hp1), (Hmsg p Hp2). reflexivity. }
  assert (H1 : count is_release (trace s) = count is_release cut).
  { apply Hcount; [|reflexivity|exact Hs1].
    intros st [] H; try reflexivity; destruct H. }
  assert (H2 : count is_destroy (trace s) = count is_destroy cut).
  { apply Hcount; [|reflexivity|exact Hs2].
    intros st [] H; try reflexivity; destruct H. }
  assert (H3 : count is_close (trace s) = count is_close cut).
  { apply Hcount; [|reflexivity|exact Hs3].
    intros st [] H; try reflexivity; destruct H. }
  rewrite H1, H2, H3. rewrite Hcut in Hf1, Hf2, Hf3.
  split; [|split; [|split; [|split]]].
  - exists (setup s ++ map snd (iterations s) ++ msgs), cut, rest.
    split; [|exact Hcut]. unfold trace. rewrite Htd, <- !app_assoc. reflexivity.
  - rewrite <- Hf1. apply count_app_le.
  - rewrite <- Hf2. apply count_app_le.
  - rewrite <- Hf3. apply count_app_le.
  - intros Hret. specialize (Hall Hret). subst rest. rewrite app_nil_r in *.
    split; [|split; [exact Hf1|split; [exact Hf2|exact Hf3]]].
    exists (setup s ++ map snd (iterations s) ++ msgs).
    unfold trace. rewrite Htd, Hcut, <- !app_assoc. reflexivity.
Qed.

Lemma sample_finally_returns (opened : bool) : finally_returns (Sample.env opened).
Proof. intros x _. reflexivity. Qed.

(** The three ways out of the loop, each with its teardown. *)
Lemma teardown_on_every_exit_witness :
  let q := main Sample.args (Sample.env true) Sample.until_quit in
  let i := main Sample.args (Sample.env true) Sample.until_interrupt in
  let c := main Sample.args (Sample.env false) Sample.until_crash in
  (exit q = Quit /\ count is_release (trace q) = 1%nat
   /\ count is_destroy (trace q) = 1%nat /\ count is_close (trace q) = 1%nat)
  /\ (exit i = Interrupted /\ count is_release (trace i) = 1%nat
      /\ count is_destroy (trace i) = 1%nat /\ count is_close (trace i) = 1%nat)
  /\ (exit c = Crashed (OtherException "ScreenShotError")
      /\ count is_release (trace c) = 0%nat
      /\ count is_destroy (trace c) = 1%nat /\ count is_close (trace c) = 1%nat).
Proof.
  intros q i c.
  assert (Hq : exit q = Quit) by (vm_compute; reflexivity).
  assert (Hi : exit i = Interrupted) by (vm_compute; reflexivity).
  assert (Hc : exit c = Crashed (OtherException "ScreenShotError"))
    by (vm_compute; reflexivity).
  split; [|split].
  - split; [exact Hq|].
    destruct (teardown_on_every_exit Sample.args (Sample.env true) Sample.until_quit)
      as (_ & _ & _ & _ & H); [fold q; rewrite Hq; reflexivity|].
    exact (proj2 (H (sample_finally_returns true))).
  - split; [exact Hi|].
    destruct (teardown_on_every_exit Sample.args (Sample.env true) Sample.until_interrupt)
      as (_ & _ & _ & _ & H); [fold i; rewrite Hi; reflexivity|].
    exact (proj2 (H (sample_finally_returns true))).
  - split; [exact Hc|].
    destruct (teardown_on_every_exit Sample.args (Sample.env false) Sample.until_crash)
      as (_ & _ & _ & _ & H); [fold c; rewrite Hc; reflexivity|].
    exact (proj2 (H (sample_finally_returns false))).
Defined.

(** C2 as the specification words it fails when a call of [finally] raises.
    The standard output is closed while the program runs: the [print] of
    the quit command raises, [finally] releases the writer, its own [print]
    raises in turn, and neither [cv2.destroyAllWindows()] nor [sct.close()]
    is called. *)
Lemma teardown_cut_short :
  let r := main Sample.args (Sample.env_broken_pipe true) Sample.broken_pipe_on_quit in
  terminated (exit r) = true
  /\ isOpened (Sample.env_broken_pipe true) = true
  /\ count is_release (trace r) = 1%nat
  /\ count is_destroy (trace r) = 0%nat
  /\ count is_close (trace r) = 0%nat.
Proof. vm_compute. repeat split; reflexivity. Qed.

Example quit_trace_ends :
  let t := trace (main Sample.args (Sample.env true) Sample.until_quit) in
  drop (length t - 5) t
  = [Print "Quitting."; WriterRelease; Print "Saved video to capture.mp4";
     DestroyAllWindows; SctClose].
Proof. vm_compute. reflexivity. Qed.

Example interrupt_trace_ends :
  let t := trace (main Sample.args (Sample.env true) Sample.until_interrupt) in
  drop (length t - 5) t
  = [Print "Interrupted by user."; WriterRelease;
     Print "Saved video to capture.mp4"; DestroyAllWindows; SctClose].
Proof. vm_compute. reflexivity. Qed.

(** Ctrl-C while the writer is being released: nothing is torn down, the
    writer included. *)
Example interrupted_release :
  let r := main Sample.args (Sample.env_interrupted_release true) Sample.until_quit in
  exit r = Quit /\ teardown r = [].
Proof. vm_compute. repeat split; reflexivity. Qed.

End TeardownFacts.

(** ** The capture rectangle *)
Section RegionFacts.
Import Py Main.

Lemma rect_eta (r : Rect) :
  {| left := left r; top := top r; width := width r; height := height r |} = r.
Proof. destruct r; reflexivity. Qed.

(** The index check makes the list access safe. *)
Lemma resolve_total (args : Args) (monitors : list Rect) :
  exists o, resolve args monitors = Ok o.
Proof.
  unfold resolve. destruct (region args) as [[[[l t] w] h]|]; [eauto|].
  destruct (_ || _) eqn:Hrange; [eauto|].
  apply orb_false_iff in Hrange as [Hlo Hhi].
  destruct (monitors !! Z.to_nat (monitor args)) eqn:Hl; [eauto|].
  apply lookup_ge_None in Hl. lia.
Qed.

(** C5, as the code has it: with no explicit region, a monitor index within
    [0 <= i < len(monitors)] resolves to the rectangle of that display,
    field for field; any other index prints the "Invalid monitor index"
    message and returns: the loop is not entered and neither the video
    writer nor the window is opened.  The capture handle, which [main]
    acquires first in order to list the displays, is the one thing the run
    has acquired by then. *)
Theorem monitor_index_resolution (args : Args) (env : Env) (ticks : list Tick) :
  region args = None ->
  (0 <= monitor args < Z.of_nat (length (monitors env)) ->
     exists chosen,
       monitors env !! Z.to_nat (monitor args) = Some chosen
       /\ resolve args (monitors env) = Ok (Some chosen))
  /\ (~ (0 <= monitor args < Z.of_nat (length (monitors env))) ->
      resolve args (monitors env) = Ok None
      /\ main args env ticks
         = stop [MssOpen; Print (invalid_msg args (monitors env))] InvalidMonitor).
Proof.
  intros Hreg. unfold main, resolve. rewrite Hreg. split.
  - intros Hin.
    destruct (_ || _) eqn:Hrange; [apply orb_true_iff in Hrange; lia|].
    destruct (monitors env !! Z.to_nat (monitor args)) as [chosen|] eqn:Hl.
    + exists chosen. rewrite rect_eta. split; reflexivity.
    + apply lookup_ge_None in Hl. lia.
  - intros Hout.
    destruct (_ || _) eqn:Hrange; [split; reflexivity|].
    apply orb_false_iff in Hrange. lia.
Qed.

Lemma monitor_index_resolution_witness :
  region Sample.args = None
  /\ (exists chosen,
        Sample.displays !! 1%nat = Some chosen
        /\ resolve Sample.args Sample.displays = Ok (Some chosen))
  /\ main {| outfile := "capture.mp4"; fps := 20; monitor := 3;
             region := None; codec := None |} (Sample.env true) Sample.record5
     = stop [MssOpen; Print "Invalid monitor index 3. Available: 0..2"] InvalidMonitor.
Proof.
  split; [reflexivity|]. split.
  - apply (proj1 (monitor_index_resolution Sample.args (Sample.env true) [] eq_refl)).
    simpl. lia.
  - refine (proj2 (proj2 (monitor_index_resolution
              {| outfile := "capture.mp4"; fps := 20; monitor := 3;
                 region := None; codec := None |}
              (Sample.env true) Sample.record5 eq_refl) _)).
    simpl. lia.
Defined.

(** C5 as the specification words it fails on "without opening any
    resource": with index 3 and three displays the run has acquired the
    capture handle when it returns, and has not closed it. *)
Lemma invalid_monitor_holds_capture_handle :
  let a := {| outfile := "capture.mp4"; fps := 20; monitor := 3;
              region := None; codec := None |} in
  let r := main a (Sample.env true) Sample.record5 in
  ~ (0 <= monitor a < Z.of_nat (length (monitors (Sample.env true))))
  /\ exit r = InvalidMonitor
  /\ trace r = [MssOpen; Print "Invalid monitor index 3. Available: 0..2"]
  /\ count acquires (trace r) <> 0%nat
  /\ count is_close (trace r) = 0%nat.
Proof.
  split; [simpl; lia|]. vm_compute. repeat split; discriminate.
Qed.

(** C9: an explicit region is the capture rectangle, whatever the displays
    and whatever the monitor index: it is not checked against anything,
    the run does not stop on an invalid index, and every grab of the loop
    is of that rectangle. *)
Theorem explicit_region_verbatim
    (args : Args) (env : Env) (ticks : list Tick) (l t w h : Z) :
  region args = Some (l, t, w, h) ->
  let rect := {| left := l; top := t; width := w; height := h |} in
  resolve args (monitors env) = Ok (Some rect)
  /\ exit (main args env ticks) <> InvalidMonitor
  /\ (forall st r, In (st, Grab r) (iterations (main args env ticks)) -> r = rect).
Proof.
  intros Hreg rect.
  assert (Hres : resolve args (monitors env) = Ok (Some rect))
    by (unfold resolve; rewrite Hreg; reflexivity).
  split; [exact Hres|].
  unfold main. rewrite Hres.
  destruct (Codec.select_codec_by_ext (outfile args) (codec args)) as [fourcc|e].
  - split.
    + rewrite session_exit.
      destruct (loop args rect (isOpened env) ticks (initial env)).2 as [[]|[]];
        discriminate.
    + intros st r Hin.
      pose proof (session_iterations_ok args env ticks rect fourcc) as Hok.
      rewrite Forall_forall in Hok.
      exact (Hok _ (proj2 (list_elem_of_In _ _) Hin)).
  - split; [discriminate|]. intros st r [].
Qed.

Lemma explicit_region_verbatim_witness :
  let a := {| outfile := "demo.mp4"; fps := 20; monitor := 99;
              region := Some (-50, 7, 100000, 0); codec := None |} in
  region a = Some (-50, 7, 100000, 0)
  /\ resolve a Sample.displays
     = Ok (Some {| left := -50; top := 7; width := 100000; height := 0 |}).
Proof.
  intros a. split; [reflexivity|].
  exact (proj1 (explicit_region_verbatim a (Sample.env true) [] (-50) 7 100000 0 eq_refl)).
Defined.

End RegionFacts.

(** ** The commands *)
Section CommandFacts.
Import Py Main.

(** C7: pressing the toggle key twice brings [recording] back to what it
    was; the key changes no other local, so the locals after the second
    press are those before the first.  This holds even if a [print] of the
    command raises: the flip comes first. *)
Theorem toggle_twice (tk1 tk2 : Tick) (frame1 frame2 : Frame) (st : Locals) :
  let st1 := (dispatch tk1 frame1 (ord "r") st).1.2 in
  let st2 := (dispatch tk2 frame2 (ord "r") st1).1.2 in
  recording st1 = negb (recording st)
  /\ recording st2 = recording st
  /\ st2 = st.
Proof.
  destruct st as [rec lt fc mf].
  destruct tk1 as [i1 n1 c1 k1 [[[] e1]|]], tk2 as [i2 n2 c2 k2 [[[] e2]|]];
    destruct rec; exec; repeat split; reflexivity.
Qed.

(** The key is looked at modulo 256, and the toggle is reached in every
    iteration in which no call raises. *)
Lemma toggle_in_iteration (args : Args) (rect : Rect) (writer : bool)
    (tk : Tick) (st : Locals) :
  fault tk = None -> Z.land (key tk) 255 = ord "r" ->
  recording (body args rect writer tk st).1.2 = negb (recording st).
Proof.
  intros Hf Hk. pose proof (body_fault_free args rect writer tk st Hf) as Hb.
  destruct (body args rect writer tk st) as [[evs st'] r].
  exact (proj1 (proj2 (proj2 (proj2 Hb))) Hk).
Qed.

Lemma strftime_same_second (d1 d2 : Snapshot.datetime) :
  Snapshot.same_second d1 d2 -> Snapshot.strftime d1 = Snapshot.strftime d2.
Proof.
  intros (Hy & Hmo & Hd & Hh & Hmi & Hs). unfold Snapshot.strftime.
  rewrite Hy, Hmo, Hd, Hh, Hmi, Hs. reflexivity.
Qed.

(** C8: in an iteration in which no call raises and the key is the
    snapshot key, the command writes the frame of this iteration, the one
    the preview was given, overlay included, under the name
    [screenshot_<YYYYMMDD_HHMMSS>.png], prints the name, and continues.  It
    changes no local, [recording] and [frame_count] included, and calls
    nothing of the video writer.  The name depends on the clock only down
    to the second, so a snapshot taken in the same second as an earlier
    one replaces its file. *)
Theorem snapshot_command (args : Args) (rect : Rect) (writer : bool)
    (tk : Tick) (st : Locals) :
  fault tk = None -> Z.land (key tk) 255 = ord "s" ->
  let frame := overlay st (height rect) (cvtColor (img tk)) in
  let name := "screenshot_" +:+ Snapshot.strftime (clock tk) +:+ ".png" in
  (forall st0,
     dispatch tk frame (ord "s") st0
     = ([(st0, Imwrite name frame); (st0, Print ("Saved screenshot: " +:+ name))],
        st0, Ok Continue))
  /\ (let '(evs, st', r) := body args rect writer tk st in
      r = Ok Continue
      /\ recording st' = recording st
      /\ In (st, Imshow frame) evs
      /\ In (st', Imwrite name frame) evs
      /\ count (fun e => match e with Imwrite _ _ => true | _ => false end)
           (map snd evs) = 1%nat)
  /\ (forall d, Snapshot.same_second d (clock tk) ->
        Snapshot.timestamped_name "screenshot" ".png" d = name)
  /\ (forall fs earlier, store (store fs (Imwrite name earlier)) (Imwrite name frame)
                         = <[name := frame]> fs).
Proof.
  intros Hf Hk frame name. split; [|split; [|split]].
  - intros st0. destruct tk as [img0 now0 clock0 key0 flt]. cbn in Hf. subst flt.
    exec. reflexivity.
  - subst frame name.
    destruct (update_total (measured_fps st) (now tk - last_time st)%float) as [m Hm].
    destruct (wait_ms_total (fps args)) as (t & _ & Hw).
    exec_body tk st Hm Hw; try discriminate Hf;
      cbn in Hk; try (rewrite Hk in Hr; discriminate Hr);
      try (rewrite Hk in Hs; discriminate Hs).
    all: repeat split; cbn; tauto.
  - intros d Hd. unfold Snapshot.timestamped_name.
    rewrite (strftime_same_second d (clock tk) Hd). reflexivity.
  - intros fs earlier. cbn. apply insert_insert_eq.
Qed.

Lemma snapshot_command_witness :
  let tk := Sample.tick 100.1 (ord "s") None in
  let st := initial (Sample.env true) in
  let rect := {| left := 0; top := 0; width := 1920; height := 1080 |} in
  fault tk = None /\ Z.land (key tk) 255 = ord "s"
  /\ dispatch tk (overlay st 1080 (cvtColor (img tk))) (ord "s") st
     = ([(st, Imwrite "screenshot_20240309_070559.png" (overlay st 1080 (cvtColor (img tk))));
         (st, Print "Saved screenshot: screenshot_20240309_070559.png")],
        st, Ok Continue).
Proof.
  intros tk st rect. split; [reflexivity|]. split; [reflexivity|].
  exact (proj1 (snapshot_command Sample.args rect true tk st eq_refl eq_refl) st).
Defined.

(** Two snapshots within one second: one file, holding the later frame. *)
Example snapshot_collision (f1 f2 : Frame) :
  let n1 := Snapshot.timestamped_name "screenshot" ".png" (Sample.at_ 2024 3 9 7 5 59 100) in
  let n2 := Snapshot.timestamped_name "screenshot" ".png" (Sample.at_ 2024 3 9 7 5 59 900) in
  n1 = n2
  /\ store (store ∅ (Imwrite n1 f1)) (Imwrite n2 f2) = {[ n2 := f2 ]}.
Proof.
  intros n1 n2. split; [reflexivity|].
  subst n1 n2. cbn. rewrite insert_insert_eq. reflexivity.
Qed.

End CommandFacts.

(** ** The frame counter *)
Section CounterFacts.
Import Py Main.

Lemma dispatch_frame_count (tk : Tick) (frame : Frame) (key : Z) (st : Locals) :
  frame_count (dispatch tk frame key st).1.2 = frame_count st.
Proof.
  unfold dispatch.
  destruct (key =? ord "r"); [|destruct (key =? ord "s");
                                [|destruct ((key =? ord "q") || (key =? 27))]];
    destruct tk as [i n c k [[[] e]|]]; destruct st as [rec lt fc mf];
    exec; reflexivity.
Qed.

(** C10: [frame_count] starts at 0; every event of the loop happens with
    [frame_count] equal to the number of frames written before it; an
    iteration writes at most one frame and adds to the counter the number
    of frames it wrote, and the commands leave the counter as it is.  The
    write and the increment are two statements: when the run is observed
    the counter is the number of frames written in the whole run, or one
    less; it is that number while the loop runs, after the loop was left by
    the quit key, and in every run in which no exception surfaces between a
    write and its increment. *)
Theorem frame_count_counts_writes (args : Args) (env : Env) (ticks : list Tick) :
  let r := main args env ticks in
  frame_count (initial env) = 0
  /\ counted_from 0 (iterations r)
  /\ (forall st, locals r = Some st ->
        frame_count st <= Z.of_nat (count is_write (trace r)) <= frame_count st + 1
        /\ (forallb write_counted ticks = true \/ exit r = Running \/ exit r = Quit ->
            frame_count st = Z.of_nat (count is_write (trace r))))
  /\ (forall rect writer tk st,
        let '(evs, st', res) := body args rect writer tk st in
        (count is_write (map snd evs) <= 1)%nat
        /\ (write_counted tk = true \/ (exists c, res = Ok c) ->
            frame_count st' = frame_count st + Z.of_nat (count is_write (map snd evs)))
        /\ (frame_count st' = frame_count st + Z.of_nat (count is_write (map snd evs))
            \/ frame_count st' + 1
               = frame_count st + Z.of_nat (count is_write (map snd evs))))
  /\ (forall tk frame key st,
        frame_count (dispatch tk frame key st).1.2 = frame_count st).
Proof.
  intros r. split; [reflexivity|].
  assert (Hrun : counted_from 0 (iterations r)
                 /\ forall st, locals r = Some st ->
                      frame_count st <= Z.of_nat (count is_write (trace r))
                                     <= frame_count st + 1
                      /\ (forallb write_counted ticks = true
                          \/ exit r = Running \/ exit r = Quit ->
                          frame_count st = Z.of_nat (count is_write (trace r)))).
  { subst r. destruct (main_cases args env ticks)
      as [(evs & e & -> & _ & Hevs) | (rect & fourcc & _ & ->)].
    - split; [exact I|]. intros st Hst. discriminate Hst.
    - pose proof (loop_counted args rect (isOpened env) ticks (initial env)) as Hc.
      destruct (session_setup args env ticks rect fourcc) as (Hs & _).
      assert (Ht : count is_write (teardown (session args env
                     [MssOpen; Print (rect_msg rect)] rect fourcc ticks)) = 0%nat)
        by (apply session_teardown_0; [|destruct (isOpened env)]; reflexivity).
      rewrite session_locals, session_exit. unfold trace.
      rewrite !count_app, Hs, Ht, session_iterations.
      destruct (loop args rect (isOpened env) ticks (initial env)) as [[its st'] res].
      destruct Hc as [Hc Hn]. cbn [fst snd] in *. split; [exact Hc|].
      intros st Hst. injection Hst as <-. cbn [frame_count initial] in Hn.
      destruct Hn as [Hn|(Hn & Hf & e & ->)].
      + split; [|intros _]; lia.
      + split; [lia|]. intros [H|[H|H]]; [congruence| |];
          destruct e; discriminate H. }
  destruct Hrun as [Hc Hl]. split; [exact Hc|]. split; [exact Hl|]. split.
  - intros rect writer tk st. pose proof (body_counted args rect writer tk st) as Hb.
    destruct (body args rect writer tk st) as [[evs st'] res].
    destruct Hb as (_ & Hle & [Hn|(Hn & Hw & Hf & e & ->)]).
    + split; [exact Hle|]. split; [intros _; exact Hn|left; exact Hn].
    + split; [exact Hle|]. split; [|right; lia].
      intros [H|[c H]]; [congruence|discriminate H].
  - apply dispatch_frame_count.
Qed.

Lemma frame_count_counts_writes_witness :
  let r := main Sample.args (Sample.env true) Sample.record5 in
  forallb write_counted Sample.record5 = true
  /\ exists st, locals r = Some st
       /\ frame_count st = Z.of_nat (count is_write (trace r)).
Proof.
  intros r. split; [reflexivity|].
  eexists. split; [vm_compute; reflexivity|].
  refine (proj2 (proj1 (proj2 (proj2 (frame_count_counts_writes
           Sample.args (Sample.env true) Sample.record5))) _ _) _).
  - vm_compute. reflexivity.
  - left. reflexivity.
Defined.

(** C10 as the specification words it fails when the user's Ctrl-C
    surfaces between [writer.write(frame)] and [frame_count += 1]: the
    frame of the second iteration is written, and the counter is still 0
    when the run ends. *)
Lemma frame_count_behind_after_interrupt :
  let r := main Sample.args (Sample.env true) Sample.interrupted_after_write in
  exit r = Interrupted
  /\ count is_write (trace r) = 1%nat
  /\ (frame_count <$> locals r) = Some 0
  /\ ~ (forall st, locals r = Some st ->
          frame_count st = Z.of_nat (count is_write (trace r))).
Proof.
  vm_compute. split; [reflexivity|]. split; [reflexivity|]. split; [reflexivity|].
  intros H. specialize (H _ eq_refl). discriminate H.
Qed.

End CounterFacts.

(** ** Codec selection *)
Section CodecFacts.
Import Py Codec.

Lemma fourcc_of_four (c1 c2 c3 c4 : ascii) :
  VideoWriter_fourcc (String c1 (String c2 (String c3 (String c4 EmptyString))))
  = Ok (CV_FOURCC c1 c2 c3 c4).
Proof. reflexivity. Qed.

(** The identifier keeps the four characters: no two codes share one. *)
Lemma CV_FOURCC_inj (a1 a2 a3 a4 b1 b2 b3 b4 : ascii) :
  CV_FOURCC a1 a2 a3 a4 = CV_FOURCC b1 b2 b3 b4 ->
  a1 = b1 /\ a2 = b2 /\ a3 = b3 /\ a4 = b4.
Proof.
  unfold CV_FOURCC, wrap32.
  assert (Hb : forall c : ascii,
             Z.land (Z.of_nat (nat_of_ascii c)) 255 = Z.of_nat (nat_of_ascii c)
             /\ 0 <= Z.of_nat (nat_of_ascii c) < 256).
  { intros c. pose proof (nat_ascii_bounded c) as Hc.
    change 255 with (Z.ones 8). rewrite Z.land_ones by lia.
    change (2 ^ 8) with 256. split; [apply Z.mod_small|]; lia. }
  assert (Hinj : forall a b : ascii,
             Z.of_nat (nat_of_ascii a) = Z.of_nat (nat_of_ascii b) -> a = b).
  { intros a b H. apply Nat2Z.inj in H.
    rewrite <- (ascii_nat_embedding a), <- (ascii_nat_embedding b), H. reflexivity. }
  intros Heq.
  enough (Z.of_nat (nat_of_ascii a1) = Z.of_nat (nat_of_ascii b1)
          /\ Z.of_nat (nat_of_ascii a2) = Z.of_nat (nat_of_ascii b2)
          /\ Z.of_nat (nat_of_ascii a3) = Z.of_nat (nat_of_ascii b3)
          /\ Z.of_nat (nat_of_ascii a4) = Z.of_nat (nat_of_ascii b4))
    as (E1 & E2 & E3 & E4) by (repeat split; apply Hinj; assumption).
  clear Hinj. revert Heq.
  destruct (Hb a1) as [-> ?], (Hb a2) as [-> ?], (Hb a3) as [-> ?], (Hb a4) as [-> ?].
  destruct (Hb b1) as [-> ?], (Hb b2) as [-> ?], (Hb b3) as [-> ?], (Hb b4) as [-> ?].
  clear Hb.
  rewrite !Z.shiftl_mul_pow2 by lia.
  change (2 ^ 8) with 256. change (2 ^ 16) with 65536. change (2 ^ 24) with 16777216.
  change (2 ^ 31) with 2147483648. change (2 ^ 32) with 4294967296.
  generalize dependent (Z.of_nat (nat_of_ascii a1)); intros x1 ?.
  generalize dependent (Z.of_nat (nat_of_ascii a2)); intros x2 ?.
  generalize dependent (Z.of_nat (nat_of_ascii a3)); intros x3 ?.
  generalize dependent (Z.of_nat (nat_of_ascii a4)); intros x4 ?.
  generalize dependent (Z.of_nat (nat_of_ascii b1)); intros y1 ?.
  generalize dependent (Z.of_nat (nat_of_ascii b2)); intros y2 ?.
  generalize dependent (Z.of_nat (nat_of_ascii b3)); intros y3 ?.
  generalize dependent (Z.of_nat (nat_of_ascii b4)); intros y4 ?.
  intros Heq.
  assert (E0 : x1 + 256 * (x2 + 256 * (x3 + 256 * x4))
               = y1 + 256 * (y2 + 256 * (y3 + 256 * y4)))
    by (Z.div_mod_to_equations; lia).
  assert (E1 : x1 = y1 /\ x2 + 256 * (x3 + 256 * x4) = y2 + 256 * (y3 + 256 * y4))
    by lia.
  assert (E2 : x2 = y2 /\ x3 + 256 * x4 = y3 + 256 * y4) by lia.
  assert (E3 : x3 = y3 /\ x4 = y4) by lia.
  tauto.
Qed.

Example mp4v_is_not_XVID : mp4v = 1983148141 /\ XVID = 1145656920 /\ mp4v <> XVID.
Proof. vm_compute. repeat split; discriminate. Qed.

(** C6: for every output path, and every override that is absent, empty
    or a FourCC (four characters), codec selection returns an identifier.
    A FourCC override is packed as it is, whatever the path.  Without one,
    the extension of the path ([os.path.splitext], lowercased) decides:
    [.mp4] and [.m4v] give the code of "mp4v", which is not the code of
    "XVID"; [.avi] gives the code of "XVID"; anything else gives the code
    of "XVID" too. *)
Theorem select_codec_total (filename : string) (override : option string) :
  (forall s, override = Some s -> s = "" \/ String.length s = 4%nat) ->
  exists code,
    select_codec_by_ext filename override = Ok code
    /\ (forall c1 c2 c3 c4,
          override = Some (String c1 (String c2 (String c3 (String c4 EmptyString)))) ->
          code = CV_FOURCC c1 c2 c3 c4)
    /\ (override = None \/ override = Some "" ->
        let ext := OsPath.lower (OsPath.splitext filename).2 in
        (ext = ".mp4" \/ ext = ".m4v" -> code = mp4v /\ code <> XVID)
        /\ (ext = ".avi" -> code = XVID)
        /\ (ext <> ".mp4" -> ext <> ".m4v" -> code = XVID)).
Proof.
  intros Hwf.
  assert (Hext : exists code,
             select_codec_by_ext filename None = Ok code
             /\ let ext := OsPath.lower (OsPath.splitext filename).2 in
                (ext = ".mp4" \/ ext = ".m4v" -> code = mp4v /\ code <> XVID)
                /\ (ext = ".avi" -> code = XVID)
                /\ (ext <> ".mp4" -> ext <> ".m4v" -> code = XVID)).
  { unfold select_codec_by_ext. cbn [truthy].
    set (ext := OsPath.lower (snd (OsPath.splitext filename))).
    destruct (String.eqb_spec ext ".mp4") as [Hmp4|Hmp4];
      [|destruct (String.eqb_spec ext ".m4v") as [Hm4v|Hm4v];
        [|destruct (String.eqb_spec ext ".avi") as [Havi|Havi]]];
      cbn [orb]; eexists; (split; [reflexivity|]); cbn zeta; fold ext;
      (split; [intros [H|H];
               first [congruence | split; [reflexivity | vm_compute; discriminate]]
              |split; [intros H; try congruence; reflexivity
                      |intros H1 H2; try congruence; reflexivity]]). }
  destruct override as [s|].
  - destruct (Hwf s eq_refl) as [-> | Hlen].
    + destruct Hext as (code & Hsel & Hcases). exists code.
      split; [exact Hsel|]. split; [intros; discriminate|]. intros _. exact Hcases.
    + destruct s as [|c1 [|c2 [|c3 [|c4 [|c5 s]]]]]; try discriminate Hlen.
      exists (CV_FOURCC c1 c2 c3 c4). split; [reflexivity|]. split.
      * intros d1 d2 d3 d4 H. injection H as -> -> -> ->. reflexivity.
      * intros [H|H]; discriminate H.
  - destruct Hext as (code & Hsel & Hcases). exists code.
    split; [exact Hsel|]. split; [intros; discriminate|]. intros _. exact Hcases.
Qed.

Lemma select_codec_total_witness :
  (forall s, Some "avc1" = Some s -> s = "" \/ String.length s = 4%nat)
  /\ exists code, select_codec_by_ext "capture.xyz" (Some "avc1") = Ok code
                  /\ code = CV_FOURCC "a" "v" "c" "1".
Proof.
  assert (Hwf : forall s, Some "avc1" = Some s -> s = "" \/ String.length s = 4%nat)
    by (intros s H; injection H as <-; right; reflexivity).
  split; [exact Hwf|].
  destruct (select_codec_total "capture.xyz" (Some "avc1") Hwf) as (code & Hsel & Hov & _).
  exists code. split; [exact Hsel | exact (Hov _ _ _ _ eq_refl)].
Defined.

(** The scenarios of the specification. *)
Example codec_mp4 : select_codec_by_ext "capture.mp4" None = Ok mp4v.
Proof. reflexivity. Qed.

Example codec_upper_case : select_codec_by_ext "out/Demo.M4V" None = Ok mp4v.
Proof. reflexivity. Qed.

Example codec_avi : select_codec_by_ext "capture.avi" None = Ok XVID.
Proof. reflexivity. Qed.

Example codec_garbage : select_codec_by_ext "capture.xyz" None = Ok XVID.
Proof. reflexivity. Qed.

Example codec_no_extension : select_codec_by_ext "dir.mp4/capture" None = Ok XVID.
Proof. reflexivity. Qed.

(** C6 as the specification words it fails for an override that is not a
    FourCC: [--codec mp4] is unpacked into three arguments, of which
    [cv2.VideoWriter_fourcc] takes four, and the selection raises instead
    of returning an identifier. *)
Lemma codec_override_of_three_raises :
  select_codec_by_ext "capture.mp4" (Some "mp4") = Raise TypeError
  /\ ~ exists code, select_codec_by_ext "capture.mp4" (Some "mp4") = Ok code.
Proof. split; [reflexivity|]. intros [code H]. discriminate H. Qed.

(** An override that is not four characters long is outside the statement
    above: unpacking it gives [cv2.VideoWriter_fourcc] the wrong number of
    arguments. *)
Lemma codec_override_wrong_length (filename s : string) :
  s <> "" -> String.length s <> 4%nat ->
  select_codec_by_ext filename (Some s) = Raise TypeError.
Proof.
  intros Hne Hlen. unfold select_codec_by_ext, truthy.
  destruct (String.eqb_spec s "") as [->|_]; [congruence|]. cbn.
  destruct s as [|c1 [|c2 [|c3 [|c4 [|c5 s]]]]]; try reflexivity; cbn in Hlen; congruence.
Qed.

End CodecFacts.

(** ** Iterations, key by key *)
Section IterationFacts.
Import Py Main Observe.

Variable args : Args.
Variable rect : Rect.
Variable writer : bool.

(** Each command happens on its key only, whatever raises: [recording]
    changes on "r" alone, a snapshot is written on "s" alone, and the loop
    is left by [break] on "q" or ESC alone. *)
Lemma body_keys (tk : Tick) (st : Locals) :
  let '(evs, st', r) := body args rect writer tk st in
  (masked tk <> ord "r" -> recording st' = recording st)
  /\ (masked tk <> ord "s" -> count is_imwrite (map snd evs) = 0%nat)
  /\ (r = Ok Break -> is_quit tk = true).
Proof.
  destruct (update_total (measured_fps st) (now tk - last_time st)%float) as [m Hm].
  destruct (wait_ms_total (fps args)) as (t & _ & Hw).
  unfold is_quit, masked.
  change (ord "r") with 114. change (ord "s") with 115. change (ord "q") with 113.
  exec_body tk st Hm Hw.
  all: repeat split; try reflexivity; try discriminate; try assumption.
  all: try (intros Hk; apply Z.eqb_eq in Hr; congruence).
  all: try (intros Hk; apply Z.eqb_eq in Hs; congruence).
Qed.

(** What an iteration in which nothing raises does, whatever the key: one
    grab, one frame shown, one poll; the frame is written if and only if
    [recording] was on when the iteration began and the writer is open; the
    loop goes on unless the key quits. *)
Lemma body_calm_or_quit (tk : Tick) (st : Locals) :
  fault tk = None ->
  let '(evs, st', r) := body args rect writer tk st in
  count is_grab (map snd evs) = 1%nat
  /\ count is_waitkey (map snd evs) = 1%nat
  /\ count is_write (map snd evs) = (if recording st && writer then 1 else 0)%nat
  /\ r = Ok (if is_quit tk then Break else Continue)
  /\ recording st' = xorb (recording st) (is_toggle tk)
  /\ last_time st' = now tk.
Proof.
  intros Hf.
  destruct (update_total (measured_fps st) (now tk - last_time st)%float) as [m Hm].
  destruct (wait_ms_total (fps args)) as (t & _ & Hw).
  unfold is_quit, is_toggle, masked.
  change (ord "r") with 114. change (ord "s") with 115. change (ord "q") with 113.
  exec_body tk st Hm Hw; try discriminate Hf.
  all: rewrite ?Hr, ?Hq; repeat split; try reflexivity.
  all: try (apply Z.eqb_eq in Hr; rewrite Hr; reflexivity).
  all: try (apply Z.eqb_eq in Hs; rewrite Hs; reflexivity).
Qed.

(** Frames shown and frames written carry the overlay of the locals of
    their iteration. *)
Lemma body_shows_state (tk : Tick) (st : Locals) :
  Forall (shows_state (height rect)) (body args rect writer tk st).1.1.
Proof.
  destruct (update_total (measured_fps st) (now tk - last_time st)%float) as [m Hm].
  destruct (wait_ms_total (fps args)) as (t & _ & Hw).
  exec_body tk st Hm Hw.
  all: repeat constructor.
Qed.

(** A frame that is written has just been shown. *)
Lemma body_written_was_shown (tk : Tick) (st : Locals) (p : Locals * event) :
  In p (body args rect writer tk st).1.1 ->
  forall f, p.2 = WriterWrite f -> In (p.1, Imshow f) (body args rect writer tk st).1.1.
Proof.
  destruct (update_total (measured_fps st) (now tk - last_time st)%float) as [m Hm].
  destruct (wait_ms_total (fps args)) as (t & _ & Hw).
  exec_body tk st Hm Hw.
  all: intros Hin f Hp; cbn in Hin;
    repeat (destruct Hin as [<-|Hin]; [cbn in Hp; try discriminate Hp|]);
    try contradiction.
  all: injection Hp as <-; cbn; tauto.
Qed.

End IterationFacts.

(** ** Runs, iteration by iteration *)
Section RunFacts.
Import Py Main Observe.

Variable args : Args.
Variable rect : Rect.
Variable writer : bool.

Abbreviation body := (Main.body args rect writer).
Abbreviation loop := (Main.loop args rect writer).

(** An iteration that raises at a site every iteration reaches. *)
Lemma body_raises (tk : Tick) (st : Locals) (s : site) (e : exn) :
  fault tk = Some (s, e) -> always_reached s = true ->
  (body tk st).2 = Raise e.
Proof.
  intros Hf Hs.
  destruct (update_total (measured_fps st) (now tk - last_time st)%float) as [m Hm].
  destruct (wait_ms_total (fps args)) as (t & _ & Hw).
  exec_body tk st Hm Hw; cbn in Hf; try discriminate Hf;
    injection Hf as <- <-; try discriminate Hs; reflexivity.
Qed.

(** Every event of the loop is an event of one of its iterations, and the
    loop has all the events of that iteration. *)
Lemma loop_In (ticks : list Tick) : forall st x,
  In x (loop ticks st).1.1 ->
  exists tk st0, In x (body tk st0).1.1
    /\ forall y, In y (body tk st0).1.1 -> In y (loop ticks st).1.1.
Proof.
  induction ticks as [|tk ticks IH]; intros st x; [intros []|].
  rewrite loop_cons.
  destruct (body tk st) as [[evs st'] [[]|e]] eqn:Hb; cbn [fst snd].
  - specialize (IH st' x).
    destruct (loop ticks st') as [[evs' st''] r]. cbn [fst snd] in *.
    intros Hin. apply in_app_or in Hin as [Hin|Hin].
    + exists tk, st. rewrite Hb. cbn [fst snd]. split; [exact Hin|].
      intros y Hy. apply in_or_app. left. exact Hy.
    + destruct (IH Hin) as (tk0 & st0 & Hx & Hall). exists tk0, st0.
      split; [exact Hx|]. intros y Hy. apply in_or_app. right. apply Hall, Hy.
  - rewrite app_nil_r. intros Hin. exists tk, st. rewrite Hb. cbn [fst snd].
    split; [exact Hin|]. intros y Hy. exact Hy.
  - intros Hin. exists tk, st. rewrite Hb. cbn [fst snd].
    split; [exact Hin|]. intros y Hy. exact Hy.
Qed.

(** A quitting iteration ends the loop: what the environment would answer
    afterwards is never asked for. *)
Lemma loop_quit (tk : Tick) (rest : list Tick) (st : Locals) :
  fault tk = None -> is_quit tk = true ->
  loop (tk :: rest) st = loop [tk] st /\ (loop [tk] st).2 = Ok true.
Proof.
  intros Hf Hq. rewrite !loop_cons.
  pose proof (body_calm_or_quit args rect writer tk st Hf) as Hb.
  destruct (body tk st) as [[evs st'] r].
  destruct Hb as (_ & _ & _ & -> & _). rewrite Hq. split; reflexivity.
Qed.

Lemma loop_raise (tk : Tick) (rest : list Tick) (st : Locals) (s : site) (e : exn) :
  fault tk = Some (s, e) -> always_reached s = true ->
  loop (tk :: rest) st = loop [tk] st /\ (loop [tk] st).2 = Raise e.
Proof.
  intros Hf Hs. rewrite !loop_cons.
  pose proof (body_raises tk st s e Hf Hs) as Hb.
  destruct (body tk st) as [[evs st'] r]. cbn in Hb. subst r. split; reflexivity.
Qed.

(** Calm iterations: the loop goes through all of them and on to the rest. *)
Lemma loop_calm_app (pre : list Tick) : forall rest st,
  forallb calm pre = true ->
  loop (pre ++ rest) st =
  let '(evs, st1, _) := loop pre st in
  let '(evs', st2, r) := loop rest st1 in
  (evs ++ evs', st2, r).
Proof.
  induction pre as [|tk pre IH]; intros rest st Hc.
  - cbn. destruct (loop rest st) as [[evs' st2] r]. reflexivity.
  - cbn [forallb] in Hc. apply andb_true_iff in Hc as [Htk Hpre].
    unfold calm in Htk. destruct (fault tk) eqn:Hf; [discriminate|].
    apply negb_true_iff in Htk.
    rewrite <- app_comm_cons, !loop_cons.
    pose proof (body_calm_or_quit args rect writer tk st Hf) as Hb.
    destruct (body tk st) as [[evs st'] r].
    destruct Hb as (_ & _ & _ & -> & _). rewrite Htk.
    rewrite (IH rest st' Hpre).
    destruct (loop pre st') as [[evs1 st1] r1].
    destruct (loop rest st1) as [[evs2 st2] r2].
    rewrite app_assoc. reflexivity.
Qed.

Lemma loop_calm (ticks : list Tick) : forall st,
  forallb calm ticks = true ->
  let '(evs, st', r) := loop ticks st in
  r = Ok false
  /\ count is_grab (map snd evs) = length ticks
  /\ count is_imshow (map snd evs) = length ticks
  /\ count is_waitkey (map snd evs) = length ticks
  /\ recording st'
     = xorb (recording st) (Nat.odd (length (List.filter is_toggle ticks))).
Proof.
  induction ticks as [|tk ticks IH]; intros st Hc.
  - cbn. repeat split; try reflexivity. destruct (recording st); reflexivity.
  - cbn [forallb] in Hc. apply andb_true_iff in Hc as [Htk Hrest].
    unfold calm in Htk. destruct (fault tk) eqn:Hf; [discriminate|].
    apply negb_true_iff in Htk.
    rewrite loop_cons.
    pose proof (body_calm_or_quit args rect writer tk st Hf) as Hb.
    pose proof (body_fault_free args rect writer tk st Hf) as Hb'.
    destruct (body tk st) as [[evs st'] r].
    destruct Hb as (Hg & Hw & _ & -> & Hrec & _), Hb' as (_ & Hi & _).
    rewrite Htk. specialize (IH st' Hrest).
    destruct (loop ticks st') as [[evs' st''] r'].
    destruct IH as (-> & Hg' & Hi' & Hw' & Hrec').
    rewrite map_app, !count_app, Hg, Hi, Hw, Hg', Hi', Hw', Hrec', Hrec.
    repeat split; try reflexivity.
    cbn [List.filter length]. destruct (is_toggle tk); cbn [length].
    + rewrite Nat.odd_succ, <- Nat.negb_odd.
      destruct (recording st), (Nat.odd _); reflexivity.
    + destruct (recording st), (Nat.odd _); reflexivity.
Qed.

(** With [recording] off an iteration writes nothing, whatever raises. *)
Lemma body_idle (tk : Tick) (st : Locals) :
  recording st = false -> count is_write (map snd (body tk st).1.1) = 0%nat.
Proof.
  intros Hrec.
  destruct (update_total (measured_fps st) (now tk - last_time st)%float) as [m Hm].
  destruct (wait_ms_total (fps args)) as (t & _ & Hw).
  exec_body tk st Hm Hw; try discriminate Hrec; reflexivity.
Qed.

(** Until the toggle key is pressed nothing is written, whatever raises. *)
Lemma loop_idle (ticks : list Tick) : forall st,
  recording st = false -> forallb (fun tk => negb (is_toggle tk)) ticks = true ->
  count is_write (map snd (loop ticks st).1.1) = 0%nat.
Proof.
  induction ticks as [|tk ticks IH]; intros st Hrec Hno; [reflexivity|].
  cbn [forallb] in Hno. apply andb_true_iff in Hno as [Htk Hrest].
  apply negb_true_iff in Htk. unfold is_toggle in Htk. apply Z.eqb_neq in Htk.
  rewrite loop_cons.
  pose proof (body_keys args rect writer tk st) as Hk.
  pose proof (body_idle tk st Hrec) as Hw.
  destruct (body tk st) as [[evs st'] [[]|e]]; cbn [fst snd] in *;
    destruct Hk as (Hsame & _ & _); specialize (Hsame Htk).
  - specialize (IH st' ltac:(congruence) Hrest).
    destruct (loop ticks st') as [[evs' st''] r]. cbn [fst snd] in *.
    rewrite map_app, count_app, Hw, IH. reflexivity.
  - rewrite app_nil_r. exact Hw.
  - exact Hw.
Qed.

(** What no key asked for does not happen, whatever raises. *)
Lemma loop_keys (ticks : list Tick) : forall st,
  let '(evs, st', r) := loop ticks st in
  (forallb (fun tk => negb (is_toggle tk)) ticks = true -> recording st' = recording st)
  /\ (forallb (fun tk => negb (is_snapshot tk)) ticks = true ->
      count is_imwrite (map snd evs) = 0%nat)
  /\ (forallb (fun tk => negb (is_quit tk)) ticks = true -> r <> Ok true).
Proof.
  induction ticks as [|tk ticks IH]; intros st.
  - cbn. split; [reflexivity|]. split; [reflexivity|discriminate].
  - rewrite loop_cons. pose proof (body_keys args rect writer tk st) as Hk.
    destruct (body tk st) as [[evs st'] [[]|e]]; destruct Hk as (Hr & Hs & Hq);
      [specialize (IH st'); destruct (loop ticks st') as [[evs' st''] r];
       destruct IH as (IHr & IHs & IHq)|..];
      cbn [forallb]; rewrite !andb_true_iff, !negb_true_iff;
      unfold is_toggle, is_snapshot; rewrite !Z.eqb_neq.
    + split; [|split].
      * intros [H1 H2]. rewrite (IHr H2). exact (Hr H1).
      * intros [H1 H2]. rewrite map_app, count_app, (Hs H1), (IHs H2). reflexivity.
      * intros [_ H2]. exact (IHq H2).
    + rewrite app_nil_r. split; [|split].
      * intros [H1 _]. exact (Hr H1).
      * intros [H1 _]. exact (Hs H1).
      * intros [H1 _]. rewrite (Hq eq_refl) in H1. discriminate H1.
    + split; [|split].
      * intros [H1 _]. exact (Hr H1).
      * intros [H1 _]. exact (Hs H1).
      * discriminate.
Qed.

End RunFacts.

(** ** Whole runs, by what the environment does *)
Section WholeRunFacts.
Import Py Main Observe.

Variable args : Args.
Variable env : Env.

Lemma main_session (rect : Rect) (fourcc : Z) (ticks : list Tick) :
  enters args env rect fourcc ->
  main args env ticks
  = session args env [MssOpen; Print (rect_msg rect)] rect fourcc ticks.
Proof. intros [Hr Hc]. unfold main. rewrite Hr, Hc. reflexivity. Qed.

(** [main] stops before the loop or enters it. *)
Lemma main_enters_or_stops (ticks : list Tick) :
  (exists rect fourcc, enters args env rect fourcc)
  \/ (exists evs e, main args env ticks = stop evs e /\ terminated e = false /\ e <> Running).
Proof.
  unfold enters, main.
  destruct (resolve args (monitors env)) as [[rect|]|e].
  - destruct (Codec.select_codec_by_ext (outfile args) (codec args)) as [fourcc|e].
    + left. eauto.
    + right. do 2 eexists. split; [reflexivity|]. split; [reflexivity|discriminate].
  - right. do 2 eexists. split; [reflexivity|]. split; [reflexivity|discriminate].
  - right. do 2 eexists. split; [reflexivity|]. split; [reflexivity|discriminate].
Qed.

(** Two lists of iterations on which the loop does the same give the same
    run. *)
Lemma main_same_loop (ticks ticks' : list Tick) :
  (forall rect, loop args rect (isOpened env) ticks (initial env)
                = loop args rect (isOpened env) ticks' (initial env)) ->
  main args env ticks = main args env ticks'.
Proof.
  intros Hl. unfold main.
  destruct (resolve args (monitors env)) as [[rect|]|e]; try reflexivity.
  destruct (Codec.select_codec_by_ext (outfile args) (codec args)) as [fourcc|e];
    [|reflexivity].
  unfold session. rewrite (Hl rect). reflexivity.
Qed.

Lemma loop_calm_then (rect : Rect) (pre : list Tick) (tk : Tick) (rest : list Tick) :
  forallb calm pre = true ->
  (forall st, loop args rect (isOpened env) (tk :: rest) st
              = loop args rect (isOpened env) [tk] st) ->
  loop args rect (isOpened env) (pre ++ tk :: rest) (initial env)
  = loop args rect (isOpened env) (pre ++ [tk]) (initial env).
Proof.
  intros Hc Heq. rewrite !loop_calm_app by exact Hc.
  destruct (loop args rect (isOpened env) pre (initial env)) as [[evs st1] r1].
  rewrite Heq. reflexivity.
Qed.

(** X12: the quit key ends the run.  After any number of iterations in
    which nothing raises and no key quits, an iteration in which nothing
    raises and the key is "q" or ESC is the last one: what the environment
    would answer afterwards changes nothing, the run is not left running,
    and if [main] got as far as the loop it ends by [Quit], having grabbed
    one frame per iteration, the quitting one included. *)
Theorem quit_ends_the_run (pre : list Tick) (tk : Tick) (rest : list Tick) :
  forallb calm pre = true -> fault tk = None -> is_quit tk = true ->
  main args env (pre ++ tk :: rest) = main args env (pre ++ [tk])
  /\ exit (main args env (pre ++ tk :: rest)) <> Running
  /\ (forall rect fourcc, enters args env rect fourcc ->
        exit (main args env (pre ++ tk :: rest)) = Quit
        /\ count is_grab (trace (main args env (pre ++ tk :: rest))) = S (length pre)).
Proof.
  intros Hc Hf Hq.
  assert (Hsame : main args env (pre ++ tk :: rest) = main args env (pre ++ [tk])).
  { apply main_same_loop. intros rect. apply loop_calm_then; [exact Hc|].
    intros st. apply loop_quit; assumption. }
  assert (Hin : forall rect fourcc, enters args env rect fourcc ->
            exit (main args env (pre ++ [tk])) = Quit
            /\ count is_grab (trace (main args env (pre ++ [tk]))) = S (length pre)).
  { intros rect fourcc Hen. rewrite (main_session rect fourcc _ Hen).
    rewrite session_exit, session_count_loop by (intros; reflexivity).
    rewrite loop_calm_app by exact Hc.
    pose proof (loop_calm args rect (isOpened env) pre (initial env) Hc) as Hpre.
    destruct (loop args rect (isOpened env) pre (initial env)) as [[evs st1] r1].
    destruct Hpre as (_ & Hg & _).
    pose proof (body_calm_or_quit args rect (isOpened env) tk st1 Hf) as Hb.
    rewrite loop_cons.
    destruct (body args rect (isOpened env) tk st1) as [[evs' st2] r].
    destruct Hb as (Hg' & _ & _ & -> & _). rewrite Hq. cbn [fst snd].
    split; [reflexivity|].
    rewrite app_nil_r, map_app, count_app, Hg, Hg'. lia. }
  rewrite Hsame. split; [reflexivity|]. split; [|exact Hin].
  destruct (main_enters_or_stops (pre ++ [tk]))
    as [(rect & fourcc & Hen) | (evs & e & Hm & _ & He)].
  - rewrite (proj1 (Hin rect fourcc Hen)). discriminate.
  - rewrite Hm. exact He.
Qed.

(** X11: left alone, the loop goes on.  In a run that got as far as the
    loop, after iterations in which nothing raises and no key quits the
    loop has not ended and nothing is torn down; every iteration grabbed,
    showed and polled exactly once; and [recording] is on exactly if "r"
    was pressed an odd number of times. *)
Theorem loop_goes_on (ticks : list Tick) (rect : Rect) (fourcc : Z) :
  forallb calm ticks = true -> enters args env rect fourcc ->
  let r := main args env ticks in
  exit r = Running /\ teardown r = []
  /\ count is_grab (trace r) = length ticks
  /\ count is_imshow (trace r) = length ticks
  /\ count is_waitkey (trace r) = length ticks
  /\ (recording <$> locals r) = Some (Nat.odd (length (List.filter is_toggle ticks))).
Proof.
  intros Hc Hen r. subst r. rewrite (main_session rect fourcc _ Hen).
  destruct (session_after args env ticks rect fourcc) as (Ht & _).
  rewrite session_exit, session_locals, Ht.
  rewrite !session_count_loop by (intros; reflexivity).
  pose proof (loop_calm args rect (isOpened env) ticks (initial env) Hc) as Hl.
  destruct (loop args rect (isOpened env) ticks (initial env)) as [[evs st1] r1].
  destruct Hl as (-> & Hg & Hi & Hw & Hrec). cbn [fst snd].
  repeat split; try assumption.
  cbn. rewrite Hrec. reflexivity.
Qed.

(** X10: nothing is written to the video before the toggle key is pressed:
    a run in which no key is "r" writes no frame, whatever raises and
    whether or not the writer opened. *)
Theorem idle_until_toggled (ticks : list Tick) :
  forallb (fun tk => negb (is_toggle tk)) ticks = true ->
  count is_write (trace (main args env ticks)) = 0%nat.
Proof.
  intros Hno.
  destruct (main_cases args env ticks)
    as [(evs & e & -> & _ & [->|[msg ->]]) | (rect & fourcc & _ & ->)];
    try reflexivity.
  rewrite session_count_loop by (intros; reflexivity).
  apply (loop_idle args rect (isOpened env) ticks (initial env) eq_refl Hno).
Qed.

(** X9: each command needs its key, whatever else happens and whatever
    raises: in a run with no "r" recording is still off at the end, in a
    run with no "s" no image file is written, and a run with neither "q"
    nor ESC does not end by quitting.  The keys are taken modulo 256, as
    the loop does. *)
Theorem commands_need_their_keys (ticks : list Tick) :
  let r := main args env ticks in
  (forallb (fun tk => negb (is_toggle tk)) ticks = true ->
   forall st, locals r = Some st -> recording st = false)
  /\ (forallb (fun tk => negb (is_snapshot tk)) ticks = true ->
      count is_imwrite (trace r) = 0%nat)
  /\ (forallb (fun tk => negb (is_quit tk)) ticks = true -> exit r <> Quit).
Proof.
  cbn zeta.
  destruct (main_enters_or_stops ticks)
    as [(rect & fourcc & Hen) | (evs & e & Hm & _ & _)].
  2:{ unfold main in *.
      destruct (resolve args (monitors env)) as [[rect|]|e0];
        [destruct (Codec.select_codec_by_ext (outfile args) (codec args))
           as [fourcc|e0]|..];
        try (split; [intros _ st Hst; discriminate Hst|];
             split; [reflexivity|discriminate]).
      exfalso. revert Hm. unfold session, stop.
      destruct (loop args rect (isOpened env) ticks (initial env)) as [[its st] r].
      discriminate. }
  rewrite (main_session rect fourcc _ Hen).
  rewrite session_locals, session_exit, session_count_loop by (intros; reflexivity).
  pose proof (loop_keys args rect (isOpened env) ticks (initial env)) as Hk.
  destruct (loop args rect (isOpened env) ticks (initial env)) as [[its st1] r].
  destruct Hk as (Hr & Hs & Hq). cbn [fst snd]. split; [|split].
  - intros H st [= <-]. exact (Hr H).
  - intros H. exact (Hs H).
  - intros H. specialize (Hq H).
    destruct r as [[]|[]]; congruence.
Qed.

End WholeRunFacts.

Section WholeRunWitnesses.
Import Py Main Observe.

Lemma sample_enters (opened : bool) :
  enters Sample.args (Sample.env opened)
    {| left := 0; top := 0; width := 1920; height := 1080 |} Codec.mp4v.
Proof. split; reflexivity. Qed.

Lemma commands_need_their_keys_witness :
  let ticks := [Sample.tick 100.05 (-1) None; Sample.tick 100.1 (ord "x") None] in
  let r := main Sample.args (Sample.env true) ticks in
  (forall st, locals r = Some st -> recording st = false)
  /\ count is_imwrite (trace r) = 0%nat /\ exit r <> Quit.
Proof.
  intros ticks r.
  destruct (commands_need_their_keys Sample.args (Sample.env true) ticks)
    as (Hr & Hs & Hq).
  split; [exact (Hr eq_refl)|]. split; [exact (Hs eq_refl)|exact (Hq eq_refl)].
Defined.

Lemma quit_ends_the_run_witness :
  let pre := [Sample.tick 100.05 (ord "r") None; Sample.tick 100.1 (ord "s") None] in
  let tk := Sample.tick 100.15 (ord "q") None in
  let rest := [Sample.tick 100.2 (-1) None] in
  let r := main Sample.args (Sample.env true) (pre ++ tk :: rest) in
  r = main Sample.args (Sample.env true) (pre ++ [tk])
  /\ exit r = Quit /\ count is_grab (trace r) = 3%nat.
Proof.
  intros pre tk rest r.
  destruct (quit_ends_the_run Sample.args (Sample.env true) pre tk rest
              eq_refl eq_refl eq_refl) as (Hsame & _ & Hin).
  split; [exact Hsame|]. exact (Hin _ _ (sample_enters true)).
Defined.

Lemma loop_goes_on_witness :
  let r := main Sample.args (Sample.env true) Sample.record5 in
  exit r = Running /\ teardown r = []
  /\ count is_grab (trace r) = 5%nat
  /\ count is_imshow (trace r) = 5%nat
  /\ count is_waitkey (trace r) = 5%nat
  /\ (recording <$> locals r) = Some true.
Proof.
  exact (loop_goes_on Sample.args (Sample.env true) Sample.record5 _ _
           eq_refl (sample_enters true)).
Defined.

Lemma idle_until_toggled_witness :
  count is_write
    (trace (main Sample.args (Sample.env true)
              [Sample.tick 100.05 (ord "s") None; Sample.tick 100.1 (-1) None]))
  = 0%nat.
Proof.
  exact (idle_until_toggled Sample.args (Sample.env true)
           [Sample.tick 100.05 (ord "s") None; Sample.tick 100.1 (-1) None] eq_refl).
Defined.

End WholeRunWitnesses.

(** ** What is printed *)
Section MessageFacts.
Import Py Main Observe.

Lemma body_prints_ok (args : Args) (rect : Rect) (writer : bool) (tk : Tick) (st : Locals) :
  Forall loop_prints_ok (body args rect writer tk st).1.1.
Proof.
  destruct (update_total (measured_fps st) (now tk - last_time st)%float) as [m Hm].
  destruct (wait_ms_total (fps args)) as (t & _ & Hw).
  exec_body tk st Hm Hw.
  all: repeat (constructor; [first [exact I | cbn; unfold loop_message; eauto 6]|]);
    constructor.
Qed.

(** A property of every event of every iteration is one of every event of
    the loop. *)
Lemma loop_Forall (P : Locals * event -> Prop) (args : Args) (rect : Rect) (writer : bool) :
  (forall tk st, Forall P (body args rect writer tk st).1.1) ->
  forall ticks st, Forall P (loop args rect writer ticks st).1.1.
Proof.
  intros Hb ticks st. apply Forall_forall. intros x Hx.
  apply list_elem_of_In in Hx.
  destruct (loop_In args rect writer ticks st x Hx) as (tk & st0 & Hin & _).
  specialize (Hb tk st0). rewrite Forall_forall in Hb.
  apply Hb, list_elem_of_In, Hin.
Qed.

(** A message the loop never prints is not in its events. *)
Lemma loop_never_prints (msg : string) (evs : list (Locals * event)) :
  (forall m, loop_message m -> String.eqb m msg = false) ->
  Forall loop_prints_ok evs -> count (prints msg) (map snd evs) = 0%nat.
Proof.
  intros Hmsg. induction 1 as [|[st e] evs Hx _ IH]; [reflexivity|].
  unfold count in *. cbn [map snd List.filter].
  destruct e; cbn [prints]; try exact IH.
  rewrite (Hmsg msg0 Hx). exact IH.
Qed.

Lemma not_loop_message (msg : string) :
  String.eqb "Recording started." msg = false ->
  String.eqb "Recording stopped." msg = false ->
  String.eqb "Quitting." msg = false ->
  (forall name, String.eqb ("Saved screenshot: " +:+ name) msg = false) ->
  forall m, loop_message m -> String.eqb m msg = false.
Proof.
  intros H1 H2 H3 H4 m [->|[->|[->|[name ->]]]]; auto.
Qed.

Lemma warning_not_loop_message m : loop_message m -> String.eqb m warning_msg = false.
Proof. apply not_loop_message; reflexivity. Qed.

Lemma interrupted_not_loop_message m :
  loop_message m -> String.eqb m interrupted_msg = false.
Proof. apply not_loop_message; reflexivity. Qed.

Lemma saved_not_loop_message args m :
  loop_message m -> String.eqb m (saved_msg args) = false.
Proof. apply not_loop_message; reflexivity. Qed.

Lemma rect_msg_is_not (r : Rect) (msg : string) :
  (forall s, String.eqb (String "C" s) msg = false) ->
  String.eqb (rect_msg r) msg = false.
Proof. intros H. unfold rect_msg. cbn [String.append]. apply H. Qed.

End MessageFacts.

Section EndingFacts.
Import Py Main Observe.

Variable args : Args.
Variable env : Env.

(** How often a message that the loop never prints occurs in a run that
    got as far as the loop: in the setup and the teardown only. *)
Lemma session_count_message (msg : string) (rect : Rect) (fourcc : Z) (ticks : list Tick) :
  (forall m, loop_message m -> String.eqb m msg = false) ->
  let s := session args env [MssOpen; Print (rect_msg rect)] rect fourcc ticks in
  count (prints msg) (trace s)
  = (count (prints msg) (setup s) + count (prints msg) (teardown s))%nat.
Proof.
  intros Hmsg s. unfold trace. rewrite !count_app.
  subst s. rewrite session_iterations.
  rewrite (loop_never_prints msg _ Hmsg); [lia|].
  apply loop_Forall. intros tk st. apply body_prints_ok.
Qed.

Lemma session_setup_message (msg : string) (rect : Rect) (fourcc : Z)
    (ticks : list Tick) :
  String.eqb (rect_msg rect) msg = false ->
  count (prints msg)
    (setup (session args env [MssOpen; Print (rect_msg rect)] rect fourcc ticks))
  = (if isOpened env then 0 else if String.eqb warning_msg msg then 1 else 0)%nat.
Proof.
  intros Hrect. unfold session.
  destruct (loop args rect (isOpened env) ticks (initial env)) as [[its st] r].
  cbn [setup]. unfold count. destruct (isOpened env);
    cbn [List.filter app prints length]; rewrite Hrect; [reflexivity|].
  destruct (String.eqb warning_msg msg); reflexivity.
Qed.

Lemma until_raise_count_0 (p : event -> bool) (raises : exit_site -> option exn)
    (calls : list (exit_site * event)) :
  count p (map snd calls) = 0%nat -> count p (until_raise raises calls) = 0%nat.
Proof.
  intros H. destruct (until_raise_prefix raises calls) as (rest & Hc & _).
  rewrite Hc, count_app in H. lia.
Qed.

(** X13: the first exception ends the run.  After any number of iterations
    in which nothing raises and no key quits, an iteration in which an
    exception surfaces at a place every iteration reaches is the last one:
    what the environment would answer afterwards changes nothing and the
    run is not left running.  If [main] got as far as the loop, Ctrl-C
    ends the loop through the handler, with "Interrupted by user." printed
    once, unless that very [print] raises; any other exception ends it
    with that exception pending, and the message is not printed. *)
Theorem first_exception_ends_the_run
    (pre : list Tick) (tk : Tick) (rest : list Tick) (s : site) (e : exn) :
  forallb calm pre = true -> fault tk = Some (s, e) -> always_reached s = true ->
  main args env (pre ++ tk :: rest) = main args env (pre ++ [tk])
  /\ exit (main args env (pre ++ tk :: rest)) <> Running
  /\ (forall rect fourcc, enters args env rect fourcc ->
        exit (main args env (pre ++ tk :: rest)) = ending_of e
        /\ count (prints interrupted_msg) (trace (main args env (pre ++ tk :: rest)))
           = (if interrupts e && returns env AtInterrupted then 1 else 0)%nat).
Proof.
  intros Hc Hf Hs.
  assert (Hsame : main args env (pre ++ tk :: rest) = main args env (pre ++ [tk])).
  { apply main_same_loop. intros rect. apply loop_calm_then; [exact Hc|].
    intros st. eapply loop_raise; eassumption. }
  assert (Hin : forall rect fourcc, enters args env rect fourcc ->
            exit (main args env (pre ++ [tk])) = ending_of e
            /\ count (prints interrupted_msg) (trace (main args env (pre ++ [tk])))
               = (if interrupts e && returns env AtInterrupted then 1 else 0)%nat).
  { intros rect fourcc Hen. rewrite (main_session args env rect fourcc _ Hen).
    rewrite (session_count_message interrupted_msg rect fourcc (pre ++ [tk])
               interrupted_not_loop_message).
    rewrite session_setup_message by (apply rect_msg_is_not; reflexivity).
    rewrite session_exit, session_teardown_calls.
    rewrite loop_calm_app by exact Hc.
    destruct (loop args rect (isOpened env) pre (initial env)) as [[evs st1] r1].
    destruct (loop_raise args rect (isOpened env) tk [] st1 s e Hf Hs) as [_ Hr].
    destruct (loop args rect (isOpened env) [tk] st1) as [[evs' st2] r].
    cbn [snd] in Hr. subst r. cbn [snd].
    rewrite count_app, (until_raise_count_0 (prints interrupted_msg))
      by (unfold finally; destruct (isOpened env); reflexivity).
    unfold returns.
    destruct e; cbn [ending_of interrupts andb];
      try destruct (closing env AtInterrupted);
      (split; [reflexivity|]); destruct (isOpened env); reflexivity. }
  rewrite Hsame. split; [reflexivity|]. split; [|exact Hin].
  destruct (main_enters_or_stops args env (pre ++ [tk]))
    as [(rect & fourcc & Hen) | (evs & e0 & Hm & _ & He)].
  - rewrite (proj1 (Hin rect fourcc Hen)). destruct e; discriminate.
  - rewrite Hm. exact He.
Qed.

(** X7: in a run that gets as far as the video writer, the warning about
    the writer is printed exactly once if the writer did not open, and
    never otherwise: not once per frame, whatever the iterations do. *)
Theorem warning_printed_once (rect : Rect) (fourcc : Z) (ticks : list Tick) :
  enters args env rect fourcc ->
  count (prints warning_msg) (trace (main args env ticks))
  = (if isOpened env then 0 else 1)%nat.
Proof.
  intros Hen. rewrite (main_session args env rect fourcc _ Hen).
  rewrite (session_count_message warning_msg rect fourcc ticks warning_not_loop_message).
  rewrite session_setup_message by (apply rect_msg_is_not; reflexivity).
  rewrite session_teardown_0;
    [|reflexivity|unfold finally; destruct (isOpened env); reflexivity].
  destruct (isOpened env); reflexivity.
Qed.

(** X14: when a run ends after the loop, "Saved video to <outfile>" is
    printed exactly once if the writer had opened and both
    [writer.release()] and that [print] return, and not at all otherwise,
    whether or not a frame was ever written to the video. *)
Theorem saved_message_follows_the_writer (ticks : list Tick) :
  let r := main args env ticks in
  terminated (exit r) = true ->
  count (prints (saved_msg args)) (trace r)
  = (if isOpened env && returns env AtRelease && returns env AtSaved
     then 1 else 0)%nat.
Proof.
  intros r Ht. subst r.
  destruct (main_enters_or_stops args env ticks)
    as [(rect & fourcc & Hen) | (evs & e0 & Hm & He & _)].
  2:{ rewrite Hm in Ht. cbn in Ht. congruence. }
  rewrite (main_session args env rect fourcc _ Hen) in *.
  rewrite (session_count_message (saved_msg args) rect fourcc ticks
             (saved_not_loop_message args)).
  rewrite session_setup_message by (apply rect_msg_is_not; reflexivity).
  rewrite session_exit in Ht. rewrite session_teardown_calls.
  assert (Hself : String.eqb ("Saved video to " +:+ outfile args) (saved_msg args) = true)
    by apply String.eqb_refl.
  assert (Hcut : count (prints (saved_msg args))
                   (until_raise (closing env) (finally args (isOpened env)))
                 = (if isOpened env && returns env AtRelease && returns env AtSaved
                    then 1 else 0)%nat).
  { unfold finally, returns, count. destruct (isOpened env); cbn [app until_raise andb].
    - destruct (closing env AtRelease); [reflexivity|].
      destruct (closing env AtSaved); [reflexivity|].
      destruct (closing env AtDestroy); [cbn; rewrite Hself; reflexivity|].
      destruct (closing env AtClose); cbn; rewrite Hself; reflexivity.
    - destruct (closing env AtDestroy); [reflexivity|].
      destruct (closing env AtClose); reflexivity. }
  assert (Hw : (if isOpened env then 0
                else if String.eqb warning_msg (saved_msg args) then 1 else 0)%nat
               = 0%nat) by (destruct (isOpened env); reflexivity).
  rewrite Hw.
  destruct ((loop args rect (isOpened env) ticks (initial env)).2) as [[]|e];
    [exact Hcut|discriminate Ht|].
  rewrite count_app, Hcut.
  destruct e; try reflexivity.
  destruct (closing env AtInterrupted); reflexivity.
Qed.

End EndingFacts.

Section EndingWitnesses.
Import Py Main Observe.

Lemma first_exception_ends_the_run_witness :
  let pre := [Sample.tick 100.05 (ord "r") None; Sample.tick 100.1 (ord "s") None] in
  let tk := Sample.tick 100.15 (-1) (Some (AtWaitKey, KeyboardInterrupt)) in
  let rest := [Sample.tick 100.2 (ord "q") None] in
  let r := main Sample.args (Sample.env true) (pre ++ tk :: rest) in
  r = main Sample.args (Sample.env true) (pre ++ [tk])
  /\ exit r = Interrupted /\ count (prints interrupted_msg) (trace r) = 1%nat.
Proof.
  intros pre tk rest r.
  destruct (first_exception_ends_the_run Sample.args (Sample.env true) pre tk rest
              AtWaitKey KeyboardInterrupt eq_refl eq_refl eq_refl)
    as (Hsame & _ & Hin).
  split; [exact Hsame|]. exact (Hin _ _ (sample_enters true)).
Defined.

Lemma warning_printed_once_witness :
  count (prints warning_msg) (trace (main Sample.args (Sample.env false) Sample.record5))
  = 1%nat.
Proof.
  exact (warning_printed_once Sample.args (Sample.env false) _ _ Sample.record5
           (sample_enters false)).
Defined.

Lemma saved_message_follows_the_writer_witness :
  let ticks := [Sample.tick 100.05 (ord "q") None] in
  let r := main Sample.args (Sample.env true) ticks in
  let r' := main Sample.args (Sample.env_broken_pipe true) ticks in
  (count is_write (trace r) = 0%nat
   /\ count (prints "Saved video to capture.mp4") (trace r) = 1%nat)
  /\ count (prints "Saved video to capture.mp4") (trace r') = 0%nat.
Proof.
  intros ticks r r'. split; [split; [reflexivity|]|].
  - exact (saved_message_follows_the_writer Sample.args (Sample.env true) ticks eq_refl).
  - exact (saved_message_follows_the_writer Sample.args (Sample.env_broken_pipe true)
             ticks eq_refl).
Defined.

End EndingWitnesses.

Section OverlayFacts.
Import Py Main Observe.

(** X15: the overlay is part of the recording.  In a run that got as far
    as the loop, every frame written to the video carries the three texts
    drawn on it, the status being the one for recording on, the rate being
    the estimate of that moment and the help line at 10 pixels from the
    bottom of the capture; and it is the frame the preview was given in
    the same state. *)
Theorem recorded_frames_carry_overlay
    (args : Args) (env : Env) (ticks : list Tick) (rect : Rect) (fourcc : Z) :
  enters args env rect fourcc ->
  forall st f, In (st, WriterWrite f) (iterations (main args env ticks)) ->
    texts f = [(Status true, (10, 30)); (Fps (measured_fps st), (10, 60));
               (Help, (10, height rect - 10))]
    /\ In (st, Imshow f) (iterations (main args env ticks)).
Proof.
  intros Hen st f Hin. rewrite (main_session args env rect fourcc _ Hen) in *.
  rewrite session_iterations in *.
  destruct (loop_In args rect (isOpened env) ticks (initial env) _ Hin)
    as (tk & st0 & Hb & Hall).
  pose proof (body_shows_state args rect (isOpened env) tk st0) as Hshow.
  pose proof (body_events_ok args rect (isOpened env) tk st0) as Hok.
  rewrite Forall_forall in Hshow, Hok.
  pose proof (Hshow _ (proj2 (list_elem_of_In _ _) Hb)) as Ht.
  pose proof (Hok _ (proj2 (list_elem_of_In _ _) Hb)) as [Hrec _].
  cbn in Ht, Hrec. unfold overlay_texts in Ht. rewrite Hrec in Ht.
  split; [exact Ht|].
  apply Hall.
  exact (body_written_was_shown args rect (isOpened env) tk st0 _ Hb f eq_refl).
Qed.

End OverlayFacts.

Section OverlayWitnesses.
Import Py Main Observe.
#[local] Open Scope float_scope.

Lemma recorded_frames_carry_overlay_witness :
  let r := main Sample.args (Sample.env true) Sample.record5 in
  let st := {| recording := true; last_time := 100.05; frame_count := 0;
               measured_fps := 0 * 0.9 + (1 / (100.05 - 100)) * 0.1 |} in
  let f := overlay st 1080 (cvtColor [[(10, 20, 30, 255)%Z]]) in
  In (st, WriterWrite f) (iterations r)
  /\ texts f = [(Status true, (10, 30)%Z); (Fps (measured_fps st), (10, 60)%Z);
                (Help, (10, 1080 - 10)%Z)]
  /\ In (st, Imshow f) (iterations r).
Proof.
  intros r st f.
  assert (Hin : In (st, WriterWrite f) (iterations r))
    by (vm_compute; do 6 right; left; reflexivity).
  split; [exact Hin|].
  exact (recorded_frames_carry_overlay Sample.args (Sample.env true) Sample.record5
           _ _ (sample_enters true) st f Hin).
Defined.

End OverlayWitnesses.

Section OverrideFacts.
Import Py Main Codec Observe.

(** X4: a non-empty codec override that is not four characters long stops
    [main] with a [TypeError] after the capture handle was acquired and the
    rectangle printed: no video writer and no window are ever opened, no
    iteration runs, and nothing is torn down. *)
Theorem bad_codec_stops_before_the_writer
    (args : Args) (env : Env) (ticks : list Tick) (rect : Rect) (s : string) :
  resolve args (monitors env) = Ok (Some rect) ->
  codec args = Some s -> s <> "" -> String.length s <> 4%nat ->
  main args env ticks = stop [MssOpen; Print (rect_msg rect)] (SetupRaised TypeError).
Proof.
  intros Hres Hc Hne Hlen. unfold main. rewrite Hres, Hc.
  rewrite (codec_override_wrong_length (outfile args) s Hne Hlen). reflexivity.
Qed.

Lemma fourcc_ok_four (s : string) (c : Z) :
  VideoWriter_fourcc s = Ok c ->
  exists c1 c2 c3 c4,
    s = String c1 (String c2 (String c3 (String c4 EmptyString)))
    /\ c = CV_FOURCC c1 c2 c3 c4.
Proof.
  destruct s as [|c1 [|c2 [|c3 [|c4 [|c5 s]]]]]; cbn; intros H; try discriminate H.
  injection H as <-. eauto 6.
Qed.

(** X3: different overrides select different codecs.  If two non-empty
    overrides give the same codec identifier without error, they are the
    same string, whatever the file names. *)
Theorem override_determined_by_code (f1 f2 s1 s2 : string) (c : Z) :
  s1 <> "" -> s2 <> "" ->
  select_codec_by_ext f1 (Some s1) = Ok c ->
  select_codec_by_ext f2 (Some s2) = Ok c ->
  s1 = s2.
Proof.
  intros H1 H2. unfold select_codec_by_ext, truthy.
  destruct (String.eqb_spec s1 "") as [|_]; [congruence|].
  destruct (String.eqb_spec s2 "") as [|_]; [congruence|].
  cbn. intros Hc1 Hc2.
  apply fourcc_ok_four in Hc1 as (a1 & a2 & a3 & a4 & -> & ->).
  apply fourcc_ok_four in Hc2 as (b1 & b2 & b3 & b4 & -> & Heq).
  apply CV_FOURCC_inj in Heq as (-> & -> & -> & ->). reflexivity.
Qed.

Lemma bad_codec_stops_before_the_writer_witness :
  let args := {| outfile := "capture.mp4"; fps := 20; monitor := 1;
                 region := None; codec := Some "h264x" |} in
  main args (Sample.env true) Sample.record5
  = stop [MssOpen;
          Print (rect_msg {| left := 0; top := 0; width := 1920; height := 1080 |})]
      (SetupRaised TypeError).
Proof.
  intros args.
  apply (bad_codec_stops_before_the_writer args (Sample.env true) Sample.record5
           {| left := 0; top := 0; width := 1920; height := 1080 |} "h264x").
  - reflexivity.
  - reflexivity.
  - discriminate.
  - simpl. lia.
Defined.

Lemma override_determined_by_code_witness :
  select_codec_by_ext "a.mp4" (Some "XVID") = Ok XVID
  /\ select_codec_by_ext "b.avi" (Some "XVID") = Ok XVID
  /\ "XVID" = "XVID".
Proof.
  split; [reflexivity|]. split; [reflexivity|].
  apply (override_determined_by_code "a.mp4" "b.avi" "XVID" "XVID" XVID).
  - discriminate.
  - discriminate.
  - reflexivity.
  - reflexivity.
Defined.

End OverrideFacts.

(** ** File names and their extensions *)
Section PathFacts.
Import Py OsPath Codec PathShape.

Lemma rfind_from_app (c : ascii) (l1 l2 : list ascii) : forall i found,
  rfind_from c (l1 ++ l2) i found
  = rfind_from c l2 (i + Z.of_nat (length l1)) (rfind_from c l1 i found).
Proof.
  induction l1 as [|x l1 IH]; intros i found; cbn [app rfind_from length].
  - f_equal. lia.
  - rewrite IH. f_equal. lia.
Qed.

Lemma rfind_from_absent (c : ascii) (l : list ascii) : forall i found,
  ~ In c l -> rfind_from c l i found = found.
Proof.
  induction l as [|x l IH]; intros i found Hn; [reflexivity|].
  cbn [rfind_from]. destruct (Ascii.eqb_spec x c) as [->|_].
  - exfalso. apply Hn. left. reflexivity.
  - apply IH. intros H. apply Hn. right. exact H.
Qed.

Lemma rfind_from_range (c : ascii) (l : list ascii) : forall i found,
  rfind_from c l i found = found
  \/ i <= rfind_from c l i found < i + Z.of_nat (length l).
Proof.
  induction l as [|x l IH]; intros i found; [left; reflexivity|].
  cbn [rfind_from length].
  destruct (IH (i + 1) (if Ascii.eqb x c then i else found)) as [->|H].
  - destruct (Ascii.eqb x c); [right; lia|left; reflexivity].
  - right. lia.
Qed.

Lemma has_non_dot_app (l1 l2 : list ascii) :
  has_non_dot (l1 ++ l2) = has_non_dot l1 || has_non_dot l2.
Proof.
  induction l1 as [|x l1 IH]; [reflexivity|].
  cbn [app has_non_dot]. destruct (Ascii.eqb x "."); [exact IH|reflexivity].
Qed.

Lemma list_ascii_of_string_app (a b : string) :
  list_ascii_of_string (a +:+ b) = list_ascii_of_string a ++ list_ascii_of_string b.
Proof.
  induction a as [|c a IH]; [reflexivity|].
  cbn [list_ascii_of_string app]. rewrite <- IH. reflexivity.
Qed.

Lemma string_of_list_ascii_app (l1 l2 : list ascii) :
  string_of_list_ascii (l1 ++ l2) = string_of_list_ascii l1 +:+ string_of_list_ascii l2.
Proof.
  induction l1 as [|c l1 IH]; [reflexivity|].
  cbn [string_of_list_ascii app]. rewrite IH. reflexivity.
Qed.

Lemma rfind_range (c : ascii) (l : list ascii) :
  -1 <= rfind c l < Z.of_nat (length l).
Proof. unfold rfind. destruct (rfind_from_range c l 0 (-1)) as [->|H]; lia. Qed.

(** [splitext] on the characters of a path: the last component is what
    follows the last separator of [D], then [S]; the last dot is the one
    before [E]. *)
Lemma splitext_chars (D S E : list ascii) :
  ~ In "/"%char S -> ~ In "/"%char E -> ~ In "."%char E ->
  let p := string_of_list_ascii (D ++ S ++ "."%char :: E) in
  splitext p
  = if has_non_dot (drop (Z.to_nat (rfind "/" D + 1)) D ++ S)
    then (string_of_list_ascii (D ++ S), string_of_list_ascii ("."%char :: E))
    else (p, "").
Proof.
  intros HS HE1 HE2 p. unfold splitext. subst p.
  rewrite list_ascii_of_string_of_list_ascii.
  pose proof (rfind_range "/" D) as Hk. set (k := rfind "/" D) in *.
  assert (Hsep : rfind "/" (D ++ S ++ "."%char :: E) = k).
  { unfold rfind. rewrite rfind_from_app. apply rfind_from_absent.
    intros H. apply in_app_or in H as [H|[H|H]]; [tauto|discriminate H|tauto]. }
  assert (Hdot : rfind "." (D ++ S ++ "."%char :: E) = Z.of_nat (length D + length S)).
  { unfold rfind. rewrite app_assoc, rfind_from_app. cbn [rfind_from].
    rewrite Ascii.eqb_refl, rfind_from_absent by exact HE2.
    rewrite length_app. lia. }
  rewrite Hsep, Hdot.
  assert (Hlt : (k <? Z.of_nat (length D + length S)) = true) by (apply Z.ltb_lt; lia).
  rewrite Hlt.
  assert (Hbetween :
            take (Z.to_nat (Z.of_nat (length D + length S) - (k + 1)))
                 (drop (Z.to_nat (k + 1)) (D ++ S ++ "."%char :: E))
            = drop (Z.to_nat (k + 1)) D ++ S).
  { rewrite drop_app_le by lia. rewrite app_assoc.
    rewrite take_app_length'; [reflexivity|].
    rewrite length_app, length_drop. lia. }
  rewrite Hbetween. rewrite Nat2Z.id.
  destruct (has_non_dot (drop (Z.to_nat (k + 1)) D ++ S)); [|reflexivity].
  rewrite app_assoc, <- length_app, take_app_length, drop_app_length. reflexivity.
Qed.

Lemma path_chars (dir stem e : string) :
  dir +:+ stem +:+ String "." e
  = string_of_list_ascii
      (list_ascii_of_string dir ++ list_ascii_of_string stem
       ++ "."%char :: list_ascii_of_string e).
Proof.
  rewrite !string_of_list_ascii_app. cbn [string_of_list_ascii].
  rewrite !string_of_list_ascii_of_string. reflexivity.
Qed.

(** The extension of a file name is what follows its last dot, provided
    the name proper has a character that is not a dot: [dir] is any prefix,
    [stem] the end of the last component before the dot. *)
Lemma splitext_of_a_name (dir stem e : string) :
  lacks "/" stem -> lacks "/" e -> lacks "." e -> ~ only_dots stem ->
  splitext (dir +:+ stem +:+ String "." e) = (dir +:+ stem, String "." e).
Proof.
  intros HS HE1 HE2 Hstem. rewrite path_chars, splitext_chars by assumption.
  rewrite has_non_dot_app.
  unfold only_dots in Hstem. apply not_false_iff_true in Hstem. rewrite Hstem, orb_true_r.
  rewrite string_of_list_ascii_app. cbn [string_of_list_ascii].
  rewrite !string_of_list_ascii_of_string. reflexivity.
Qed.

(** X1: the codec follows the end of the file name, whatever the directory
    and the letter case.  For a name [dir ++ stem ++ "." ++ e] whose [stem]
    and [e] have no separator, whose [e] has no dot and whose [stem] is not
    made of dots only, [os.path.splitext] gives the extension ["." ++ e],
    and with no override the codec is mp4v if that extension is ".mp4" or
    ".m4v" in lower case, XVID otherwise. *)
Theorem codec_follows_the_suffix (dir stem e : string) :
  lacks "/" stem -> lacks "/" e -> lacks "." e -> ~ only_dots stem ->
  let p := dir +:+ stem +:+ String "." e in
  let ext := lower (String "." e) in
  splitext p = (dir +:+ stem, String "." e)
  /\ select_codec_by_ext p None
     = Ok (if String.eqb ext ".mp4" || String.eqb ext ".m4v" then mp4v else XVID).
Proof.
  intros HS HE1 HE2 Hstem p ext.
  pose proof (splitext_of_a_name dir stem e HS HE1 HE2 Hstem) as Hsplit.
  split; [exact Hsplit|].
  unfold select_codec_by_ext. cbn [truthy]. subst p. rewrite Hsplit. cbn [snd]. fold ext.
  destruct (String.eqb ext ".mp4" || String.eqb ext ".m4v"); [reflexivity|].
  destruct (String.eqb ext ".avi"); reflexivity.
Qed.

Lemma codec_follows_the_suffix_witness :
  let p := "out/" +:+ "Demo" +:+ String "." "M4V" in
  p = "out/Demo.M4V"
  /\ splitext p = ("out/Demo", ".M4V") /\ select_codec_by_ext p None = Ok mp4v.
Proof.
  intros p. split; [reflexivity|].
  apply (codec_follows_the_suffix "out/" "Demo" "M4V").
  - unfold lacks. simpl. intuition discriminate.
  - unfold lacks. simpl. intuition discriminate.
  - unfold lacks. simpl. intuition discriminate.
  - unfold only_dots. simpl. discriminate.
Defined.

Lemma only_dots_no_slash (l : list ascii) :
  has_non_dot l = false -> ~ In "/"%char l.
Proof.
  induction l as [|x l IH]; [intros _ []|].
  cbn [has_non_dot]. destruct (Ascii.eqb_spec x ".") as [->|_]; [|discriminate].
  intros H [Hx|Hx]; [discriminate Hx|exact (IH H Hx)].
Qed.

Lemma rfind_directory (dir : string) :
  directory dir ->
  rfind "/" (list_ascii_of_string dir) + 1 = Z.of_nat (length (list_ascii_of_string dir)).
Proof.
  intros [->|[d ->]]; [reflexivity|].
  rewrite list_ascii_of_string_app. unfold rfind. rewrite rfind_from_app, length_app.
  cbn. lia.
Qed.

(** X2: a last component made of dots up to its last dot has no extension:
    for [dir] empty or ending in a separator and [dots] a string of dots,
    [os.path.splitext (dir ++ dots ++ "." ++ e)] has the empty extension,
    and with no override the codec is the fallback XVID.  A file called
    [.mp4] is not an MP4 file name. *)
Theorem dot_file_gets_the_fallback (dir dots e : string) :
  directory dir -> only_dots dots -> lacks "/" e -> lacks "." e ->
  let p := dir +:+ dots +:+ String "." e in
  splitext p = (p, "") /\ select_codec_by_ext p None = Ok XVID.
Proof.
  intros Hdir Hdots HE1 HE2 p.
  assert (Hsplit : splitext p = (p, "")).
  { subst p. rewrite path_chars.
    rewrite splitext_chars; [|apply only_dots_no_slash, Hdots|exact HE1|exact HE2].
    rewrite (rfind_directory dir Hdir), Nat2Z.id, drop_all. cbn [app].
    unfold only_dots in Hdots. rewrite Hdots. reflexivity. }
  split; [exact Hsplit|].
  unfold select_codec_by_ext. cbn [truthy]. rewrite Hsplit. reflexivity.
Qed.

Lemma dot_file_gets_the_fallback_witness :
  let p := "out/" +:+ "" +:+ String "." "mp4" in
  p = "out/.mp4" /\ splitext p = (p, "") /\ select_codec_by_ext p None = Ok XVID.
Proof.
  intros p. split; [reflexivity|].
  apply (dot_file_gets_the_fallback "out/" "" "mp4").
  - right. exists "out". reflexivity.
  - reflexivity.
  - unfold lacks. simpl. intuition discriminate.
  - unfold lacks. simpl. intuition discriminate.
Defined.

End PathFacts.

(** ** Snapshot names *)
Section NameFacts.
Import Snapshot Calendar.

Lemma digit_inj (a b : nat) : digit a = digit b -> (a mod 10 = b mod 10)%nat.
Proof.
  unfold digit. intros H.
  pose proof (Nat.mod_upper_bound a 10 ltac:(lia)) as Ha.
  pose proof (Nat.mod_upper_bound b 10 ltac:(lia)) as Hb.
  apply (f_equal nat_of_ascii) in H.
  rewrite !nat_ascii_embedding in H by lia. lia.
Qed.

Lemma append_cancel_l (p a b : string) : p +:+ a = p +:+ b -> a = b.
Proof.
  induction p as [|c p IH]; [exact id|].
  intros H. apply IH. change (String c (p +:+ a) = String c (p +:+ b)) in H.
  congruence.
Qed.

Lemma two_digits (a b : nat) :
  (a < 100)%nat -> (b < 100)%nat ->
  ((a / 10) mod 10 = (b / 10) mod 10)%nat -> (a mod 10 = b mod 10)%nat -> a = b.
Proof.
  intros Ha Hb H1 H2. apply Nat2Z.inj.
  apply (f_equal Z.of_nat) in H1, H2. apply Nat2Z.inj_lt in Ha, Hb.
  rewrite !Nat2Z.inj_mod in H1, H2. rewrite !Nat2Z.inj_div in H1.
  change (Z.of_nat 10) with 10 in *. change (Z.of_nat 100) with 100 in *.
  Z.div_mod_to_equations. lia. Qed.
Lemma four_digits (a b : nat) :
  Z.of_nat a < 10000 -> Z.of_nat b < 10000 ->
  ((a / 1000) mod 10 = (b / 1000) mod 10)%nat ->
  ((a / 100) mod 10 = (b / 100) mod 10)%nat ->
  ((a / 10) mod 10 = (b / 10) mod 10)%nat -> (a mod 10 = b mod 10)%nat -> a = b.
Proof.
  intros Ha Hb H1 H2 H3 H4. apply Nat2Z.inj.
  apply (f_equal Z.of_nat) in H1, H2, H3, H4.
  rewrite !Nat2Z.inj_mod in H1, H2, H3, H4. rewrite !Nat2Z.inj_div in H1, H2, H3.
  change (Z.of_nat 10) with 10 in *. change (Z.of_nat 100) with 100 in *.
  change (Z.of_nat 1000) with 1000 in *.
  Z.div_mod_to_equations. lia.
Qed.

(** The timestamp is fifteen characters: eight digits, an underscore, six
    digits. *)
Lemma strftime_chars (d : datetime) :
  strftime d
  = string_of_list_ascii
      [digit (year d / 1000); digit (year d / 100); digit (year d / 10); digit (year d);
       digit (month d / 10); digit (month d); digit (day d / 10); digit (day d);
       "_"%char;
       digit (hour d / 10); digit (hour d); digit (minute d / 10); digit (minute d);
       digit (second d / 10); digit (second d)].
Proof. reflexivity. Qed.

(** X5: for two moments whose date and time fields are in range, snapshots
    get the same name exactly when they are taken within the same second:
    across seconds, no snapshot replaces another. *)
Theorem same_name_same_second (prefix ext : string) (d1 d2 : datetime) :
  wellformed d1 -> wellformed d2 ->
  timestamped_name prefix ext d1 = timestamped_name prefix ext d2
  <-> same_second d1 d2.
Proof.
  intros (Hy1 & Hmo1 & Hd1 & Hh1 & Hmi1 & Hs1) (Hy2 & Hmo2 & Hd2 & Hh2 & Hmi2 & Hs2).
  split.
  - unfold timestamped_name. intros H.
    apply append_cancel_l in H. rewrite !strftime_chars in H.
    cbn [String.append string_of_list_ascii] in H.
    injection H as E1 E2 E3 E4 E5 E6 E7 E8 E9 E10 E11 E12 E13 E14.
    apply digit_inj in E1, E2, E3, E4, E5, E6, E7, E8, E9, E10, E11, E12, E13, E14.
    unfold same_second. repeat split.
    + apply four_digits; assumption || lia.
    + apply two_digits; assumption || lia.
    + apply two_digits; assumption || lia.
    + apply two_digits; assumption || lia.
    + apply two_digits; assumption || lia.
    + apply two_digits; assumption || lia.
  - intros (Hy & Hmo & Hd & Hh & Hmi & Hs). unfold timestamped_name, strftime.
    rewrite Hy, Hmo, Hd, Hh, Hmi, Hs. reflexivity.
Qed.

Lemma same_name_same_second_witness :
  let d1 := Sample.at_ 2024 3 9 7 5 59 123 in
  let d2 := Sample.at_ 2024 3 9 7 5 58 999 in
  wellformed d1 /\ wellformed d2
  /\ timestamped_name "screenshot" ".png" d1 <> timestamped_name "screenshot" ".png" d2.
Proof.
  intros d1 d2.
  assert (H1 : wellformed d1) by (unfold wellformed; cbn; lia).
  assert (H2 : wellformed d2) by (unfold wellformed; cbn; lia).
  split; [exact H1|]. split; [exact H2|].
  intros Heq.
  apply (same_name_same_second "screenshot" ".png" d1 d2 H1 H2) in Heq.
  destruct Heq as (_ & _ & _ & _ & _ & Hs). discriminate Hs.
Defined.

End NameFacts.

(** ** The quotient 1000 / fps from above *)
Section WaitBoundFacts.

Lemma pow2_split (a n : Z) : 0 <= n <= a -> 2 ^ a = 2 ^ n * 2 ^ (a - n).
Proof. intros H. rewrite <- Z.pow_add_r by lia. f_equal. lia. Qed.

Lemma shiftr_lt (m K a n : Z) :
  0 <= n <= a -> m < K * 2 ^ a -> Z.shiftr m n < K * 2 ^ (a - n).
Proof.
  intros Hn Hm. rewrite Z.shiftr_div_pow2 by lia.
  apply Z.div_lt_upper_bound; [apply Z.pow_pos_nonneg; lia|].
  rewrite (pow2_split a n Hn) in Hm. lia.
Qed.

Lemma shiftr_le (m K a n : Z) :
  0 <= n <= a -> m <= K * 2 ^ a -> Z.shiftr m n <= K * 2 ^ (a - n).
Proof.
  intros Hn Hm. rewrite Z.shiftr_div_pow2 by lia.
  apply Z.div_le_upper_bound; [apply Z.pow_pos_nonneg; lia|].
  rewrite (pow2_split a n Hn) in Hm. lia.
Qed.

Lemma below_1024 (m e : Z) : e <= 0 -> 0 <= m -> m <= 1000 * 2 ^ (- e) -> Zdigits2 m + e <= 10.
Proof.
  intros He Hm Hle.
  assert (Zdigits2 m <= 10 - e); [|lia].
  apply Zdigits2_le; [lia|]. split; [exact Hm|].
  rewrite (pow2_split (10 - e) 10) by lia. replace (10 - e - 10) with (- e) by lia.
  change (2 ^ 10) with 1024.
  assert (0 < 2 ^ (- e)) by (apply Z.pow_pos_nonneg; lia). lia.
Qed.

(** Rounding a mantissa whose value is below 1000 gives a float that is at
    most 1000. *)
Lemma binary_round_aux_le_1000 (sx : bool) (mx ex : Z) (lx : location) :
  ex <= -43 -> 0 <= mx < 1000 * 2 ^ (- ex) ->
  match binary_round_aux 53 1024 sx mx ex lx with
  | S754_zero _ => True
  | S754_finite s m e => s = sx /\ e <= 0 /\ Z.pos m <= 1000 * 2 ^ (- e)
  | _ => False
  end.
Proof.
  intros Hex [Hm Hhi]. unfold binary_round_aux.
  pose proof (shr_fexp_shift mx ex lx Hm) as B1.
  pose proof (shr_fexp_bound mx ex lx Hm) as B1'.
  destruct (shr_fexp 53 1024 mx ex lx) as [mrs' e'].
  destruct B1 as [He' Hm'], B1' as [Hm'b _].
  pose proof (below_1024 mx ex ltac:(lia) Hm ltac:(lia)) as Hd.
  assert (He'r : ex <= e' <= -43) by (unfold fexp, SpecFloat.emin in *; lia).
  assert (Hhi' : shr_m mrs' < 1000 * 2 ^ (- e')).
  { rewrite Hm'. replace (- e') with (- ex - (e' - ex)) by lia.
    apply shiftr_lt; [lia|exact Hhi]. }
  pose proof (round_nearest_even_bound (shr_m mrs') (loc_of_shr_record mrs') (proj1 Hm'b))
    as Hr.
  set (m2 := round_nearest_even (shr_m mrs') (loc_of_shr_record mrs')) in *.
  assert (Hm2 : 0 <= m2) by lia.
  pose proof (shr_fexp_shift m2 e' loc_Exact Hm2) as B2.
  destruct (shr_fexp 53 1024 m2 e' loc_Exact) as [mrs'' e''].
  destruct B2 as [He'' Hm''].
  pose proof (below_1024 m2 e' ltac:(lia) Hm2 ltac:(lia)) as Hd2.
  assert (He''r : e' <= e'' <= -43) by (unfold fexp, SpecFloat.emin in *; lia).
  assert (Hhi'' : shr_m mrs'' <= 1000 * 2 ^ (- e'')).
  { rewrite Hm''. replace (- e'') with (- e' - (e'' - e')) by lia.
    apply shiftr_le; [lia|lia]. }
  destruct (shr_m mrs'') as [|p|p] eqn:Hp; [exact I| |].
  - destruct (Z.leb_spec e'' (1024 - 53)); [|lia].
    split; [reflexivity|]. split; [lia|exact Hhi''].
  - assert (0 <= Z.shiftr m2 (e'' - e')) by (apply Z.shiftr_nonneg; exact Hm2). lia.
Qed.

(** 1000.0 divided by a float above 1.0. *)
Lemma SFdiv_1000_le_1000 (m2 : positive) (e2 : Z) :
  -52 <= e2 <= 971 -> 2 ^ 52 <= Z.pos m2 < 2 ^ 53 -> 2 ^ (- e2) < Z.pos m2 ->
  match SFdiv 53 1024 (S754_finite false 8796093022208000 (-43)) (S754_finite false m2 e2) with
  | S754_zero _ => True
  | S754_finite s m e => s = false /\ e <= 0 /\ Z.pos m <= 1000 * 2 ^ (- e)
  | _ => False
  end.
Proof.
  intros He Hm2 Hgt. unfold SFdiv, SFdiv_core_binary.
  change (Zdigits2 (Z.pos 8796093022208000)) with 53.
  assert (Hd2 : Zdigits2 (Z.pos m2) = 53).
  { apply Z.le_antisymm; [apply Zdigits2_le; lia|].
    destruct (Zdigits2_gt (Z.pos m2) ltac:(lia)) as [Hg H0].
    destruct (Z_le_gt_dec 53 (Zdigits2 (Z.pos m2))) as [|Hlt]; [assumption|exfalso].
    assert (2 ^ Zdigits2 (Z.pos m2) <= 2 ^ 52) by (apply Z.pow_le_mono_r; lia).
    lia. }
  rewrite Hd2.
  replace (Z.min (fexp 53 1024 (53 + -43 - (53 + e2))) (-43 - e2)) with (-96 - e2)
    by (unfold fexp, SpecFloat.emin; lia).
  replace (-43 - e2 - (-96 - e2)) with 53 by lia.
  pose proof (Z.div_eucl_eq (Z.shiftl 8796093022208000 53) (Z.pos m2) ltac:(lia)) as Hq.
  pose proof (Z.mod_pos_bound (Z.shiftl 8796093022208000 53) (Z.pos m2) ltac:(lia)) as Hr.
  unfold Z.modulo in Hr.
  change IntDef.Z.div_eucl with Z.div_eucl.
  destruct (Z.div_eucl (Z.shiftl 8796093022208000 53) (Z.pos m2)) as [q r].
  change (Z.shiftl 8796093022208000 53) with (1000 * 2 ^ 96) in Hq.
  change (xorb false false) with false.
  apply binary_round_aux_le_1000; [lia|].
  replace (- (-96 - e2)) with (96 + e2) by lia.
  assert (Hq0 : 0 <= q) by nia. split; [exact Hq0|].
  assert (Hp : 0 < 2 ^ (96 + e2)) by (apply Z.pow_pos_nonneg; lia).
  (* 2^96 < 2^(96+e2) * m2 *)
  assert (Hkey : 2 ^ 96 < 2 ^ (96 + e2) * Z.pos m2).
  { destruct (Z_le_gt_dec e2 0) as [Hneg|Hpos].
    - rewrite (pow2_split 96 (96 + e2)) by lia.
      replace (96 - (96 + e2)) with (- e2) by lia.
      apply Z.mul_lt_mono_pos_l; assumption.
    - assert (2 ^ 96 <= 2 ^ (96 + e2)) by (apply Z.pow_le_mono_r; lia). nia. }
  destruct (Z_lt_ge_dec q (1000 * 2 ^ (96 + e2))) as [|Hge]; [assumption|exfalso].
  assert (1000 * 2 ^ (96 + e2) * Z.pos m2 <= q * Z.pos m2)
    by (apply Z.mul_le_mono_nonneg_r; lia).
  nia.
Qed.

#[local] Open Scope float_scope.

(** A float above 1.0: +infinity, or a normal number with 53 bits. *)
Lemma above_1 (x : float) :
  (1 <? x) = true ->
  Prim2SF x = S754_infinity false
  \/ exists m e, Prim2SF x = S754_finite false m e
       /\ (-52 <= e <= 971)%Z
       /\ (2 ^ 52 <= Z.pos m < 2 ^ 53)%Z
       /\ (2 ^ (- e) < Z.pos m)%Z.
Proof.
  rewrite FloatAxioms.ltb_spec.
  pose proof (Prim2SF_valid x) as Hv.
  change (Prim2SF 1) with (S754_finite false 4503599627370496 (-52)).
  destruct (Prim2SF x) as [s|s| |s m e]; try discriminate.
  - destruct s; [discriminate|]. intros _. left. reflexivity.
  - unfold SFltb, SFcompare. destruct s; [discriminate|].
    assert (Hcc : forall a b, PosDef.Pos.compare_cont Eq a b = Pos.compare a b)
      by reflexivity.
    rewrite !Hcc. clear Hcc.
    intros H. right. exists m, e. split; [reflexivity|].
    unfold SpecFloat.valid_binary, bounded in Hv. apply andb_true_iff in Hv as [Hc Hb].
    apply Z.leb_le in Hb. unfold prec, emax in Hb, Hc.
    destruct (Z.compare_spec (-52) e) as [He|He|He]; try discriminate H.
    + subst e. pose proof (canonical_53_bits m (-52) ltac:(lia) Hc) as Hm.
      split; [lia|]. split; [exact Hm|].
      destruct (Pos.compare_spec 4503599627370496 m) as [Hp|Hp|Hp]; try discriminate H.
      apply Pos2Z.pos_lt_pos in Hp. exact Hp.
    + pose proof (canonical_53_bits m e ltac:(lia) Hc) as Hm.
      split; [lia|]. split; [exact Hm|].
      destruct (Z_le_gt_dec e 0) as [Hneg|Hpos].
      * assert (2 ^ (- e) <= 2 ^ 51)%Z by (apply Z.pow_le_mono_r; lia).
        assert (2 ^ 51 < 2 ^ 52)%Z by reflexivity. lia.
      * rewrite Z.pow_neg_r by lia. lia.
Qed.

(** Above 1.0 the truncated quotient lies between 0 and 1000. *)
Lemma int_div_1000_le_1000 (x : float) :
  (1 <? x) = true ->
  exists t, Py.int (1000 / x) = Py.Ok t /\ (0 <= t <= 1000)%Z.
Proof.
  intros H1. unfold Py.int. rewrite FloatAxioms.div_spec.
  change (Prim2SF 1000) with (S754_finite false 8796093022208000 (-43)).
  destruct (above_1 x H1) as [->|(m & e & -> & He & Hm & Hgt)].
  - exists 0%Z. split; [reflexivity|lia].
  - unfold SF64div, prec, emax.
    pose proof (SFdiv_1000_le_1000 m e He Hm Hgt) as Hd.
    destruct (SFdiv 53 1024 _ _) as [s|s| |s m' e']; try contradiction.
    + exists 0%Z. split; [reflexivity|lia].
    + destruct Hd as (-> & He' & Hm').
      eexists. split; [reflexivity|].
      replace e' with (- - e')%Z by lia.
      rewrite Z.shiftl_opp_r, Z.shiftr_div_pow2 by lia.
      split; [apply Z.div_pos; [lia|apply Z.pow_pos_nonneg; lia]|].
      apply Z.div_le_upper_bound; [apply Z.pow_pos_nonneg; lia|lia].
Qed.

End WaitBoundFacts.

Section WaitRangeFacts.
Import Py.
#[local] Open Scope float_scope.

(** X17: the key poll waits between 1 ms and one second, whatever frame
    rate was asked for: a huge, zero, negative, infinite or NaN rate
    included, and without error. *)
Theorem wait_ms_range (fps : float) :
  exists n : Z, Pacing.wait_ms fps = Ok n /\ (1 <= n <= 1000)%Z.
Proof.
  destruct (wait_ms_total fps) as (t & Ht & Hw).
  exists (Z.max 1 t). split; [exact Hw|].
  unfold max1 in Ht. destruct (1 <? fps) eqn:H.
  - destruct (int_div_1000_le_1000 fps H) as (t' & Ht' & Hr).
    rewrite Ht in Ht'. injection Ht' as <-. lia.
  - vm_compute in Ht. injection Ht as <-. lia.
Qed.

End WaitRangeFacts.

(** ** The sign of the rate estimate *)
Section SignFacts.
Import Observe.

Lemma binary_round_aux_sign (sx : bool) (mx ex : Z) (lx : location) :
  0 <= mx ->
  match binary_round_aux 53 1024 sx mx ex lx with
  | S754_zero s | S754_infinity s | S754_finite s _ _ => s = sx
  | S754_nan => False
  end.
Proof.
  intros Hm. unfold binary_round_aux.
  pose proof (shr_fexp_bound mx ex lx Hm) as B1.
  destruct (shr_fexp 53 1024 mx ex lx) as [mrs' e'].
  destruct B1 as [Hm' _].
  pose proof (round_nearest_even_bound (shr_m mrs') (loc_of_shr_record mrs') (proj1 Hm'))
    as Hr.
  set (m2 := round_nearest_even (shr_m mrs') (loc_of_shr_record mrs')) in *.
  assert (Hm2 : 0 <= m2) by lia.
  pose proof (shr_fexp_bound m2 e' loc_Exact Hm2) as B2.
  destruct (shr_fexp 53 1024 m2 e' loc_Exact) as [mrs'' e''].
  destruct B2 as [Hm'' _].
  destruct (shr_m mrs'') as [|p|p]; [reflexivity| |lia].
  destruct (e'' <=? 1024 - 53); reflexivity.
Qed.

Lemma SFnonneg_round (mx ex : Z) (lx : location) :
  0 <= mx -> SFnonneg (binary_round_aux 53 1024 false mx ex lx) = true.
Proof.
  intros Hm. pose proof (binary_round_aux_sign false mx ex lx Hm) as H.
  destruct (binary_round_aux 53 1024 false mx ex lx); try contradiction;
    subst; reflexivity.
Qed.

(** A number that is not below zero, times a positive finite constant. *)
Lemma SFmul_nonneg (x : spec_float) (m : positive) (e : Z) :
  SFnonneg x = true -> SFnonneg (SFmul 53 1024 x (S754_finite false m e)) = true.
Proof.
  destruct x as [s|s| |s mx ex]; try discriminate; cbn [SFmul SFnonneg].
  - reflexivity.
  - destruct s; [discriminate|reflexivity].
  - destruct s; [discriminate|]. intros _. apply SFnonneg_round. lia.
Qed.

Lemma SFadd_nonneg (x y : spec_float) :
  SFnonneg x = true -> SFnonneg y = true -> SFnonneg (SFadd 53 1024 x y) = true.
Proof.
  destruct x as [sx|sx| |sx mx ex]; try discriminate;
    destruct y as [sy|sy| |sy my ey]; try discriminate; cbn [SFadd SFnonneg];
    try (destruct sx; try discriminate); try (destruct sy; try discriminate);
    try reflexivity.
  intros _ _. cbn [cond_Zopp]. unfold binary_normalize.
  destruct (Z.pos _ + Z.pos _) as [|p|p] eqn:Hp; [reflexivity| |lia].
  unfold binary_round.
  destruct (shl_align p (Z.min ex ey) _) as [mz ez].
  apply SFnonneg_round. lia.
Qed.

Lemma SFdiv_pos_nonneg (m : positive) (e : Z) (y : spec_float) :
  SFltb (S754_zero false) y = true ->
  SFnonneg (SFdiv 53 1024 (S754_finite false m e) y) = true.
Proof.
  destruct y as [s|s| |s my ey]; try discriminate; unfold SFltb, SFcompare;
    destruct s; try discriminate; intros _; cbn [SFdiv xorb]; [reflexivity|].
  unfold SFdiv_core_binary.
  set (e' := Z.min _ _).
  set (m' := match e - ey - e' with 0 => _ | Z.pos _ => _ | Z.neg _ => _ end).
  assert (Hm' : 0 <= m').
  { subst m'. destruct (e - ey - e') as [|p|p]; [lia| |lia].
    apply Z.shiftl_nonneg. lia. }
  pose proof (Z.div_eucl_eq m' (Z.pos my) ltac:(lia)) as Hq.
  pose proof (Z.mod_pos_bound m' (Z.pos my) ltac:(lia)) as Hr.
  unfold Z.modulo in Hr.
  change IntDef.Z.div_eucl with Z.div_eucl.
  destruct (Z.div_eucl m' (Z.pos my)) as [q r].
  apply SFnonneg_round. nia.
Qed.

#[local] Open Scope float_scope.

Lemma sane_spec (x : float) : sane x = SFnonneg (Prim2SF x).
Proof.
  unfold sane. rewrite FloatAxioms.leb_spec.
  change (Prim2SF 0) with (S754_zero false).
  destruct (Prim2SF x) as [s|s| |s m e]; try reflexivity; destruct s; reflexivity.
Qed.

(** The update keeps the estimate a number that is not below zero. *)
Lemma update_sane (estimate dt r : float) :
  sane estimate = true -> RateEstimator.update estimate dt = Py.Ok r -> sane r = true.
Proof.
  intros He. unfold RateEstimator.update, RateEstimator.update_with, Py.truediv.
  destruct (0 <? dt) eqn:Hdt; [|intros [= <-]; exact He].
  rewrite (pos_not_zero dt Hdt). cbn. intros [= <-].
  rewrite sane_spec in *.
  rewrite FloatAxioms.add_spec, !FloatAxioms.mul_spec, FloatAxioms.div_spec.
  rewrite FloatAxioms.ltb_spec in Hdt. change (Prim2SF 0) with (S754_zero false) in Hdt.
  change (Prim2SF 0.9) with (S754_finite false 8106479329266893 (-53)).
  change (Prim2SF 0.1) with (S754_finite false 7205759403792794 (-56)).
  change (Prim2SF 1) with (S754_finite false 4503599627370496 (-52)).
  apply SFadd_nonneg; apply SFmul_nonneg; [exact He|].
  apply SFdiv_pos_nonneg, Hdt.
Qed.

End SignFacts.

Section RateFacts.
Import Py Main Observe.

Lemma body_rate_ok (args : Args) (rect : Rect) (writer : bool) (tk : Tick) (st : Locals) :
  sane (measured_fps st) = true ->
  let '(evs, st', _) := body args rect writer tk st in
  Forall rate_ok evs /\ sane (measured_fps st') = true.
Proof.
  intros Hbefore.
  destruct (update_total (measured_fps st) (now tk - last_time st)%float) as [m Hm].
  pose proof (update_sane _ _ _ Hbefore Hm) as Hafter.
  destruct (wait_ms_total (fps args)) as (t & _ & Hw).
  exec_body tk st Hm Hw.
  all: cbn in Hbefore; unfold sane in *; split; [|assumption].
  all: repeat (apply List.Forall_cons; [first [exact Hbefore | exact Hafter]|]).
  all: apply List.Forall_nil.
Qed.

Lemma loop_rate_ok (args : Args) (rect : Rect) (writer : bool) (ticks : list Tick) :
  forall st, sane (measured_fps st) = true ->
  let '(evs, st', _) := loop args rect writer ticks st in
  Forall rate_ok evs /\ sane (measured_fps st') = true.
Proof.
  induction ticks as [|tk ticks IH]; intros st Hs.
  - cbn. split; [constructor|exact Hs].
  - rewrite loop_cons. pose proof (body_rate_ok args rect writer tk st Hs) as Hb.
    destruct (body args rect writer tk st) as [[evs st'] [[]|e]].
    + destruct Hb as [He Hs']. specialize (IH st' Hs').
      destruct (loop args rect writer ticks st') as [[evs' st''] r].
      destruct IH as [He' Hs'']. split; [apply Forall_app; split; assumption|assumption].
    + rewrite app_nil_r. exact Hb.
    + exact Hb.
Qed.

(** X18: the rate on the overlay is always a number and never below zero,
    whatever the clock does between two iterations: standing still, going
    backwards, or answering NaN or an infinity.  Every frame shown carries
    the estimate of its moment at (10, 60), that estimate satisfies
    [0 <= measured_fps], and so does the one the run ends with. *)
Theorem shown_rate_is_a_number (args : Args) (env : Env) (ticks : list Tick) :
  let r := main args env ticks in
  (forall st f, In (st, Imshow f) (iterations r) ->
     In (Fps (measured_fps st), (10, 60)) (texts f)
     /\ (0 <=? measured_fps st)%float = true)
  /\ (forall st, locals r = Some st -> (0 <=? measured_fps st)%float = true).
Proof.
  cbn zeta. unfold main.
  destruct (resolve args (monitors env)) as [[rect|]|e];
    [|split; [intros ? ? []|discriminate]..].
  destruct (Codec.select_codec_by_ext (outfile args) (codec args)) as [fourcc|e];
    [|split; [intros ? ? []|discriminate]].
  rewrite session_iterations, session_locals.
  pose proof (loop_rate_ok args rect (isOpened env) ticks (initial env) eq_refl) as Hl.
  pose proof (fun x => loop_In args rect (isOpened env) ticks (initial env) x) as Hin.
  destruct (loop args rect (isOpened env) ticks (initial env)) as [[evs st'] r].
  cbn [fst snd] in *. destruct Hl as [Hall Hend]. split.
  - intros st f Hf. rewrite Forall_forall in Hall.
    split; [|exact (Hall _ (proj2 (list_elem_of_In _ _) Hf))].
    destruct (Hin _ Hf) as (tk & st0 & Hb & _).
    pose proof (body_shows_state args rect (isOpened env) tk st0) as Hshow.
    rewrite Forall_forall in Hshow.
    pose proof (Hshow _ (proj2 (list_elem_of_In _ _) Hb)) as Ht.
    cbn in Ht. rewrite Ht. unfold overlay_texts. cbn. tauto.
  - intros st [= <-]. exact Hend.
Qed.

Lemma shown_rate_is_a_number_witness :
  let r := main Sample.args (Sample.env true) Sample.record5 in
  let st := initial (Sample.env true) in
  let f := overlay st 1080 (cvtColor [[(10, 20, 30, 255)]]) in
  In (st, Imshow f) (iterations r)
  /\ In (Fps 0, (10, 60)) (texts f)
  /\ (0 <=? measured_fps st)%float = true
  /\ exists st', locals r = Some st' /\ (0 <=? measured_fps st')%float = true.
Proof.
  intros r st f.
  destruct (shown_rate_is_a_number Sample.args (Sample.env true) Sample.record5)
    as [Hshown Hend].
  assert (Hin : In (st, Imshow f) (iterations r))
    by (vm_compute; right; left; reflexivity).
  split; [exact Hin|]. split; [exact (proj1 (Hshown st f Hin))|].
  split; [exact (proj2 (Hshown st f Hin))|].
  destruct (locals r) as [st'|] eqn:Hl; [|vm_compute in Hl; discriminate Hl].
  exists st'. split; [reflexivity|]. apply Hend. exact Hl.
Defined.

End RateFacts.

(** ** Acquire, use, release *)
Section DisciplineFacts.
Import Py Main Observe.

Lemma disciplined_app (res : resource) (l1 l2 : list event) : forall held,
  disciplined res held (l1 ++ l2)
  = disciplined res held l1 && disciplined res (after res held l1) l2.
Proof.
  induction l1 as [|e l1 IH]; intros held; [reflexivity|].
  cbn [app disciplined after].
  destruct (acquire res e); [rewrite IH, andb_assoc; reflexivity|].
  destruct (release res e); [rewrite IH, andb_assoc; reflexivity|].
  destruct (use res e); [rewrite IH, andb_assoc; reflexivity|].
  apply IH.
Qed.

Lemma after_app (res : resource) (l1 l2 : list event) : forall held,
  after res held (l1 ++ l2) = after res (after res held l1) l2.
Proof.
  induction l1 as [|e l1 IH]; intros held; [reflexivity|].
  cbn [app after]. apply IH.
Qed.

(** The loop neither acquires nor releases: what is held when it starts is
    held throughout. *)
Lemma loop_holds (res : resource) (rect : Rect) (writer : bool)
    (its : list (Locals * event)) :
  Forall (loop_event_ok rect writer) its ->
  disciplined res true (map snd its) = true /\ after res true (map snd its) = true.
Proof.
  induction 1 as [|[st e] its He _ [IHd IHa]]; [split; reflexivity|].
  cbn [map snd disciplined after].
  destruct e; cbn in He; try contradiction; destruct res; cbn; split; assumption.
Qed.

(** X8: on every run, exceptions included, each of the capture handle, the
    video writer and the preview window is acquired only when it is not
    held, and used and released only while it is held: nothing is grabbed
    after [sct.close()], shown after [destroyAllWindows()], or written
    after [writer.release()], and nothing is released twice. *)
Theorem used_only_while_held
    (res : resource) (args : Args) (env : Env) (ticks : list Tick) :
  disciplined res false (trace (main args env ticks)) = true.
Proof.
  unfold main.
  destruct (resolve args (monitors env)) as [[rect|]|e];
    [|destruct res; reflexivity..].
  destruct (Codec.select_codec_by_ext (outfile args) (codec args)) as [fourcc|e];
    [|destruct res; reflexivity].
  pose proof (loop_events_ok args rect (isOpened env) ticks (initial env)) as Hok.
  unfold trace.
  rewrite session_setup_eq, session_teardown_calls, session_iterations.
  assert (Hfin : disciplined res true
                   (until_raise (closing env) (finally args (isOpened env))) = true).
  { destruct (until_raise_prefix (closing env) (finally args (isOpened env)))
      as (rest & Hc & _).
    assert (Hfull : disciplined res true (map snd (finally args (isOpened env))) = true)
      by (destruct res, (isOpened env); reflexivity).
    rewrite Hc, disciplined_app in Hfull. apply andb_true_iff in Hfull. tauto. }
  destruct (loop args rect (isOpened env) ticks (initial env)) as [[its st] r].
  cbn [fst snd] in *.
  destruct (loop_holds res rect (isOpened env) its Hok) as [Hd Ha].
  revert Hfin. generalize (until_raise (closing env) (finally args (isOpened env))).
  intros cut Hfin.
  destruct r as [[]|e]; [| |destruct e; try destruct (closing env AtInterrupted)];
    destruct res, (isOpened env);
    cbn [app disciplined acquire release use negb andb];
    rewrite disciplined_app, Hd, Ha;
    cbn [app disciplined acquire release use negb andb];
    first [exact Hfin | reflexivity].
Qed.

End DisciplineFacts.

(** ** What the console says about recording *)
Section ToggleMessageFacts.
Import Py Main Observe.

Lemma body_toggle_messages (args : Args) (rect : Rect) (writer : bool)
    (tk : Tick) (st : Locals) :
  print_ok tk = true ->
  let '(evs, st', _) := body args rect writer tk st in
  (count (prints started_msg) (map snd evs) + bit (recording st)
   = count (prints stopped_msg) (map snd evs) + bit (recording st'))%nat.
Proof.
  intros Hp.
  destruct (update_total (measured_fps st) (now tk - last_time st)%float) as [m Hm].
  destruct (wait_ms_total (fps args)) as (t & _ & Hw).
  exec_body tk st Hm Hw; try discriminate Hp; reflexivity.
Qed.

Lemma loop_toggle_messages (args : Args) (rect : Rect) (writer : bool)
    (ticks : list Tick) : forall st,
  forallb print_ok ticks = true ->
  let '(evs, st', _) := loop args rect writer ticks st in
  (count (prints started_msg) (map snd evs) + bit (recording st)
   = count (prints stopped_msg) (map snd evs) + bit (recording st'))%nat.
Proof.
  induction ticks as [|tk ticks IH]; intros st Hall; [reflexivity|].
  cbn [forallb] in Hall. apply andb_true_iff in Hall as [Hp Hrest].
  rewrite loop_cons. pose proof (body_toggle_messages args rect writer tk st Hp) as Hb.
  destruct (body args rect writer tk st) as [[evs st'] [[]|e]].
  - specialize (IH st' Hrest).
    destruct (loop args rect writer ticks st') as [[evs' st''] r].
    rewrite map_app, !count_app. lia.
  - rewrite app_nil_r. exact Hb.
  - exact Hb.
Qed.

(** X16: the console tells whether recording is on.  In a run that got as
    far as the loop and in which no [print] raises, "Recording started."
    has been printed once more than "Recording stopped." if [recording] is
    on when the run ends (or has got so far), and as often if it is off,
    whatever else was printed and however the run ended. *)
Theorem toggle_messages_tell_the_state
    (args : Args) (env : Env) (ticks : list Tick) (rect : Rect) (fourcc : Z) :
  forallb print_ok ticks = true -> enters args env rect fourcc ->
  let r := main args env ticks in
  exists st, locals r = Some st
    /\ (count (prints started_msg) (trace r)
        = count (prints stopped_msg) (trace r) + bit (recording st))%nat.
Proof.
  intros Hall Hen r. subst r. rewrite (main_session args env rect fourcc _ Hen).
  pose proof (loop_toggle_messages args rect (isOpened env) ticks (initial env) Hall) as Hl.
  rewrite session_locals. unfold trace. rewrite !count_app, session_iterations.
  rewrite !session_setup_message by (apply rect_msg_is_not; reflexivity).
  rewrite !session_teardown_0
    by (first [reflexivity | unfold finally; destruct (isOpened env); reflexivity]).
  destruct (loop args rect (isOpened env) ticks (initial env)) as [[its st] r].
  exists st. split; [reflexivity|].
  cbn [bit recording initial fst snd] in *.
  destruct (isOpened env); cbn; lia.
Qed.

Lemma toggle_messages_tell_the_state_witness :
  let r := main Sample.args (Sample.env true) Sample.until_interrupt in
  exists st, locals r = Some st
    /\ recording st = true
    /\ (count (prints started_msg) (trace r)
        = count (prints stopped_msg) (trace r) + 1)%nat.
Proof.
  intros r.
  destruct (toggle_messages_tell_the_state Sample.args (Sample.env true)
              Sample.until_interrupt _ _ eq_refl (sample_enters true))
    as (st & Hl & Hc).
  exists st. split; [exact Hl|].
  assert (Hrec : recording st = true).
  { fold r in Hl. vm_compute in Hl. injection Hl as <-. reflexivity. }
  split; [exact Hrec|]. rewrite Hrec in Hc. exact Hc.
Defined.

End ToggleMessageFacts.

(** ** The size of the video *)
Section SizeFacts.
Import Py Main Observe.

Lemma session_trace_In (args : Args) (env : Env) (rect : Rect) (fourcc : Z)
    (ticks : list Tick) (e : event) :
  In e (trace (session args env [MssOpen; Print (rect_msg rect)] rect fourcc ticks)) ->
  e = VideoWriterOpen (outfile args) fourcc (fps args) (width rect, height rect)
  \/ (exists st, loop_event_ok rect (isOpened env) (st, e) /\ is_grab e = true)
  \/ (opened_size e = None /\ grabbed_size e = None).
Proof.
  pose proof (loop_events_ok args rect (isOpened env) ticks (initial env)) as Hok.
  pose proof (session_teardown_In args env ticks rect fourcc e) as Htd.
  unfold trace. rewrite session_setup_eq, session_iterations.
  destruct (loop args rect (isOpened env) ticks (initial env)) as [[its st] r].
  cbn [fst snd] in Hok. rewrite Forall_forall in Hok.
  assert (Hits : In e (map snd its) ->
            (exists st0, loop_event_ok rect (isOpened env) (st0, e) /\ is_grab e = true)
            \/ (opened_size e = None /\ grabbed_size e = None)).
  { intros Hin. apply in_map_iff in Hin as ([st0 e0] & <- & Hin).
    pose proof (Hok _ (proj2 (list_elem_of_In _ _) Hin)) as He.
    destruct e0; cbn in He; try contradiction;
      solve [left; exists st0; split; [exact He|reflexivity]
            | right; split; reflexivity]. }
  assert (Hfin : In e (map snd (finally args (isOpened env))) ->
            opened_size e = None /\ grabbed_size e = None).
  { unfold finally. destruct (isOpened env); cbn; intros H; decompose [or] H;
      subst; try contradiction; split; reflexivity. }
  rewrite !in_app_iff. intros [H|[H|H]].
  - revert H. destruct (isOpened env); cbn [In app]; intros H;
      decompose [or] H; subst;
      solve [ left; reflexivity | right; right; split; reflexivity | contradiction ].
  - right. apply Hits, H.
  - right. right. destruct (Htd H) as [->|H']; [split; reflexivity|exact (Hfin H')].
Qed.

(** X6: the video has the size of what is grabbed.  On every run the size
    any video writer was opened with is the width and the height of the
    rectangle of any grab, be it a monitor of the list or a region of the
    command line. *)
Theorem video_has_the_grabbed_size (args : Args) (env : Env) (ticks : list Tick) :
  let r := main args env ticks in
  forall e1 e2 size1 size2,
    In e1 (trace r) -> In e2 (trace r) ->
    opened_size e1 = Some size1 -> grabbed_size e2 = Some size2 ->
    size1 = size2.
Proof.
  intros r e1 e2 size1 size2. subst r.
  destruct (main_cases args env ticks)
    as [(evs & e & -> & _ & [->|[msg ->]]) | (rect & fourcc & _ & ->)].
  - intros [<-|[]]. discriminate.
  - intros [<-|[<-|[]]]; discriminate.
  - intros H1 H2 Ho Hg.
    apply session_trace_In in H1 as [->|[(st & _ & He)|[He _]]];
      [|destruct e1; discriminate|congruence].
    apply session_trace_In in H2 as [->|[(st & Hok & He)|[_ He]]];
      [discriminate| |congruence].
    destruct e2; try discriminate. cbn in Hok, Ho, Hg. congruence.
Qed.

Lemma video_has_the_grabbed_size_witness :
  let args := {| outfile := "demo.mp4"; fps := 20; monitor := 1;
                 region := Some (0, 0, 1280, 720); codec := None |} in
  let rect := {| left := 0; top := 0; width := 1280; height := 720 |} in
  let r := main args (Sample.env true) Sample.record5 in
  In (VideoWriterOpen "demo.mp4" Codec.mp4v 20 (1280, 720)) (trace r)
  /\ In (Grab rect) (trace r)
  /\ (1280, 720) = (width rect, height rect).
Proof.
  intros args rect r.
  assert (H1 : In (VideoWriterOpen "demo.mp4" Codec.mp4v 20 (1280, 720)) (trace r))
    by (vm_compute; do 2 right; left; reflexivity).
  assert (H2 : In (Grab rect) (trace r))
    by (vm_compute; do 5 right; left; reflexivity).
  split; [exact H1|]. split; [exact H2|].
  exact (video_has_the_grabbed_size args (Sample.env true) Sample.record5
           _ _ _ _ H1 H2 eq_refl eq_refl).
Defined.

End SizeFacts.
